(** * SPWidgets board widget: a shallow embedding of [src/boardWidget/board.js]

    The development follows the source file:
    - [JS]: the few JavaScript value notions the widget relies on
      (truthiness, [String()], [===] against a string, [toLowerCase], the
      members inherited from [Object.prototype] and the order in which
      the properties of an object are enumerated);
    - [Board]: the widget instance [opt], its states (columns), the cards
      rendered inside every column, and the operations
      [getBoardStates], the column build loop of [showBoard],
      [setUserDefinedVisibleCol], [showItemsOnBoard] and the
      [sortreceive] handlers;
    - [Notions] and [Fixtures]: what the statements are written with, and
      concrete boards;
    - [DomainFacts], [VisibilityFacts], [MoveFacts], [EventFacts],
      [ReconcileFacts]: the properties, one module for each component.

    jQuery, the item template and the SharePoint calls are collaborators of
    the widget that live outside the repository sources; they enter the
    model as section variables. *)

From Stdlib Require Import List String Ascii Bool Arith ZArith Lia Permutation.
Import ListNotations.
Open Scope string_scope.
Open Scope list_scope.

Set Implicit Arguments.

(* ===================================================================== *)
(** ** JavaScript values *)
(* ===================================================================== *)

Module JS.

(** The values that flow through the widget.  A number is kept through its
    [String()] image, which is all the widget ever looks at (it only tests
    numbers for truthiness and concatenates them into strings). *)
Inductive value : Type :=
| VUndefined
| VNull
| VBool (b : bool)
| VNum (repr : string)
| VStr (s : string)
| VObj (repr : string).

(** [if (v)] *)
Definition truthy (v : value) : bool :=
  match v with
  | VUndefined | VNull => false
  | VBool b => b
  | VNum r => negb (String.eqb r "0") && negb (String.eqb r "NaN")
  | VStr s => negb (String.eqb s "")
  | VObj _ => true
  end.

(** [String(v)] *)
Definition to_String (v : value) : string :=
  match v with
  | VUndefined => "undefined"
  | VNull => "null"
  | VBool true => "true"
  | VBool false => "false"
  | VNum r => r
  | VStr s => s
  | VObj r => r
  end.

(** [v === s] for a string [s] *)
Definition strict_eq_str (v : value) (s : string) : bool :=
  match v with
  | VStr t => String.eqb t s
  | _ => false
  end.

(** [v === true] *)
Definition strict_eq_true (v : value) : bool :=
  match v with
  | VBool true => true
  | _ => false
  end.

Definition lower_ascii (c : ascii) : ascii :=
  let n := nat_of_ascii c in
  if ((65 <=? n)%nat && (n <=? 90)%nat)%bool then ascii_of_nat (n + 32) else c.

(** [s.toLowerCase()], on the ASCII letters (the widget compares the
    result with the keyword ["all"] only). *)
Fixpoint toLowerCase (s : string) : string :=
  match s with
  | EmptyString => EmptyString
  | String c rest => String (lower_ascii c) (toLowerCase rest)
  end.

(** [s.split(/\,/)] *)
Fixpoint split_comma_aux (cur : string) (s : string) : list string :=
  match s with
  | EmptyString => [cur]
  | String c rest =>
      if Ascii.eqb c ","%char
      then cur :: split_comma_aux EmptyString rest
      else split_comma_aux (cur ++ String c EmptyString)%string rest
  end.

Definition split_comma (s : string) : list string :=
  split_comma_aux EmptyString s.

(** [$.inArray(x, arr) > -1] on an array of strings *)
Definition inArray (x : string) (arr : list string) : bool :=
  existsb (String.eqb x) arr.

(** The names of the members every plain object inherits from
    [Object.prototype].  For such a name [k] the expression [obj[k]] is
    truthy whatever the own properties of [obj] are, and
    [obj[k] === undefined] is false. *)
Definition Object_prototype : list string :=
  ["constructor"; "toString"; "toLocaleString"; "valueOf";
   "hasOwnProperty"; "isPrototypeOf"; "propertyIsEnumerable";
   "__proto__"; "__defineGetter__"; "__defineSetter__";
   "__lookupGetter__"; "__lookupSetter__"].

Definition inherited (k : string) : bool := inArray k Object_prototype.

(** The decimal digit a character spells. *)
Definition digit (c : ascii) : option N :=
  let n := N_of_ascii c in
  if ((48 <=? n) && (n <=? 57))%N then Some (n - 48)%N else None.

Fixpoint digits (s : string) (acc : N) : option N :=
  match s with
  | EmptyString => Some acc
  | String c rest =>
      match digit c with
      | Some d => digits rest (10 * acc + d)%N
      | None => None
      end
  end.

(** The array index a property name spells, if it spells one: the
    canonical decimal form (no leading zero) of an integer below
    [2^32 - 1]. *)
Definition array_index (s : string) : option N :=
  match s with
  | EmptyString => None
  | String c rest =>
      if Ascii.eqb c "0"%char && negb (String.eqb rest "") then None
      else match digits s 0 with
           | Some n => if (n <? 4294967295)%N then Some n else None
           | None => None
           end
  end.

Definition is_index (s : string) : bool :=
  match array_index s with
  | Some _ => true
  | None => false
  end.

(** The order in which [for (k in obj)], and so [$.each(obj, ...)],
    visit the own properties of an object: the names that spell an array
    index first, by ascending index, then the other names in the order of
    their creation. *)
Fixpoint insert_index (A : Type) (n : N) (kv : string * A)
         (l : list (N * (string * A))) : list (N * (string * A)) :=
  match l with
  | [] => [(n, kv)]
  | (m, kv') :: rest =>
      if (n <? m)%N then (n, kv) :: (m, kv') :: rest
      else (m, kv') :: insert_index n kv rest
  end.

Definition index_keys (A : Type) (obj : list (string * A))
  : list (N * (string * A)) :=
  fold_right (fun kv acc =>
                match array_index (fst kv) with
                | Some n => insert_index n kv acc
                | None => acc
                end)
             [] obj.

Definition own_keys_order (A : Type) (obj : list (string * A))
  : list (string * A) :=
  map snd (index_keys obj)
  ++ filter (fun kv => negb (is_index (fst kv))) obj.

End JS.

(* ===================================================================== *)
(** ** The widget instance *)
(* ===================================================================== *)

Module Board.

(** [Board.maxColumns]: the most columns that can be built. *)
Definition maxColumns : nat := 20.

(** One row of [opt.listItems].  The widget reads two things from a row:
    its [ID] (always through string concatenation or [String()]) and the
    value of the board field, [thisListRow[opt.field]], absent when the
    row carries no such attribute.  [Title] stands for the rest of the
    row, which only the template looks at.  Rows are plain objects, as
    [getListItems] delivers them (no knockout observables). *)
Record row : Type := {
  ID : string;
  fieldValue : option string;
  Title : string
}.

(** A rendered item:
    [<div class="spwidget-board-state-item ..." data-id="...">html</div>],
    with the marker class [spwidget-temp] as a flag. *)
Record card : Type := {
  data_id : string;
  spwidget_temp : bool;
  html : string
}.

Inductive stateType : Type := choice | lookup.

(** An element of [opt.states].  [getBoardStates] creates it with
    [type], [title] and [name]; the build loop of [showBoard] adds the
    view: [isVisible], the hidden CSS class carried by [dataEle] and
    [headerEle], the header total and the children of [dataEle]. *)
Record state : Type := {
  type : stateType;
  title : string;
  name : string;
  isVisible : bool;
  cssHidden : bool;
  headerTotal : nat;
  dataEle : list card
}.

(** What [getBoardStates] pushes: the view fields are not there yet and
    are filled by [build_column]; until then they hold the values the
    build loop starts from. *)
Definition mkState (t : stateType) (ttl nm : string) : state :=
  {| type := t; title := ttl; name := nm;
     isVisible := true; cssHidden := false;
     headerTotal := 0; dataEle := [] |}.

Definition set_dataEle (cards : list card) (s : state) : state :=
  {| type := type s; title := title s; name := name s;
     isVisible := isVisible s; cssHidden := cssHidden s;
     headerTotal := headerTotal s; dataEle := cards |}.

Definition set_headerTotal (n : nat) (s : state) : state :=
  {| type := type s; title := title s; name := name s;
     isVisible := isVisible s; cssHidden := cssHidden s;
     headerTotal := n; dataEle := dataEle s |}.

Definition set_visibility (vis hid : bool) (s : state) : state :=
  {| type := type s; title := title s; name := name s;
     isVisible := vis; cssHidden := hid;
     headerTotal := headerTotal s; dataEle := dataEle s |}.

(** [opt.statesMap]: a JavaScript object used as a map from a field value
    to the element of [opt.states] it stands for.  The object holds a
    reference to the very element of the array, which the model keeps as
    the element's index.  The list holds the own properties in the order
    of their creation; [JS.own_keys_order] gives the order in which
    [$.each] and [for..in] visit them.  The members the object inherits
    from [Object.prototype] are not in the list: a lookup [smap_get k] is
    the lookup of the code for every [k] but the names of
    [JS.Object_prototype] ([JS.inherited], [Notions.plain_rows]). *)
Definition statesMapT : Type := list (string * nat).

Fixpoint smap_get (k : string) (m : statesMapT) : option nat :=
  match m with
  | [] => None
  | (k', i) :: rest => if String.eqb k k' then Some i else smap_get k rest
  end.

(** [m[k] = i]: an existing key keeps its place. *)
Fixpoint smap_set (k : string) (i : nat) (m : statesMapT) : statesMapT :=
  match m with
  | [] => [(k, i)]
  | (k', j) :: rest =>
      if String.eqb k k' then (k, i) :: rest
      else (k', j) :: smap_set k i rest
  end.

(** The part of [opt] the modelled operations read or write. *)
Record board : Type := {
  field : string;
  optionalLabel : string;
  allowFieldBlanks : option bool;       (* null, true or false *)
  fieldFilter : option string;          (* null or a string *)
  colPickerVisible : list string;
  states : list state;
  statesMap : statesMapT;
  listItems : list row;
  initDone : bool;
  isStateRequired : bool;
  maxColumnVisible : Z;
  showNumberOfColumns : Z
}.

Definition set_states (sts : list state) (o : board) : board :=
  {| field := field o; optionalLabel := optionalLabel o;
     allowFieldBlanks := allowFieldBlanks o; fieldFilter := fieldFilter o;
     colPickerVisible := colPickerVisible o;
     states := sts; statesMap := statesMap o; listItems := listItems o;
     initDone := initDone o; isStateRequired := isStateRequired o;
     maxColumnVisible := maxColumnVisible o;
     showNumberOfColumns := showNumberOfColumns o |}.

Definition set_statesMap (m : statesMapT) (o : board) : board :=
  {| field := field o; optionalLabel := optionalLabel o;
     allowFieldBlanks := allowFieldBlanks o; fieldFilter := fieldFilter o;
     colPickerVisible := colPickerVisible o;
     states := states o; statesMap := m; listItems := listItems o;
     initDone := initDone o; isStateRequired := isStateRequired o;
     maxColumnVisible := maxColumnVisible o;
     showNumberOfColumns := showNumberOfColumns o |}.

Definition set_listItems (rows : list row) (o : board) : board :=
  {| field := field o; optionalLabel := optionalLabel o;
     allowFieldBlanks := allowFieldBlanks o; fieldFilter := fieldFilter o;
     colPickerVisible := colPickerVisible o;
     states := states o; statesMap := statesMap o; listItems := rows;
     initDone := initDone o; isStateRequired := isStateRequired o;
     maxColumnVisible := maxColumnVisible o;
     showNumberOfColumns := showNumberOfColumns o |}.

Definition set_initDone (b : bool) (o : board) : board :=
  {| field := field o; optionalLabel := optionalLabel o;
     allowFieldBlanks := allowFieldBlanks o; fieldFilter := fieldFilter o;
     colPickerVisible := colPickerVisible o;
     states := states o; statesMap := statesMap o; listItems := listItems o;
     initDone := b; isStateRequired := isStateRequired o;
     maxColumnVisible := maxColumnVisible o;
     showNumberOfColumns := showNumberOfColumns o |}.

Definition set_isStateRequired (b : bool) (o : board) : board :=
  {| field := field o; optionalLabel := optionalLabel o;
     allowFieldBlanks := allowFieldBlanks o; fieldFilter := fieldFilter o;
     colPickerVisible := colPickerVisible o;
     states := states o; statesMap := statesMap o; listItems := listItems o;
     initDone := initDone o; isStateRequired := b;
     maxColumnVisible := maxColumnVisible o;
     showNumberOfColumns := showNumberOfColumns o |}.

Definition set_showNumberOfColumns (n : Z) (o : board) : board :=
  {| field := field o; optionalLabel := optionalLabel o;
     allowFieldBlanks := allowFieldBlanks o; fieldFilter := fieldFilter o;
     colPickerVisible := colPickerVisible o;
     states := states o; statesMap := statesMap o; listItems := listItems o;
     initDone := initDone o; isStateRequired := isStateRequired o;
     maxColumnVisible := maxColumnVisible o;
     showNumberOfColumns := n |}.

Definition set_field (f : string) (o : board) : board :=
  {| field := f; optionalLabel := optionalLabel o;
     allowFieldBlanks := allowFieldBlanks o; fieldFilter := fieldFilter o;
     colPickerVisible := colPickerVisible o;
     states := states o; statesMap := statesMap o; listItems := listItems o;
     initDone := initDone o; isStateRequired := isStateRequired o;
     maxColumnVisible := maxColumnVisible o;
     showNumberOfColumns := showNumberOfColumns o |}.

(** The caller's options, laid over [Board.defaults]. *)
Record options : Type := {
  o_field : string;
  o_optionalLabel : string;
  o_allowFieldBlanks : option bool;
  o_fieldFilter : option string;
  o_colPickerVisible : list string
}.

(** [Board.defaults], for the options of the model ([field] is required
    on input and has no useful default). *)
Definition defaults (fld : string) : options :=
  {| o_field := fld; o_optionalLabel := "(none)";
     o_allowFieldBlanks := None; o_fieldFilter := None;
     o_colPickerVisible := [] |}.

(** [opt = $.extend({}, Board.defaults, options, { states: [], ... })]:
    the instance as [showBoard] defines it. *)
Definition new_board (user : options) : board :=
  {| field := o_field user;
     optionalLabel := o_optionalLabel user;
     allowFieldBlanks := o_allowFieldBlanks user;
     fieldFilter := o_fieldFilter user;
     colPickerVisible := o_colPickerVisible user;
     states := [];
     statesMap := [];
     listItems := [];
     initDone := false;
     isStateRequired := false;
     maxColumnVisible := 10;
     showNumberOfColumns := 10 |}.

(* ------------------------------------------------------------------- *)
(** *** [getBoardStates] *)
(* ------------------------------------------------------------------- *)

(** The column definition [f = listCols.getColumn(opt.field)]. *)
Record listColumn : Type := {
  f_Name : string;
  f_Required : string;
  f_Type : string;
  f_columnValues : list string;      (* f.getColumnValues() *)
  f_List : string;
  f_ShowField : string
}.

(** A row of the lookup list: its [ID] and [thisRow[f.ShowField]]. *)
Record lookupRow : Type := {
  lk_ID : string;
  lk_show : string
}.

(** The outcome of a remote call. *)
Inductive remote (A : Type) : Type :=
| Fetched (a : A)
| Failed.
Arguments Failed {A}.

(** The promise of [getBoardStates]: resolved with [opt] updated, or
    rejected with a message (the two other members of the rejection are
    the transport object and the constant ["error"]). *)
Inductive statesResult : Type :=
| Resolved (o : board)
| Rejected (msg : string) (status : string).

Definition rejectDeferred (o : board) (msg : option string) : statesResult :=
  Rejected
    (match msg with
     | Some m => m
     | None =>
         ("Field (" ++ field o ++ ") not found in list definition!")%string
     end)
    "error".

(** [opt.states.push(s); opt.statesMap[key] = opt.states[opt.states.length - 1]] *)
Definition push_state (key : string) (s : state) (o : board) : board :=
  set_statesMap (smap_set key (List.length (states o)) (statesMap o))
                (set_states (states o ++ [s]) o).

(** The [some] loop over the allowed values of a choice column; [i] is
    the index of [colValue] in [f.getColumnValues()]. *)
Fixpoint choice_values (filter : option (list string))
         (vals : list string) (i : nat) (o : board) : board :=
  match vals with
  | [] => o
  | colValue :: rest =>
      if match filter with
         | Some fl => negb (JS.inArray colValue fl)
         | None => false
         end
      then choice_values filter rest (S i) o
      else if (maxColumns <=? i)%nat then o
      else choice_values filter rest (S i)
             (push_state colValue (mkState choice colValue colValue) o)
  end.

(** The [some] loop over the rows of the lookup list. *)
Fixpoint lookup_rows (rows : list lookupRow) (i : nat) (o : board) : board :=
  match rows with
  | [] => o
  | thisRow :: rest =>
      if (maxColumns <=? i)%nat then o
      else
        let thisName := (lk_ID thisRow ++ ";#" ++ lk_show thisRow)%string in
        lookup_rows rest (S i)
          (push_state thisName (mkState lookup (lk_show thisRow) thisName) o)
  end.

(** The field found: its internal name replaces [opt.field], and
    [opt.isStateRequired] follows the definition of the field unless the
    caller set [allowFieldBlanks] to a boolean. *)
Definition note_field (f : listColumn) (o : board) : board :=
  let o := set_field (f_Name f) o in
  let o := if String.eqb (f_Required f) "TRUE"
           then set_isStateRequired true o else o in
  match allowFieldBlanks o with
  | Some b => set_isStateRequired (negb b) o
  | None => o
  end.

(** [getBoardStates], applied to what [getListColumns] answers (the
    column found under [opt.field], if any) and to what [getListItems]
    answers for the lookup list.  (The test [status === "error"] at the
    head of the lookup callback reads a variable that the function does
    not define; a failed query reaches [fail] instead.) *)
Definition getBoardStates (cols : remote (option listColumn))
           (lookupList : remote (list lookupRow)) (o : board)
  : statesResult :=
  match cols with
  | Failed => rejectDeferred o None
  | Fetched None => rejectDeferred o None
  | Fetched (Some f) =>
      let o := note_field f o in
      let ty := JS.toLowerCase (f_Type f) in
      if String.eqb ty "choice" then
        let o := if negb (isStateRequired o)
                 then push_state "" (mkState choice (optionalLabel o)
                                             (optionalLabel o)) o
                 else o in
        let filter := match fieldFilter o with
                      | Some s => if String.eqb s "" then None
                                  else Some (JS.split_comma s)
                      | None => None
                      end in
        Resolved (choice_values filter (f_columnValues f) 0 o)
      else if String.eqb ty "lookup" then
        match lookupList with
        | Failed =>
            rejectDeferred o (Some "Unable to get rows from Lookup column list")
        | Fetched rows =>
            let o := if negb (isStateRequired o)
                     then push_state "" (mkState lookup (optionalLabel o) "") o
                     else o in
            Resolved (lookup_rows rows 0 o)
        end
      else
        rejectDeferred o
          (Some ("Field (" ++ field o ++ ") Type (" ++ f_Type f
                 ++ ") is not supported!")%string)
  end.

(* ------------------------------------------------------------------- *)
(** *** Events *)
(* ------------------------------------------------------------------- *)

(** An element of an [itemsModified] array: a row object or [null]
    (what [getBoardItemDataObject] answers for an identifier it does not
    find), here [Some r] or [None], or a whole array of such. *)
Inductive entry : Type :=
| EItem (it : option row)
| EArr (l : list (option row)).

(** The data object handed to the handlers of an event, as
    [getEventObject] builds it.  [itemObj] is [None] for the empty object
    that stands in when the item is not found; [updates] is only there in
    the data of a drag move. *)
Record evData : Type := {
  stateTotals : list (string * nat);
  itemTotal : nat;
  currentState : JS.value;
  itemObj : option row;
  itemsModified : list entry;
  updates : option (list (string * JS.value))
}.

Definition set_itemsModified (im : list entry) (d : evData) : evData :=
  {| stateTotals := stateTotals d; itemTotal := itemTotal d;
     currentState := currentState d; itemObj := itemObj d;
     itemsModified := im; updates := updates d |}.

Definition set_updates (u : list (string * JS.value)) (d : evData) : evData :=
  {| stateTotals := stateTotals d; itemTotal := itemTotal d;
     currentState := currentState d; itemObj := itemObj d;
     itemsModified := itemsModified d; updates := Some u |}.

(** The events the widget triggers, each with its data object as the
    handlers find it while [trigger] runs them (the array
    [itemsModified] is shared between the objects of one pass and is
    emptied and refilled between two events). *)
Inductive event : Type :=
| boarditemadd (d : evData)
| boarditemremove (d : evData)
| boardchange (d : evData)
| boardColumnChange (columns : list string)
| boardcreate (d : evData).

(* ------------------------------------------------------------------- *)
(** *** Column visibility *)
(* ------------------------------------------------------------------- *)

Definition visible_count (sts : list state) : nat :=
  List.length (filter isVisible sts).

(** The body of the [$.each(opt.states, function(i, v){...})] that builds
    the board columns: a fresh header and data element (no card, no hidden
    class), visible unless the index is past [maxColumnVisible - 1]. *)
Definition build_column (max : Z) (i : nat) (v : state) : state :=
  let v := set_visibility true false
             (set_dataEle [] (set_headerTotal 0 v)) in
  if (max - 1 <? Z.of_nat i)%Z then set_visibility false true v else v.

Fixpoint build_columns_from (max : Z) (i : nat) (sts : list state)
  : list state :=
  match sts with
  | [] => []
  | v :: rest => build_column max i v :: build_columns_from max (S i) rest
  end.

(** The start of the [then] callback of [showBoard]: the number of
    columns to display, then the build loop. *)
Definition build_columns (o : board) : board :=
  let o := if (Z.of_nat (List.length (states o)) <=? maxColumnVisible o)%Z
           then set_showNumberOfColumns (Z.of_nat (List.length (states o))) o
           else o in
  set_states (build_columns_from (maxColumnVisible o) 0 (states o)) o.

(** [opt.setBoardColumnClass(colCount)]: the class
    [spwidget-states-<n>] of the two containers follows
    [opt.showNumberOfColumns]. *)
Definition setBoardColumnClass (colCount : Z) (o : board) : board :=
  let colCount :=
    if ((colCount =? 0) || (colCount <? 2))%Z
    then Z.of_nat (visible_count (states o))
    else colCount in
  if (showNumberOfColumns o =? colCount)%Z then o
  else set_showNumberOfColumns colCount o.

(** [opt.triggerBoardColumnChangeEvent()] *)
Definition triggerBoardColumnChangeEvent (o : board) : list event :=
  if initDone o then
    [boardColumnChange
       (flat_map
          (fun kv : string * nat =>
             match nth_error (states o) (snd kv) with
             | Some defObj => if isVisible defObj then [title defObj] else []
             | None => []
             end)
          (JS.own_keys_order (statesMap o)))]
  else [].

(** The argument of [setUserDefinedVisibleCol]: nothing, a string or an
    array of column names. *)
Inductive colListArg : Type :=
| ArgUndefined
| ArgString (s : string)
| ArgArray (l : list string).

Definition isValidColumn (o : board) (colName : string) : bool :=
  existsb (fun st => String.eqb (title st) colName
                     || String.eqb (name st) colName)
          (states o).

(** The validation loop: counts the valid names and stops at two. *)
Fixpoint count_valid (o : board) (colList : list string) (count : Z) : Z :=
  match colList with
  | [] => count
  | col :: rest =>
      let count := if isValidColumn o col then (count + 1)%Z else count in
      if (count =? 2)%Z then count else count_valid o rest count
  end.

Definition show_col (colDef : state) : state :=
  if negb (isVisible colDef) then set_visibility true false colDef
  else colDef.

Definition hide_col (colDef : state) : state :=
  set_visibility false true colDef.

Definition in_colList (colList : list string) (colDef : state) : bool :=
  JS.inArray (title colDef) colList || JS.inArray (name colDef) colList.

(** The show/hide loop over [opt.states]; it returns the states and the
    final [count].  Leaving the loop early ([return false]) keeps the
    remaining states as they are. *)
Fixpoint visible_loop (colList : list string) (max : Z)
         (sts : list state) (count : Z) : list state * Z :=
  match sts with
  | [] => ([], count)
  | colDef :: rest =>
      let '(colDef', count') :=
        if in_colList colList colDef
        then (show_col colDef, (count + 1)%Z)
        else (hide_col colDef, count) in
      if (max <=? count')%Z then (colDef' :: rest, count')
      else
        let '(rest', n) := visible_loop colList max rest count' in
        (colDef' :: rest', n)
  end.

(** [opt.setUserDefinedVisibleCol(colList)] after its first guard: what
    the function does once [showAll] and the array [colList] are set. *)
Definition setUserDefinedVisibleCol_array (showAll : bool)
           (colList : list string) (o : board)
  : board * list event * JS.value :=
  if (List.length colList <? 2)%nat then (o, [], JS.VUndefined)
  else
    let count := if negb showAll then count_valid o colList 0 else 0%Z in
    let count := 0%Z in
    let '(sts, count) :=
      visible_loop colList (maxColumnVisible o) (states o) count in
    let o := set_states sts o in
    let o := setBoardColumnClass count o in
    (o, triggerBoardColumnChangeEvent o, JS.VUndefined).

(** [opt.setUserDefinedVisibleCol(colList)]; every path ends in a bare
    [return;]. *)
Definition setUserDefinedVisibleCol (colList : colListArg) (o : board)
  : board * list event * JS.value :=
  match colList with
  | ArgUndefined => (o, [], JS.VUndefined)
  | ArgString s =>
      if String.eqb s "" then (o, [], JS.VUndefined)
      else if negb (String.eqb (JS.toLowerCase s) "all")
      then (o, [], JS.VUndefined)
      else setUserDefinedVisibleCol_array true [] o
  | ArgArray [] => setUserDefinedVisibleCol_array true [] o
  | ArgArray l => setUserDefinedVisibleCol_array false l o
  end.

(* ------------------------------------------------------------------- *)
(** *** [showItemsOnBoard] *)
(* ------------------------------------------------------------------- *)

(** [thisOpt], the options of one call. *)
Record showOptions : Type := {
  rows : list row;
  refresh : bool;
  doBoardInsert : bool
}.

(** The call of the [then] callback of [showBoard]: [opt.showItemsOnBoard()] *)
Definition full_mode (o : board) : showOptions :=
  {| rows := listItems o; refresh := false; doBoardInsert := true |}.

(** The call of the [refresh] method:
    [board.showItemsOnBoard({ refresh: true })] *)
Definition refresh_mode (o : board) : showOptions :=
  {| rows := listItems o; refresh := true; doBoardInsert := true |}.

(** [thisListRow[opt.field] || ""] *)
Definition row_state (r : row) : string :=
  match fieldValue r with
  | Some v => v
  | None => ""
  end.

Definition has_id (id : string) (c : card) : bool :=
  String.eqb (data_id c) id.

Definition map_cards (f : card -> card) (sts : list state) : list state :=
  map (fun s => set_dataEle (map f (dataEle s)) s) sts.

Definition all_cards (sts : list state) : list card :=
  flat_map dataEle sts.

(** [opt.statesCntr.find("div[data-id='" + id + "']")], in document
    order *)
Definition find_items (id : string) (sts : list state) : list card :=
  filter (has_id id) (all_cards sts).

(** [boardItemCntr.closest("div.spwidget-board-state")]: the column of the
    first matched card; the answer is its [data-boardstate] attribute. *)
Fixpoint closest_boardstate (id : string) (sts : list state)
  : option string :=
  match sts with
  | [] => None
  | s :: rest =>
      if existsb (has_id id) (dataEle s) then Some (name s)
      else closest_boardstate id rest
  end.

Definition set_temp (b : bool) (c : card) : card :=
  {| data_id := data_id c; spwidget_temp := b; html := html c |}.

Definition set_html (h : string) (c : card) : card :=
  {| data_id := data_id c; spwidget_temp := spwidget_temp c; html := h |}.

Definition on_items (id : string) (f : card -> card) (c : card) : card :=
  if has_id id c then f c else c.

(** Taking the matched cards out of their columns. *)
Definition detach (id : string) (sts : list state) : list state :=
  map (fun s => set_dataEle (filter (fun c => negb (has_id id c)) (dataEle s)) s)
      sts.

(** [opt.states[i].dataEle.append(cards)] *)
Fixpoint append_at (i : nat) (cards : list card) (sts : list state)
  : list state :=
  match sts, i with
  | [], _ => []
  | s :: rest, O => set_dataEle (dataEle s ++ cards) s :: rest
  | s :: rest, S j => s :: append_at j cards rest
  end.

(** [boardItemCntr.appendTo(opt.statesMap[thisRowState].dataEle)]: the
    matched cards leave their place and become the last children of the
    target column. *)
Definition appendTo (id : string) (target : nat) (sts : list state)
  : list state :=
  append_at target (find_items id sts) (detach id sts).

(** [itemsForBoard]: for each state value, the new cards to insert (own
    properties, in the order of their creation; the test
    [itemsForBoard[thisRowState] === undefined] is the lookup among them
    for every state but the names of [JS.Object_prototype], see
    [process_row]). *)
Definition itemsForBoardT : Type := list (string * list card).

Fixpoint ifb_add (k : string) (c : card) (m : itemsForBoardT)
  : itemsForBoardT :=
  match m with
  | [] => [(k, [c])]
  | (k', cs) :: rest =>
      if String.eqb k k' then (k', cs ++ [c]) :: rest
      else (k', cs) :: ifb_add k c rest
  end.

(** The local variables of one call that the loop over the rows updates,
    together with the columns it works on. *)
Record locals : Type := {
  l_states : list state;
  newItems : list row;
  chgItems : list row;
  itemsForBoard : itemsForBoardT
}.

Section Reconcile.

(** [opt.template], applied as [createNewItem] applies it: to the row
    and to the cards already on the board for it, if any.  A string
    template is filled by [fillTemplate] from the row alone; a function
    template is taken to answer a string.  The result is the new content;
    only the empty string means that there is nothing to show. *)
Variable template : row -> option (list card) -> string.

(** jQuery's [.data()] reading of a [data-*] attribute: the attribute
    string converted to the value it spells. *)
Variable jq_data : string -> JS.value.

(** [opt.getBoardItemDataObject(itemId)] *)
Definition getBoardItemDataObject (o : board) (itemId : JS.value)
  : option row :=
  if JS.truthy itemId then
    find (fun r => String.eqb (JS.to_String itemId) (ID r)) (listItems o)
  else None.

(** [if (opt.initDone) newItems.push(thisListRow); createNewItem(thisListRow)] *)
Definition add_item (o : board) (thisOpt : showOptions) (r : row)
           (l : locals) : locals :=
  let newItem := template r None in
  {| l_states := l_states l;
     newItems := if initDone o then newItems l ++ [r] else newItems l;
     chgItems := chgItems l;
     itemsForBoard :=
       if String.eqb newItem "" then itemsForBoard l
       else ifb_add (row_state r)
              {| data_id := ID r;
                 spwidget_temp := initDone o && refresh thisOpt;
                 html := newItem |}
              (itemsForBoard l) |}.

(** The branch of the loop for a row found on the board. *)
Definition update_item (r : row) (target : nat) (l : locals) : locals :=
  let thisRowState := row_state r in
  let thisRowID := ID r in
  let sts := map_cards (on_items thisRowID (set_temp true)) (l_states l) in
  let moved :=
    match closest_boardstate thisRowID sts with
    | Some nm => negb (JS.strict_eq_str (jq_data nm) thisRowState)
    | None => true
    end in
  let sts := if moved then appendTo thisRowID target sts else sts in
  let newItem := template r (Some (find_items thisRowID sts)) in
  let sts := if String.eqb newItem "" then sts
             else map_cards (on_items thisRowID (set_html newItem)) sts in
  {| l_states := sts;
     newItems := newItems l;
     chgItems := if moved then chgItems l ++ [r] else chgItems l;
     itemsForBoard := itemsForBoard l |}.

(** The body of the loop over [thisOpt.rows].  The test
    [if (opt.statesMap[thisRowState])] is modelled as the lookup among
    the own properties of the map.  The code agrees with it for every
    state but the names of [JS.Object_prototype]: for one of those the
    test passes on the inherited member, which is no column, and the
    insertion that follows fails on it.  [Notions.plain_rows] says that
    no row carries such a state. *)
Definition process_row (o : board) (thisOpt : showOptions) (r : row)
           (l : locals) : locals :=
  match smap_get (row_state r) (statesMap o) with
  | None => l
  | Some target =>
      if negb (refresh thisOpt) then add_item o thisOpt r l
      else
        match find_items (ID r) (l_states l) with
        | [] => add_item o thisOpt r l
        | _ :: _ => update_item r target l
        end
  end.

Definition rows_loop (o : board) (thisOpt : showOptions)
           (rws : list row) (l : locals) : locals :=
  fold_left (fun l r => process_row o thisOpt r l) rws l.

(** [for (x in itemsForBoard) opt.statesMap[x].dataEle.append(itemsForBoard[x])],
    the keys taken in the order in which [for..in] visits them
    ([JS.own_keys_order]); every key of [itemsForBoard] passed the test of
    [process_row]. *)
Definition insert_items (o : board) (ifb : itemsForBoardT)
           (sts : list state) : list state :=
  fold_left
    (fun sts kv =>
       match smap_get (fst kv) (statesMap o) with
       | Some i => append_at i (snd kv) sts
       | None => sts
       end)
    (JS.own_keys_order ifb) sts.

(** The cards without the marker class, in document order. *)
Definition stale_items (sts : list state) : list card :=
  filter (fun c => negb (spwidget_temp c)) (all_cards sts).

(** The removal step: every card without the marker class is pushed on
    [delItems] (through its data object) and removed; the marker class
    is then taken off every card. *)
Definition remove_stale (o : board) (sts : list state)
  : list state * list (option row) :=
  (map (fun s =>
          set_dataEle (map (set_temp false)
                           (filter spwidget_temp (dataEle s))) s) sts,
   map (fun c => getBoardItemDataObject o (jq_data (data_id c)))
       (stale_items sts)).

Definition non_empty {A : Type} (l : list A) : bool :=
  match l with
  | [] => false
  | _ :: _ => true
  end.

(** [opt.getEventObject(uiItemEle)].  The item is given by the two
    attributes the function reads: its own [data-id] and the
    [data-boardstate] of the column around it; without an item the
    function takes the first card of the board. *)
Definition getEventObject (o : board) (uiItemEle : option (string * option string))
  : evData :=
  let uiItemEle :=
    match uiItemEle with
    | Some it => Some it
    | None =>
        match all_cards (states o) with
        | c :: _ => Some (data_id c, closest_boardstate (data_id c) (states o))
        | [] => None
        end
    end in
  {| stateTotals :=
       fold_left (fun m s => smap_set (name s) (headerTotal s) m)
                 (states o) [];
     itemTotal := fold_left (fun n s => n + headerTotal s) (states o) 0;
     currentState :=
       match uiItemEle with
       | Some (_, Some nm) => jq_data nm
       | _ => JS.VUndefined
       end;
     itemObj :=
       match uiItemEle with
       | Some (id, _) => getBoardItemDataObject o (jq_data id)
       | None => None
       end;
     itemsModified := [];
     updates := None |}.

(** The three [ele.trigger] of the pass.  [evData] is the one object of
    the pass; its array [itemsModified] is emptied and refilled before
    each event. *)
Definition trigger_events (evData0 : evData) (newIt : list row)
           (delIt : list (option row)) (chgIt : list row) : list event :=
  let evs : list event := [] in
  let evData := evData0 in
  let '(evData, evs) :=
    if non_empty newIt
    then let evData := set_itemsModified [] evData in
         let evData :=
           set_itemsModified (itemsModified evData ++ [EArr (map Some newIt)])
                             evData in
         (evData, evs ++ [boarditemadd evData])
    else (evData, evs) in
  let '(evData, evs) :=
    if non_empty delIt
    then let evData := set_itemsModified [] evData in
         let evData :=
           set_itemsModified (itemsModified evData ++ [EArr delIt]) evData in
         (evData, evs ++ [boarditemremove evData])
    else (evData, evs) in
  let evData := set_itemsModified [] evData in
  let evData :=
    set_itemsModified (itemsModified evData ++ map EItem (map Some newIt))
                      evData in
  let evData :=
    set_itemsModified (itemsModified evData ++ map EItem delIt) evData in
  let evData :=
    set_itemsModified (itemsModified evData ++ map EItem (map Some chgIt))
                      evData in
  if non_empty (itemsModified evData) then evs ++ [boardchange evData]
  else evs.

(** [opt.updBoardHeaders()] *)
Definition updBoardHeaders (sts : list state) : list state :=
  map (fun s => set_headerTotal (List.length (dataEle s)) s) sts.

(** What one call leaves behind: the instance, the events triggered, the
    three classification arrays and the returned [itemsForBoard]. *)
Record passResult : Type := {
  r_board : board;
  r_events : list event;
  r_added : list row;
  r_removed : list (option row);
  r_moved : list row;
  r_itemsForBoard : itemsForBoardT
}.

(** [opt.showItemsOnBoard(options)] *)
Definition showItemsOnBoard (thisOpt : showOptions) (o : board)
  : passResult :=
  let sts := states o in
  let sts := if negb (refresh thisOpt)
             then map (fun s => set_dataEle [] (set_headerTotal 0 s)) sts
             else sts in
  let l := rows_loop o thisOpt (rows thisOpt)
             {| l_states := sts; newItems := []; chgItems := [];
                itemsForBoard := [] |} in
  let sts := l_states l in
  let sts := if doBoardInsert thisOpt
             then insert_items o (itemsForBoard l) sts else sts in
  let '(sts, delItems) :=
    if initDone o && refresh thisOpt then remove_stale o sts
    else (sts, []) in
  let evs := if initDone o
             then trigger_events (getEventObject (set_states sts o) None)
                                 (newItems l) delItems (chgItems l)
             else [] in
  let sts := updBoardHeaders sts in
  {| r_board := set_states sts o;
     r_events := evs;
     r_added := newItems l;
     r_removed := delItems;
     r_moved := chgItems l;
     r_itemsForBoard := itemsForBoard l |}.

End Reconcile.

(* ------------------------------------------------------------------- *)
(** *** The [sortreceive] handlers: a card dropped on a column *)
(* ------------------------------------------------------------------- *)

Section MoveSynchronizer.

Variable jq_data : string -> JS.value.

(** The raw response of [updateListItems] and what the helpers
    [doesMsgHaveError], [getMsgError] and [getNodesFromXml] (nodes
    [z:row]) read from it. *)
Variable XData : Type.
Variable Node : Type.
Variable doesMsgHaveError : XData -> bool.
Variable getMsgError : XData -> string.
Variable getNodesFromXml : XData -> list Node.

(** [opt.onPreUpdate], when it is a function: called with the data
    object, it answers a value and leaves [evData.updates] as it wants
    it. *)
Definition preUpdateHook : Type :=
  evData -> JS.value * list (string * JS.value).

(** What a drag move does to the outside. *)
Inductive effect : Type :=
| updateListItems (itemId : option string)
                  (valuepairs : list (string * JS.value))
| trigger_boardchange (d : evData)
| resolveWith (newItemObj : option Node) (oldItemObj : option row)
              (xData : XData)
| rejectWith (msg : string) (xData : XData) (status : string).

(** The data object of the move as the second handler prepares it:
    [updates] starts with the update of the board field to the state
    of the column that received the card. *)
Definition moveIntent (o : board) (ui_item : string * option string)
  : evData :=
  let evData := getEventObject jq_data o (Some ui_item) in
  let evData := set_updates [] evData in
  set_updates [(field o, currentState evData)] evData.

(** The two handlers bound to [sortreceive], run on the board as the
    drop left it.  The first refreshes the header totals; the second
    answers the effects and, when the update was issued, the data
    object its [completefunc] closes over. *)
Definition sortreceive (onPreUpdate : option preUpdateHook)
           (ui_item : string * option string) (o : board)
  : board * list effect * option evData :=
  let o := set_states (updBoardHeaders (states o)) o in
  let evData := moveIntent o ui_item in
  let itemId := option_map ID (itemObj evData) in
  let '(cancel, evData) :=
    match onPreUpdate with
    | Some hook =>
        let '(answer, upd) := hook evData in
        (JS.strict_eq_true answer, set_updates upd evData)
    | None => (false, evData)
    end in
  if cancel then (o, [], None)
  else
    match updates evData with
    | Some ((_ :: _) as valuepairs) =>
        (o, [updateListItems itemId valuepairs], Some evData)
    | _ => (o, [], None)
    end.

(** [completefunc(xData, status)] of the update. *)
Definition completefunc (evData : evData) (xData : XData)
           (status : string) : list effect :=
  if String.eqb status "error" then
    [rejectWith "Communications Error!" xData status]
  else if doesMsgHaveError xData then
    [rejectWith (getMsgError xData) xData status]
  else
    let row := getNodesFromXml xData in
    [trigger_boardchange evData;
     resolveWith (hd_error row) (itemObj evData) xData].

(** A whole gesture: the drop, then the answer of the server if the
    update was issued. *)
Definition drag_move (onPreUpdate : option preUpdateHook)
           (ui_item : string * option string)
           (answer : XData * string) (o : board)
  : board * list effect :=
  match sortreceive onPreUpdate ui_item o with
  | (o', effs, Some evData) =>
      (o', effs ++ completefunc evData (fst answer) (snd answer))
  | (o', effs, None) => (o', effs)
  end.

End MoveSynchronizer.

(* ------------------------------------------------------------------- *)
(** *** Initialization and methods *)
(* ------------------------------------------------------------------- *)

Section Widget.

Variable template : row -> option (list card) -> string.
Variable jq_data : string -> JS.value.

(** The [then] callback of [getBoardStates] up to the fetch of the
    items: the columns are built, and the columns asked for in
    [colPickerVisible] are made the visible ones. *)
Definition init_columns (o : board) : board :=
  let o := build_columns o in
  match colPickerVisible o with
  | [] => o
  | l => fst (fst (setUserDefinedVisibleCol (ArgArray l) o))
  end.

(** The [then] callback of [_getListItems]: the first display of the
    items, after which [initDone] is set and [spwidget:boardcreate] is
    triggered. *)
Definition init_items (items : list row) (o : board) : board * list event :=
  let o := set_listItems items o in
  let res := showItemsOnBoard template jq_data (full_mode o) o in
  let o := set_initDone true (r_board res) in
  (o, r_events res ++ [boardcreate (getEventObject jq_data o None)]).

(** [showBoard] from the options to the created board; there is no
    board without a field, nor when [getBoardStates] is rejected. *)
Definition showBoard (user : options) (cols : remote (option listColumn))
           (lookupList : remote (list lookupRow)) (items : list row)
  : option (board * list event) :=
  if String.eqb (o_field user) "" then None
  else
    match getBoardStates cols lookupList (new_board user) with
    | Resolved o => Some (init_items items (init_columns o))
    | Rejected _ _ => None
    end.

(** The method [refresh]: the items are fetched again and shown with
    [{ refresh: true }]. *)
Definition method_refresh (items : list row) (o : board) : passResult :=
  let o := set_listItems items o in
  showItemsOnBoard template jq_data (refresh_mode o) o.

(** The method [setVisible]: [board.setUserDefinedVisibleCol(args[1])];
    the result of the call is dropped. *)
Definition method_setVisible (colList : colListArg) (o : board)
  : board * list event :=
  fst (setUserDefinedVisibleCol colList o).

(** The method [getColumns]: [opt.getBoardColumnList()] *)
Definition getBoardColumnList (o : board) : list (string * string * bool) :=
  map (fun s => (name s, title s, isVisible s)) (states o).

End Widget.

End Board.

(* ===================================================================== *)
(** ** The column picker: [opt.setupColumnPicker] *)
(* ===================================================================== *)

Module ColumnPicker.
Import Board.

(** An anchor of the column list,
    [<a data-board_col_index=".." data-board_col_name="..">].  The class
    [ui-state-highlight] of the anchor and the class [ui-icon-check] of
    its icon are added and removed together; [highlight] stands for
    both. *)
Record anchor : Type := {
  board_col_index : nat;
  board_col_name : string;
  highlight : bool
}.

Definition set_highlight (b : bool) (a : anchor) : anchor :=
  {| board_col_index := board_col_index a;
     board_col_name := board_col_name a;
     highlight := b |}.

(** The picker: the anchors of [$colList] in document order, what
    [$totalCntr] shows (nothing before the first [setTotalSelected]),
    whether [$colCntr] is displayed, and the messages put in the
    footer. *)
Record picker : Type := {
  anchors : list anchor;
  totalCntr : option nat;
  cntrVisible : bool;
  messages : list string
}.

Definition set_anchors (l : list anchor) (p : picker) : picker :=
  {| anchors := l; totalCntr := totalCntr p;
     cntrVisible := cntrVisible p; messages := messages p |}.

Definition set_totalCntr (n : nat) (p : picker) : picker :=
  {| anchors := anchors p; totalCntr := Some n;
     cntrVisible := cntrVisible p; messages := messages p |}.

Definition set_cntrVisible (b : bool) (p : picker) : picker :=
  {| anchors := anchors p; totalCntr := totalCntr p;
     cntrVisible := b; messages := messages p |}.

(** The column choices of the popup: one anchor for each state, in the
    order of [opt.states], none selected. *)
Fixpoint anchors_from (i : nat) (sts : list state) : list anchor :=
  match sts with
  | [] => []
  | colDef :: rest =>
      {| board_col_index := i; board_col_name := name colDef;
         highlight := false |} :: anchors_from (S i) rest
  end.

(** The picker as [setupColumnPicker] leaves it; whether the container
    is displayed then is a matter of the style sheet. *)
Definition setupColumnPicker (displayed : bool) (o : board) : picker :=
  {| anchors := anchors_from 0 (states o); totalCntr := None;
     cntrVisible := displayed; messages := [] |}.

(** [Picker.getSelected()] *)
Definition getSelected (p : picker) : list anchor :=
  filter highlight (anchors p).

(** [Picker.setTotalSelected()] *)
Definition setTotalSelected (p : picker) : picker * nat :=
  let total := List.length (getSelected p) in
  (set_totalCntr total p, total).

(** [Picker.showMessage(msg)] (the message fades out by itself). *)
Definition showMessage (msg : string) (p : picker) : picker :=
  {| anchors := anchors p; totalCntr := totalCntr p;
     cntrVisible := cntrVisible p; messages := messages p ++ [msg] |}.

(** [unSelect !== false] *)
Definition strict_neq_false (v : JS.value) : bool :=
  match v with
  | JS.VBool false => false
  | _ => true
  end.

(** The body of the [each] of [Picker.selectColumn], on one anchor. *)
Definition selectColumn1 (unSelect : JS.value) (a : anchor) : anchor :=
  if highlight a || JS.truthy unSelect
  then if strict_neq_false unSelect then set_highlight false a else a
  else set_highlight true a.

(** [Picker.selectColumn(colEle, unSelect)]; the set [colEle] is given
    by the anchors it holds. *)
Definition selectColumn (colEle : anchor -> bool) (unSelect : JS.value)
           (p : picker) : picker :=
  set_anchors
    (map (fun a => if colEle a then selectColumn1 unSelect a else a)
         (anchors p))
    p.

(** [$columns.filter("[data-board_col_index='" + i + "']")] *)
Definition with_index (i : nat) (a : anchor) : bool :=
  (board_col_index a =? i)%nat.

(** The [$.each(opt.states, ...)] of [Picker.setSelected], from index
    [i] on. *)
Fixpoint setSelected_from (i : nat) (sts : list state) (p : picker)
  : picker :=
  match sts with
  | [] => p
  | colDef :: rest =>
      let p := if isVisible colDef
               then selectColumn (with_index i) (JS.VBool false) p
               else selectColumn (with_index i) (JS.VBool true) p in
      setSelected_from (S i) rest p
  end.

(** [Picker.setSelected()] *)
Definition setSelected (o : board) (p : picker) : picker :=
  fst (setTotalSelected (setSelected_from 0 (states o) p)).

(** The [$.each(opt.states, ...)] of [Picker.setVisibleColumns], from
    index [i] on. *)
Fixpoint visible_from (selected : list anchor) (i : nat)
         (sts : list state) : list state :=
  match sts with
  | [] => []
  | colDef :: rest =>
      (if non_empty (filter (with_index i) selected)
       then show_col colDef
       else hide_col colDef)
        :: visible_from selected (S i) rest
  end.

(** [Picker.setVisibleColumns($selected)] *)
Definition setVisibleColumns (selected : option (list anchor))
           (p : picker) (o : board) : board :=
  let selected := match selected with
                  | Some sel => sel
                  | None => getSelected p
                  end in
  let colNum := Z.of_nat (List.length selected) in
  let o := set_states (visible_from selected 0 (states o)) o in
  setBoardColumnClass colNum o.

(** The loop of [Picker.setUserDefinedVisibleCol] that builds the
    selector: for each name of the list, the first state of that title
    gives one more [a[data-board_col_name='..']]; the loop ends when
    [maxColumnVisible] of them are counted. *)
Fixpoint selector_loop (sts : list state) (max : Z)
         (colList : list string) (count : Z) (selector : list string)
  : Z * list string :=
  match colList with
  | [] => (count, selector)
  | columnName :: rest =>
      let '(count, selector) :=
        match find (fun st => String.eqb (title st) columnName) sts with
        | Some st => ((count + 1)%Z, selector ++ [name st])
        | None => (count, selector)
        end in
      if (max <=? count)%Z then (count, selector)
      else selector_loop sts max rest count selector
  end.

(** [$colList.find(selector)]: the anchors whose name is one of the
    selector (names are taken to need no escaping in a selector). *)
Definition find_by_name (selector : list string) (p : picker)
  : list anchor :=
  filter (fun a => JS.inArray (board_col_name a) selector) (anchors p).

(** [Picker.setUserDefinedVisibleCol(colList)] *)
Definition setUserDefinedVisibleCol (colList : colListArg) (p : picker)
           (o : board) : board * list event :=
  let run (colList : list string) :=
    let '(count, selector) :=
      selector_loop (states o) (maxColumnVisible o) colList 0 [] in
    if (2 <=? count)%Z
    then let o := setVisibleColumns (Some (find_by_name selector p)) p o in
         (o, triggerBoardColumnChangeEvent o)
    else (o, []) in
  match colList with
  | ArgUndefined => (o, [])
  | ArgString s =>
      if negb (String.eqb (JS.toLowerCase s) "all") then (o, [])
      else run (map title (states o))
  | ArgArray [] => run (map title (states o))
  | ArgArray l => run l
  end.

(** The click on the button [apply]. *)
Definition click_apply (colPickerMaxColMsg colPickerMinColMsg : string)
           (p : picker) (o : board) : picker * board * list event :=
  let selected := getSelected p in
  let colNum := Z.of_nat (List.length selected) in
  if (maxColumnVisible o <? colNum)%Z
  then (showMessage colPickerMaxColMsg p, o, [])
  else if (colNum <? 2)%Z
  then (showMessage colPickerMinColMsg p, o, [])
  else
    let p := set_cntrVisible false p in
    let o := setVisibleColumns (Some selected) p o in
    (p, o, triggerBoardColumnChangeEvent o).

(** The click on the button [check]. *)
Definition click_check (p : picker) : picker :=
  let sel := getSelected p in
  let p := if non_empty sel
           then selectColumn highlight (JS.VBool true) p
           else selectColumn (fun _ => true) JS.VUndefined p in
  fst (setTotalSelected p).

(** The click on the button [close]. *)
Definition click_close (p : picker) : picker :=
  set_cntrVisible false p.

(** The click on the button of the columns. *)
Definition click_columns (o : board) (p : picker) : picker :=
  if cntrVisible p then set_cntrVisible false p
  else set_cntrVisible true (setSelected o p).

(** The click on the anchor of index [i]. *)
Definition click_anchor (i : nat) (p : picker) : picker :=
  fst (setTotalSelected (selectColumn (with_index i) JS.VUndefined p)).

End ColumnPicker.

(* ===================================================================== *)
(** ** The urls of the list forms: [opt.getListFormUrl] *)
(* ===================================================================== *)

Module ListForms.

(** A [Form] node of the response of [getListFormCollection], by the two
    attributes read from it ([undefined] when the attribute is
    missing). *)
Record formNode : Type := {
  attr_Type : JS.value;
  attr_Url : JS.value
}.

(** [opt.formUrls], once it is an object: from a form type in lower case
    to a url (own properties, in insertion order).  The object is created
    by [{}], so that it inherits the members of [Object.prototype]. *)
Definition formUrlsT : Type := list (string * string).

Fixpoint urls_get (k : string) (m : formUrlsT) : option string :=
  match m with
  | [] => None
  | (k', v) :: rest => if String.eqb k k' then Some v else urls_get k rest
  end.

Fixpoint urls_set (k v : string) (m : formUrlsT) : formUrlsT :=
  match m with
  | [] => [(k, v)]
  | (k', v') :: rest =>
      if String.eqb k k' then (k, v) :: rest
      else (k', v') :: urls_set k v rest
  end.

(** The part of [opt] the function reads and writes; [formUrls] is
    [null] until the first call. *)
Record forms : Type := {
  webURL : string;
  formUrls : option formUrlsT
}.

(** The key and the value [completefunc] stores for a node. *)
Definition form_key (f : formNode) : string :=
  JS.toLowerCase (JS.to_String (attr_Type f)).

Definition form_url (webURL : string) (f : formNode) : string :=
  (webURL ++ "/" ++ JS.to_String (attr_Url f))%string.

(** [opt.formUrls[key] = url].  The assignment creates or overwrites an
    own property, but for the key [__proto__]: that one goes to the
    setter inherited from [Object.prototype], which ignores a value that
    is no object, and no own property is created. *)
Definition store (k v : string) (m : formUrlsT) : formUrlsT :=
  if String.eqb k "__proto__" then m else urls_set k v m.

(** [loadFormCollection()]: the request is synchronous, and its
    [completefunc] stores one url for each [Form] node of the response. *)
Definition loadFormCollection (webURL : string) (response : list formNode)
           (m : formUrlsT) : formUrlsT :=
  fold_left (fun m f => store (form_key f) (form_url webURL f) m)
            response m.

(** What [opt.formUrls[type] || ""] evaluates to: a string, or, for a
    name that the object does not own but inherits from
    [Object.prototype], the inherited member (a function or an object,
    hence truthy). *)
Inductive answer : Type :=
| Url (url : string)
| Inherited (member : string).

(** [opt.getListFormUrl(type)], given the nodes the service would
    answer; the result comes with the instance and with whether the
    service was called. *)
Definition getListFormUrl (type : JS.value) (response : list formNode)
           (st : forms) : forms * answer * bool :=
  let type := JS.toLowerCase (JS.to_String type) in
  let '(st, requested) :=
    match formUrls st with
    | None =>
        ({| webURL := webURL st;
            formUrls := Some (loadFormCollection (webURL st) response []) |},
         true)
    | Some _ => (st, false)
    end in
  (st,
   match formUrls st with
   | Some m =>
       match urls_get type m with
       | Some url => if String.eqb url "" then Url "" else Url url
       | None => if JS.inherited type then Inherited type else Url ""
       end
   | None => Url ""
   end,
   requested).

End ListForms.

(* ===================================================================== *)
(** ** Notions used to state the properties *)
(* ===================================================================== *)

Module Notions.
Import Board.

(** Whether the instance ends up with a required state: the override of
    [allowFieldBlanks] wins over the definition of the field. *)
Definition required_after (user : options) (f : listColumn) : bool :=
  match o_allowFieldBlanks user with
  | Some b => negb b
  | None => String.eqb (f_Required f) "TRUE"
  end.

(** The number of entries of an array argument; anything else has none. *)
Definition entries (arg : colListArg) : nat :=
  match arg with
  | ArgArray l => List.length l
  | _ => 0
  end.

(** The columns an array of names designates. *)
Definition matched (colList : list string) (sts : list state) : list state :=
  filter (in_colList colList) sts.

Definition apply_colList (colList : list string) (colDef : state) : state :=
  if in_colList colList colDef then show_col colDef else hide_col colDef.

(** The length of the shortest prefix of the columns that holds [k]
    columns named by the list, or of all the columns when fewer than [k]
    are named: the columns the loop of [setUserDefinedVisibleCol] visits
    before it stops at the [k]-th one it shows. *)
Fixpoint cut (colList : list string) (k : nat) (sts : list state) : nat :=
  match sts with
  | [] => 0
  | s :: rest =>
      match k with
      | 0 => 0
      | S k' => S (cut colList (if in_colList colList s then k' else k) rest)
      end
  end.

(** Modelled on the words of the specification, to compare the code
    with: the first [maxVisible] entries of the input, in the order the
    caller gave them, that name a column. *)
Definition first_matches_in_input_order (o : board)
           (colList : list string) : list string :=
  firstn (Z.to_nat (maxColumnVisible o))
         (filter (isValidColumn o) colList).

(** The flat payload of the change event: the added, the removed and the
    moved rows, one after the other. *)
Definition flat_payload (added : list row) (removed : list (option row))
           (moved : list row) : list entry :=
  (map EItem (map Some added) ++ map EItem removed)
    ++ map EItem (map Some moved).

(** A card of the board carries the identifier [id]. *)
Definition on_board (id : string) (sts : list state) : bool :=
  existsb (has_id id) (all_cards sts).

(** The state of the row is a key of [opt.statesMap]. *)
Definition resolvable (o : board) (r : row) : bool :=
  match smap_get (row_state r) (statesMap o) with
  | Some _ => true
  | None => false
  end.

(** The row resolves to a column and carries the identifier [id]. *)
Definition hit (o : board) (r : row) (id : string) : bool :=
  resolvable o r && String.eqb (ID r) id.

Definition hit_by (o : board) (rws : list row) (id : string) : bool :=
  existsb (fun r => hit o r id) rws.

(** Every reference held by [opt.statesMap] is an element of
    [opt.states]. *)
Definition statesMap_in_range (o : board) : bool :=
  forallb (fun kv : string * nat => (snd kv <? List.length (states o))%nat)
          (statesMap o).

(** Moreover two keys never stand for the same state. *)
Definition distinct_refs (o : board) : Prop :=
  statesMap_in_range o = true /\ NoDup (map snd (statesMap o)).

(** No card carries the marker class (the board between two passes). *)
Definition no_temp (sts : list state) : bool :=
  forallb (fun c => negb (spwidget_temp c)) (all_cards sts).

(** The identifier and the marker of every card, in document order. *)
Definition key (c : card) : string * bool := (data_id c, spwidget_temp c).

Definition marks (sts : list state) : list (string * bool) :=
  map key (all_cards sts).

(** What a row does to the marker of a card. *)
Definition mark_by (o : board) (r : row) (m : string * bool)
  : string * bool :=
  (fst m, snd m || hit o r (fst m)).

Definition mark_by_all (o : board) (rws : list row) (m : string * bool)
  : string * bool :=
  (fst m, snd m || hit_by o rws (fst m)).

(** What the loop keeps true of the other local variables. *)
Definition locals_ok (o : board) (rws : list row) (l : locals) : Prop :=
  (forall r, In r (newItems l) -> resolvable o r = true)
  /\ (forall r, In r (chgItems l) -> resolvable o r = true)
  /\ (forall c, In c (flat_map snd (itemsForBoard l)) ->
                spwidget_temp c = initDone o
                /\ exists r, In r rws /\ hit o r (data_id c) = true).

(** The locals at the start of a pass in refresh mode. *)
Definition start (o : board) : locals :=
  {| l_states := states o; newItems := []; chgItems := [];
     itemsForBoard := [] |}.

(** No row carries a state that names a member inherited from
    [Object.prototype]: for every row, the test
    [if (opt.statesMap[thisRowState])] of the code is the lookup among the
    keys of the states map. *)
Definition plain_rows (rws : list row) : Prop :=
  forall r, In r rws -> JS.inherited (row_state r) = false.

(** A created board between two passes: the three conditions under which
    a refresh is analysed. *)
Definition ready (o : board) : Prop :=
  initDone o = true
  /\ statesMap_in_range o = true
  /\ no_temp (states o) = true.

End Notions.

(* ===================================================================== *)
(** ** Concrete boards *)
(* ===================================================================== *)

Module Fixtures.
Import Board.

(** A choice column [Status], optional, with three values. *)
Definition statusColumn : listColumn :=
  {| f_Name := "Status"; f_Required := "FALSE"; f_Type := "Choice";
     f_columnValues := ["Not Started"; "In Progress"; "Done"];
     f_List := ""; f_ShowField := "" |}.

(** A lookup column [Project], optional. *)
Definition projectColumn : listColumn :=
  {| f_Name := "Project"; f_Required := "FALSE"; f_Type := "Lookup";
     f_columnValues := []; f_List := "Projects"; f_ShowField := "Title" |}.

Definition projects : list lookupRow :=
  [ {| lk_ID := "1"; lk_show := "Alpha" |};
    {| lk_ID := "2"; lk_show := "Beta" |} ].

(** A required choice column with a single value. *)
Definition singleColumn : listColumn :=
  {| f_Name := "Phase"; f_Required := "TRUE"; f_Type := "Choice";
     f_columnValues := ["Open"]; f_List := ""; f_ShowField := "" |}.

(** A required choice column with twelve values. *)
Definition twelve : list string :=
  ["c01"; "c02"; "c03"; "c04"; "c05"; "c06";
   "c07"; "c08"; "c09"; "c10"; "c11"; "c12"].

Definition wideColumn : listColumn :=
  {| f_Name := "Step"; f_Required := "TRUE"; f_Type := "Choice";
     f_columnValues := twelve; f_List := ""; f_ShowField := "" |}.

(** A template that shows the title of the row, and a [.data()] that
    reads every attribute as the string it is. *)
Definition titleTemplate (r : row) (ui : option (list card)) : string :=
  Title r.

Definition plainData (attr : string) : JS.value := JS.VStr attr.

Definition item (id state ttl : string) : row :=
  {| ID := id; fieldValue := Some state; Title := ttl |}.

Definition created (user : options) (f : listColumn)
           (lk : list lookupRow) (items : list row) : board :=
  match showBoard titleTemplate plainData user
                  (Fetched (Some f)) (Fetched lk) items with
  | Some (o, _) => o
  | None => new_board user
  end.

(** The board of the [Status] column showing item 1 (no status) and
    item 2 ([Done]). *)
Definition statusBoard : board :=
  created (defaults "Status") statusColumn []
          [item "1" "" "one"; item "2" "Done" "two"].

Definition singleBoard : board :=
  created (defaults "Phase") singleColumn [] [].

Definition wideBoard : board :=
  created (defaults "Step") wideColumn [] [].

Definition visible_names (o : board) : list string :=
  map name (filter isVisible (states o)).

(** The [Status] board after the card of item 2 was dropped on the
    column [In Progress]. *)
Definition droppedBoard : board :=
  set_states (appendTo "2" 2 (states statusBoard)) statusBoard.

Definition droppedItem : string * option string :=
  ("2", Some "In Progress").

(** A server whose response is a string: ["<error/>"] carries an error,
    anything else is the updated row. *)
Definition hasError (xData : string) : bool := String.eqb xData "<error/>".
Definition errorText (xData : string) : string := "Validation failed".
Definition rowNodes (xData : string) : list string := [xData].

(** A hook that cancels every update. *)
Definition cancelAll (d : evData) : JS.value * list (string * JS.value) :=
  (JS.VBool true,
   match updates d with
   | Some u => u
   | None => []
   end).

(** A second fetch of the items: item 1 is gone, item 2 is now
    [In Progress], item 3 is new. *)
Definition secondFetch : list row :=
  [item "2" "In Progress" "two"; item "3" "Done" "three"].

(** A fetch where item 2 carries a state that is no column. *)
Definition strayFetch : list row :=
  [item "1" "" "one"; item "2" "Archived" "two"].

(** The refresh of the [Status] board with the second fetch: item 1 is
    removed, item 2 is moved, item 3 is added. *)
Definition refreshed : board :=
  set_listItems secondFetch statusBoard.

Definition secondPass : passResult :=
  showItemsOnBoard titleTemplate plainData
                   (refresh_mode refreshed) refreshed.

(** The refresh with a fetch in which item 2 carries a state that is no
    column. *)
Definition strayed : board :=
  set_listItems strayFetch statusBoard.

Definition strayPass : passResult :=
  showItemsOnBoard titleTemplate plainData
                   (refresh_mode strayed) strayed.

End Fixtures.

(* ===================================================================== *)
(** ** Further notions *)
(* ===================================================================== *)

Module MoreNotions.
Import Board Notions.

(** A value of a choice column goes through the filter. *)
Definition passes (filter : option (list string)) (v : string) : bool :=
  match filter with
  | Some fl => JS.inArray v fl
  | None => true
  end.

(** [opt.fieldFilter] as the choice branch reads it: nothing, or the
    pieces between the commas. *)
Definition choice_filter (user : options) : option (list string) :=
  match o_fieldFilter user with
  | Some s => if String.eqb s "" then None else Some (JS.split_comma s)
  | None => None
  end.

(** The internal name of the state of a lookup row. *)
Definition lookup_name (r : lookupRow) : string :=
  (lk_ID r ++ ";#" ++ lk_show r)%string.

(** The blank state, when the field is not required. *)
Definition blank_names (required : bool) (nm : string) : list string :=
  if required then [] else [nm].

(** The state a key of [opt.statesMap] stands for carries the key as its
    name, but for the key [""] of the blank state of a choice field, whose
    name is the label. *)
Definition keyed (label k : string) (s : state) : Prop :=
  name s = k \/ (k = "" /\ type s = choice /\ name s = label).

(** Every key of the map stands for a state that carries it. *)
Definition keys_sound (label : string) (o : board) : Prop :=
  forall k i,
    smap_get k (statesMap o) = Some i ->
    exists s, nth_error (states o) i = Some s /\ keyed label k s.

(** Every value of [vs] is a key, through its name [nm v], and stands
    for a state of that name. *)
Definition keys_complete (A : Type) (nm : A -> string) (vs : list A)
           (o : board) : Prop :=
  forall v, In v vs ->
    exists i s,
      smap_get (nm v) (statesMap o) = Some i
      /\ nth_error (states o) i = Some s
      /\ name s = nm v.

(** Pushing one state for each value, as both loops of [getBoardStates]
    do. *)
Definition push_all (A : Type) (nm : A -> string) (mk : A -> state)
           (vs : list A) (o : board) : board :=
  fold_left (fun o v => push_state (nm v) (mk v) o) vs o.

(** The hidden class of the elements of a column says what [isVisible]
    says. *)
Definition mirrors (sts : list state) : Prop :=
  forall s, In s sts -> cssHidden s = negb (isVisible s).

(** What a change of visibility leaves alone in a state. *)
Definition frame (s : state)
  : stateType * string * string * nat * list card :=
  (type s, title s, name s, headerTotal s, dataEle s).

(** What a pass over the items leaves alone in a state. *)
Definition view (s : state) : stateType * string * string * bool * bool :=
  (type s, title s, name s, isVisible s, cssHidden s).

(** The class [spwidget-states-<n>] of the containers counts the visible
    columns. *)
Definition layout_agrees (o : board) : Prop :=
  showNumberOfColumns o = Z.of_nat (visible_count (states o)).

(** The keys of the states map were created in the order of the states,
    one for each state. *)
Definition created_in_order (o : board) : Prop :=
  map snd (statesMap o) = seq 0 (List.length (states o)).

(** An enumeration of the states map ([$.each], [for..in]) meets the
    states in their order, each once. *)
Definition statesMap_in_order (o : board) : Prop :=
  map snd (JS.own_keys_order (statesMap o))
  = seq 0 (List.length (states o)).

(** Everything of a state but its cards. *)
Definition descr (s : state)
  : stateType * string * string * bool * bool * nat :=
  (type s, title s, name s, isVisible s, cssHidden s, headerTotal s).

(** The header of every column shows the number of its cards. *)
Definition headers_agree (sts : list state) : Prop :=
  forall s, In s sts -> headerTotal s = List.length (dataEle s).

(** The data object an event carries, if any. *)
Definition payload (ev : event) : option evData :=
  match ev with
  | boarditemadd d | boarditemremove d | boardchange d | boardcreate d =>
      Some d
  | boardColumnChange _ => None
  end.

(** The cards of column [i], as [dataEle] holds them. *)
Definition cards_at (sts : list state) (i : nat) : option (list card) :=
  option_map dataEle (nth_error sts i).

(** What [itemsForBoard] holds for the column [i]. *)
Definition col_cards (o : board) (ifb : itemsForBoardT) (i : nat)
  : list card :=
  flat_map (fun kv : string * list card =>
              match smap_get (fst kv) (statesMap o) with
              | Some j => if (j =? i)%nat then snd kv else []
              | None => []
              end)
           ifb.

(** The card a first display makes of a row. *)
Definition render (template : row -> option (list card) -> string)
           (r : row) : card :=
  {| data_id := ID r; spwidget_temp := false; html := template r None |}.

(** The row belongs in column [i] and its template gives something to
    show. *)
Definition renders_at (template : row -> option (list card) -> string)
           (o : board) (i : nat) (r : row) : bool :=
  match smap_get (row_state r) (statesMap o) with
  | Some j => (j =? i)%nat && negb (String.eqb (template r None) "")
  | None => false
  end.

(** The cards of the rows that belong in column [i], in the order of the
    rows. *)
Definition shown (template : row -> option (list card) -> string)
           (o : board) (rws : list row) (i : nat) : list card :=
  map (render template) (filter (renders_at template o i) rws).

(** What holds of a board from its creation on. *)
Definition well_formed (o : board) : Prop :=
  ready o
  /\ distinct_refs o
  /\ mirrors (states o)
  /\ headers_agree (states o).

(** The kinds of effect of a drag move. *)
Definition is_update {XData Node : Type} (e : effect XData Node) : bool :=
  match e with
  | @updateListItems _ _ _ _ => true
  | _ => false
  end.

Definition is_resolve {XData Node : Type} (e : effect XData Node) : bool :=
  match e with
  | @resolveWith _ _ _ _ _ => true
  | _ => false
  end.

Definition is_reject {XData Node : Type} (e : effect XData Node) : bool :=
  match e with
  | @rejectWith _ _ _ _ _ => true
  | _ => false
  end.

Definition is_change {XData Node : Type} (e : effect XData Node) : bool :=
  match e with
  | @trigger_boardchange _ _ _ => true
  | _ => false
  end.

Definition count {A : Type} (f : A -> bool) (l : list A) : nat :=
  List.length (filter f l).

(** The row is one a pass counts as new: its state is a key of the
    states map and, in a refresh, no card of the board carries its
    identifier. *)
Definition counted_new (o : board) (thisOpt : showOptions) (r : row)
  : bool :=
  resolvable o r
  && (negb (refresh thisOpt) || negb (on_board (ID r) (states o))).

(** The board as [getBoardStates] resolves it. *)
Definition resolved (r : statesResult) : option board :=
  match r with
  | Resolved o => Some o
  | Rejected _ _ => None
  end.

End MoreNotions.

Module PickerNotions.
Import Board ColumnPicker.

(** The anchors are those of the columns of the board: the anchor of
    rank [i] carries the index [i] and the name of the state of rank
    [i]. *)
Definition picker_of (o : board) (p : picker) : Prop :=
  map board_col_index (anchors p) = seq 0 (List.length (states o))
  /\ map board_col_name (anchors p) = map name (states o).

(** What the loop of [Picker.setSelected] over the states [sts], indexed
    from [k] on, makes of an anchor. *)
Definition settled (k : nat) (sts : list state) (a : anchor) : anchor :=
  match nth_error sts (board_col_index a - k) with
  | Some colDef =>
      if (k <=? board_col_index a)%nat
      then selectColumn1 (JS.VBool (negb (isVisible colDef))) a
      else a
  | None => a
  end.

(** For each name of the list that is the title of a state, the first
    state of that title, in the order of the list. *)
Definition titled (sts : list state) (colList : list string) : list state :=
  flat_map (fun columnName =>
              match find (fun st => String.eqb (title st) columnName) sts with
              | Some st => [st]
              | None => []
              end)
           colList.

(** The first [maxColumnVisible] of them. *)
Definition first_titled (o : board) (colList : list string) : list state :=
  firstn (Z.to_nat (maxColumnVisible o)) (titled (states o) colList).

End PickerNotions.

(* ===================================================================== *)
(** ** The field domain: [getBoardStates] *)
(* ===================================================================== *)

Module DomainFacts.
Import Board Notions.

Lemma set_field_states f o : states (set_field f o) = states o.
Proof. reflexivity. Qed.

(** The loops over the values only push at the end of [opt.states]. *)
Lemma choice_values_prefix filter vals :
  forall i o, exists tail,
    states (choice_values filter vals i o) = states o ++ tail.
Proof.
  induction vals as [|v vals IH]; intros i o; cbn [choice_values].
  - exists []. now rewrite app_nil_r.
  - destruct (match filter with
              | Some fl => negb (JS.inArray v fl)
              | None => false
              end).
    + apply IH.
    + destruct (maxColumns <=? i)%nat.
      * exists []. now rewrite app_nil_r.
      * destruct (IH (S i) (push_state v (mkState choice v v) o))
          as [tail Ht].
        exists (mkState choice v v :: tail).
        rewrite Ht. simpl. now rewrite <- app_assoc.
Qed.

Lemma lookup_rows_prefix rws :
  forall i o, exists tail,
    states (lookup_rows rws i o) = states o ++ tail.
Proof.
  induction rws as [|r rws IH]; intros i o; cbn [lookup_rows].
  - exists []. now rewrite app_nil_r.
  - destruct (maxColumns <=? i)%nat.
    + exists []. now rewrite app_nil_r.
    + match goal with
      | |- context [lookup_rows rws (S i) ?o'] =>
          destruct (IH (S i) o') as [tail Ht]; rewrite Ht
      end.
      simpl. rewrite <- app_assoc. simpl. eauto.
Qed.

Lemma note_field_new_board user f :
  let o := note_field f (new_board user) in
  isStateRequired o = required_after user f
  /\ states o = [] /\ statesMap o = []
  /\ optionalLabel o = o_optionalLabel user.
Proof.
  unfold note_field, required_after.
  destruct (String.eqb (f_Required f) "TRUE"); cbn;
    destruct (o_allowFieldBlanks user) as [b|]; cbn; auto.
Qed.

(** For a lookup field that is not required, the first state is the
    blank one and its internal name is the empty string. *)
Lemma lookup_blank_state user f rws :
  JS.toLowerCase (f_Type f) = "lookup" ->
  required_after user f = false ->
  exists o tail,
    getBoardStates (Fetched (Some f)) (Fetched rws) (new_board user)
    = Resolved o
    /\ states o = mkState lookup (o_optionalLabel user) "" :: tail.
Proof.
  intros Hty Hreq. unfold getBoardStates.
  destruct (note_field_new_board user f) as (Hr & Hs & _ & Hl).
  rewrite Hty. cbn [String.eqb Ascii.eqb Bool.eqb].
  rewrite Hr, Hreq. cbn [negb].
  match goal with
  | |- context [lookup_rows rws 0 ?o'] =>
      destruct (lookup_rows_prefix rws 0 o') as [tail Ht]
  end.
  eexists. exists tail. split; [reflexivity|].
  rewrite Ht. unfold push_state. cbn [states set_states set_statesMap].
  rewrite Hs, Hl. reflexivity.
Qed.

(** For a choice field that is not required, the first state is the
    blank one too, but its internal name is the label. *)
Lemma choice_blank_state user f lk :
  JS.toLowerCase (f_Type f) = "choice" ->
  required_after user f = false ->
  exists o tail,
    getBoardStates (Fetched (Some f)) lk (new_board user) = Resolved o
    /\ states o
       = mkState choice (o_optionalLabel user) (o_optionalLabel user)
           :: tail.
Proof.
  intros Hty Hreq. unfold getBoardStates.
  destruct (note_field_new_board user f) as (Hr & Hs & _ & Hl).
  rewrite Hty. cbn [String.eqb Ascii.eqb Bool.eqb].
  rewrite Hr, Hreq. cbn [negb].
  match goal with
  | |- context [choice_values ?fl ?vs 0 ?o'] =>
      destruct (choice_values_prefix fl vs 0 o') as [tail Ht]
  end.
  eexists. exists tail. split; [reflexivity|].
  rewrite Ht. unfold push_state. cbn [states set_states set_statesMap].
  rewrite Hs, Hl. reflexivity.
Qed.

(** C6 (evaluation of the code): on the optional choice column [Status]
    with the default options, the blank state is the first column and the
    field value [""] maps to it, but its internal name is the label
    ["(none)"], not the empty string; on the optional lookup column
    [Project] the blank state is first with the empty string as name. *)
Theorem choice_blank_name_is_label :
  (match getBoardStates (Fetched (Some Fixtures.statusColumn)) Failed
                        (new_board (defaults "Status")) with
   | Resolved o =>
       map name (states o)
       = ["(none)"; "Not Started"; "In Progress"; "Done"]
       /\ smap_get "" (statesMap o) = Some 0
       /\ option_map name (hd_error (states o)) <> Some ""
   | Rejected _ _ => False
   end)
  /\
  (match getBoardStates (Fetched (Some Fixtures.projectColumn))
                        (Fetched Fixtures.projects)
                        (new_board (defaults "Project")) with
   | Resolved o =>
       map name (states o) = [""; "1;#Alpha"; "2;#Beta"]
       /\ smap_get "" (statesMap o) = Some 0
   | Rejected _ _ => False
   end).
Proof.
  split; vm_compute; repeat split; discriminate.
Qed.

End DomainFacts.

(* ===================================================================== *)
(** ** The column model: visibility *)
(* ===================================================================== *)

Module VisibilityFacts.
Import Board Notions.

Lemma isVisible_apply_colList colList colDef :
  isVisible (apply_colList colList colDef) = in_colList colList colDef.
Proof.
  unfold apply_colList, show_col, hide_col.
  destruct (in_colList colList colDef); [|reflexivity].
  destruct (isVisible colDef) eqn:E; simpl; auto.
Qed.

Lemma visible_count_apply colList sts :
  visible_count (map (apply_colList colList) sts)
  = List.length (matched colList sts).
Proof.
  unfold visible_count, matched.
  induction sts as [|s sts IH]; simpl; [reflexivity|].
  rewrite isVisible_apply_colList.
  destruct (in_colList colList s); simpl; now rewrite IH.
Qed.

(** As long as the bound cannot be reached before the last state, the
    loop visits every state. *)
Lemma visible_loop_all colList max :
  forall sts count,
    (count + Z.of_nat (List.length sts) <= max)%Z ->
    visible_loop colList max sts count
    = (map (apply_colList colList) sts,
       (count + Z.of_nat (List.length (matched colList sts)))%Z).
Proof.
  induction sts as [|s sts IH]; intros count Hle.
  - simpl. f_equal. lia.
  - cbn [visible_loop map matched filter].
    unfold apply_colList at 1.
    destruct (in_colList colList s) eqn:Hin.
    + destruct (max <=? count + 1)%Z eqn:Hmax.
      * apply Z.leb_le in Hmax.
        destruct sts as [|s' sts]; [|cbn [List.length] in Hle; lia].
        simpl. f_equal. 
      * apply Z.leb_gt in Hmax.
        rewrite IH by (cbn [List.length] in Hle; lia).
        unfold matched. cbn [List.length]. f_equal. lia.
    + destruct (max <=? count)%Z eqn:Hmax.
      * apply Z.leb_le in Hmax. cbn [List.length] in Hle. lia.
      * rewrite IH by (cbn [List.length] in Hle; lia).
        reflexivity.
Qed.

Lemma setBoardColumnClass_states n o :
  states (setBoardColumnClass n o) = states o.
Proof.
  unfold setBoardColumnClass.
  destruct (showNumberOfColumns o =? _)%Z; reflexivity.
Qed.

Lemma setBoardColumnClass_max n o :
  maxColumnVisible (setBoardColumnClass n o) = maxColumnVisible o.
Proof.
  unfold setBoardColumnClass.
  destruct (showNumberOfColumns o =? _)%Z; reflexivity.
Qed.

(** The states [setUserDefinedVisibleCol] leaves behind for an array of
    at least two entries. *)
Lemma setVisible_array_states l o :
  2 <= List.length l ->
  states (fst (fst (setUserDefinedVisibleCol (ArgArray l) o)))
  = fst (visible_loop l (maxColumnVisible o) (states o) 0).
Proof.
  intros Hlen. destruct l as [|a l]; [simpl in Hlen; lia|].
  cbn [setUserDefinedVisibleCol]. unfold setUserDefinedVisibleCol_array.
  destruct (List.length (a :: l) <? 2)%nat eqn:Hlt.
  { apply Nat.ltb_lt in Hlt. lia. }
  destruct (visible_loop (a :: l) (maxColumnVisible o) (states o) 0)
    as [sts n].
  cbn [fst]. now rewrite setBoardColumnClass_states.
Qed.

(** The count right after the build loop: every column up to the
    [maxColumnVisible]-th is visible, the others are hidden. *)
Lemma build_columns_from_count max :
  forall sts i,
    Z.of_nat (visible_count (build_columns_from max i sts))
    = Z.max 0 (Z.min (Z.of_nat (List.length sts)) (max - Z.of_nat i)).
Proof.
  unfold visible_count.
  induction sts as [|v sts IH]; intros i; cbn [build_columns_from].
  - simpl. lia.
  - unfold build_column at 1.
    destruct (max - 1 <? Z.of_nat i)%Z eqn:Hcmp; cbn [filter isVisible set_visibility].
    + apply Z.ltb_lt in Hcmp. rewrite IH. cbn [List.length]. lia.
    + apply Z.ltb_ge in Hcmp. cbn [List.length]. 
      rewrite Nat2Z.inj_succ, IH. lia.
Qed.

Lemma build_columns_count o :
  Z.of_nat (visible_count (states (build_columns o)))
  = Z.max 0 (Z.min (Z.of_nat (List.length (states o))) (maxColumnVisible o)).
Proof.
  unfold build_columns.
  destruct (Z.of_nat (List.length (states o)) <=? maxColumnVisible o)%Z;
    cbn [states set_states set_showNumberOfColumns maxColumnVisible];
    rewrite build_columns_from_count; lia.
Qed.

(** C4 (the code on the keyword): [setUserDefinedVisibleCol("all")]
    leaves the instance as it is, triggers nothing and returns
    [undefined]: the keyword is recognised, the list is emptied, and the
    guard on lists of fewer than two entries returns. *)
Theorem setVisible_all_changes_nothing :
  forall o : board,
    setUserDefinedVisibleCol (ArgString "all") o = (o, [], JS.VUndefined).
Proof. intros o. reflexivity. Qed.

(** The same on a board: with two of the four [Status] columns hidden,
    ["all"] shows none of them again. *)
Lemma all_keeps_hidden_columns :
  let o := fst (method_setVisible (ArgArray ["Done"; "In Progress"])
                                  Fixtures.statusBoard) in
  Fixtures.visible_names o = ["In Progress"; "Done"]
  /\ Fixtures.visible_names (fst (method_setVisible (ArgString "all") o))
     = ["In Progress"; "Done"]
  /\ List.length (states o) = 4.
Proof. vm_compute. auto. Qed.

(** The guards at the head of [setUserDefinedVisibleCol]. *)
Lemma short_input_returns (arg : colListArg) (o : board) :
  entries arg < 2 ->
  setUserDefinedVisibleCol arg o = (o, [], JS.VUndefined).
Proof.
  intros Hlt. destruct arg as [|s|l]; cbn [setUserDefinedVisibleCol].
  - reflexivity.
  - destruct (String.eqb s ""); [reflexivity|].
    destruct (negb (String.eqb (JS.toLowerCase s) "all")); reflexivity.
  - destruct l as [|a [|b l]]; try reflexivity.
    simpl in Hlt. lia.
Qed.

Lemma array_returns_undefined (showAll : bool) (l : list string) (o : board) :
  snd (setUserDefinedVisibleCol_array showAll l o) = JS.VUndefined.
Proof.
  unfold setUserDefinedVisibleCol_array.
  destruct (List.length l <? 2)%nat; [reflexivity|].
  destruct (visible_loop l (maxColumnVisible o) (states o) 0).
  reflexivity.
Qed.

(** An input that is not an array of at least two entries changes
    nothing and triggers nothing; and whatever the input, the call
    returns [undefined]. *)
Lemma setVisible_short_input_changes_nothing :
  forall (arg : colListArg) (o : board),
    (entries arg < 2 ->
     setUserDefinedVisibleCol arg o = (o, [], JS.VUndefined))
    /\ snd (setUserDefinedVisibleCol arg o) = JS.VUndefined.
Proof.
  intros arg o. split; [apply short_input_returns|].
  destruct arg as [|s|l]; cbn [setUserDefinedVisibleCol].
  - reflexivity.
  - destruct (String.eqb s ""); [reflexivity|].
    destruct (negb (String.eqb (JS.toLowerCase s) "all"));
      [reflexivity | apply array_returns_undefined].
  - destruct l; apply array_returns_undefined.
Qed.

(** On the [Status] board: a single name changes nothing. *)
Lemma setVisible_short_input_witness :
  setUserDefinedVisibleCol (ArgArray ["Done"]) Fixtures.statusBoard
  = (Fixtures.statusBoard, [], JS.VUndefined).
Proof.
  apply (proj1 (setVisible_short_input_changes_nothing
                  (ArgArray ["Done"]) Fixtures.statusBoard)).
  simpl. lia.
Defined.

(** [setVisible(["Done"])] names a single column; the call does not
    return [false], it returns [undefined]. *)
Lemma setVisible_single_does_not_return_false :
  entries (ArgArray ["Done"]) < 2
  /\ snd (setUserDefinedVisibleCol (ArgArray ["Done"]) Fixtures.statusBoard)
     <> JS.VBool false.
Proof. split; [simpl; lia | vm_compute; discriminate]. Qed.

(** The validation loop has no say: with two entries of which one names
    a column, the other three columns are hidden all the same. *)
Lemma setVisible_one_valid_of_two :
  count_valid Fixtures.statusBoard ["Done"; "Bogus"] 0 = 1%Z
  /\ Fixtures.visible_names
       (fst (method_setVisible (ArgArray ["Done"; "Bogus"])
                               Fixtures.statusBoard))
     = ["Done"].
Proof. vm_compute. auto. Qed.

(** C3 (evaluation of the code): the number of valid names that the
    validation loop counts is never tested, so the outcome of a call is
    the same whether the loop runs or not; on the [Status] board, all of
    whose four columns are visible, the array [["Done"; "Bogus"]] holds a
    single name that resolves to a column, and the call still hides the
    three other columns, triggers the column event and returns
    [undefined], where the picker's own [setUserDefinedVisibleCol] leaves
    the board as it is and triggers nothing. *)
Theorem setVisible_ignores_the_validation :
  (forall (l : list string) (o : board),
      setUserDefinedVisibleCol_array false l o
      = setUserDefinedVisibleCol_array true l o)
  /\ count_valid Fixtures.statusBoard ["Done"; "Bogus"] 0 = 1%Z
  /\ Fixtures.visible_names Fixtures.statusBoard
     = ["(none)"; "Not Started"; "In Progress"; "Done"]
  /\ (let '(o', evs, v) :=
         setUserDefinedVisibleCol (ArgArray ["Done"; "Bogus"])
                                  Fixtures.statusBoard in
       Fixtures.visible_names o' = ["Done"]
       /\ evs = [boardColumnChange ["Done"]]
       /\ v = JS.VUndefined)
  /\ ColumnPicker.setUserDefinedVisibleCol
       (ArgArray ["Done"; "Bogus"])
       (ColumnPicker.setupColumnPicker false Fixtures.statusBoard)
       Fixtures.statusBoard
     = (Fixtures.statusBoard, []).
Proof.
  split; [intros l o; reflexivity|].
  vm_compute. repeat split.
Qed.

(** C5 (evaluation of the code): on the board of twelve columns
    [c01..c12], of which the build loop shows the first ten,
    - [setVisible] of the twelve names in reverse order shows [c01..c10],
      the first ten in the order of [opt.states], where the first ten
      matches in the caller's order are [c12..c03];
    - [setVisible] of [c03..c12] followed by [setVisible] of the twelve
      names leaves the twelve columns visible: the loop stops at the
      tenth match and [c11], [c12] keep the flag they had. *)
Theorem setVisible_more_than_max :
  (let o' := fst (method_setVisible (ArgArray (rev Fixtures.twelve))
                                    Fixtures.wideBoard) in
   first_matches_in_input_order Fixtures.wideBoard (rev Fixtures.twelve)
   = ["c12"; "c11"; "c10"; "c09"; "c08"; "c07"; "c06"; "c05"; "c04"; "c03"]
   /\ Fixtures.visible_names o'
      = ["c01"; "c02"; "c03"; "c04"; "c05"; "c06"; "c07"; "c08"; "c09"; "c10"])
  /\
  (let o1 := fst (method_setVisible (ArgArray (skipn 2 Fixtures.twelve))
                                    Fixtures.wideBoard) in
   let o2 := fst (method_setVisible (ArgArray Fixtures.twelve) o1) in
   Fixtures.visible_names o1 = skipn 2 Fixtures.twelve
   /\ first_matches_in_input_order o1 Fixtures.twelve
      = firstn 10 Fixtures.twelve
   /\ Fixtures.visible_names o2 = Fixtures.twelve
   /\ maxColumnVisible o2 = 10%Z).
Proof. vm_compute. repeat split. Qed.


Lemma cut_zero colList sts : cut colList 0 sts = 0.
Proof. destruct sts; reflexivity. Qed.

(** The loop of [setUserDefinedVisibleCol] follows the list on the
    columns up to the cut and leaves the others as they are. *)
Lemma visible_loop_cut colList max :
  forall sts count,
    (count < max)%Z ->
    let p := cut colList (Z.to_nat (max - count)) sts in
    visible_loop colList max sts count
    = (map (apply_colList colList) (firstn p sts) ++ skipn p sts,
       (count + Z.of_nat (List.length (matched colList (firstn p sts))))%Z).
Proof.
  induction sts as [|s sts IH]; intros count Hlt; cbn zeta.
  - cbn. f_equal. lia.
  - destruct (Z.to_nat (max - count)) as [|k'] eqn:Ek; [lia|].
    cbn [visible_loop cut].
    destruct (in_colList colList s) eqn:Hin.
    + assert (Ha : apply_colList colList s = show_col s)
        by (unfold apply_colList; now rewrite Hin).
      destruct (max <=? count + 1)%Z eqn:Hmax.
      * apply Z.leb_le in Hmax.
        assert (k' = 0) by lia. subst k'. rewrite cut_zero.
        cbn [firstn skipn map app]. unfold matched. cbn [filter].
        rewrite Ha, Hin. reflexivity.
      * apply Z.leb_gt in Hmax.
        specialize (IH (count + 1)%Z Hmax). cbn zeta in IH.
        replace (Z.to_nat (max - (count + 1))) with k' in IH by lia.
        rewrite IH. cbn [firstn skipn map app]. unfold matched.
        cbn [filter]. rewrite Ha, Hin.
        cbn [List.length]. apply f_equal2; [reflexivity|lia].
    + assert (Ha : apply_colList colList s = hide_col s)
        by (unfold apply_colList; now rewrite Hin).
      assert (Hmax : (max <=? count)%Z = false) by (apply Z.leb_gt; lia).
      rewrite Hmax.
      specialize (IH count Hlt). cbn zeta in IH. rewrite Ek in IH.
      rewrite IH. cbn [firstn skipn map app]. unfold matched.
      cbn [filter]. rewrite Ha, Hin. reflexivity.
Qed.

Lemma cut_matched colList :
  forall sts k,
    List.length (matched colList (firstn (cut colList k sts) sts))
    = Nat.min (List.length (matched colList sts)) k.
Proof.
  unfold matched.
  induction sts as [|s sts IH]; intros k; [reflexivity|].
  destruct k as [|k']; [cbn; now rewrite Nat.min_0_r|].
  cbn [cut firstn filter].
  destruct (in_colList colList s); cbn [List.length]; rewrite IH;
    [reflexivity|].
  reflexivity.
Qed.

Lemma cut_all colList :
  forall sts k,
    List.length (matched colList sts) < k ->
    cut colList k sts = List.length sts.
Proof.
  unfold matched.
  induction sts as [|s sts IH]; intros k Hlt; [reflexivity|].
  destruct k as [|k']; [lia|].
  cbn [cut List.length]. f_equal. cbn [filter] in Hlt.
  destruct (in_colList colList s); cbn [List.length] in Hlt; apply IH; lia.
Qed.

Lemma cut_covers colList :
  forall sts k,
    List.length sts <= k ->
    skipn (cut colList k sts) sts = [].
Proof.
  induction sts as [|s sts IH]; intros k Hle; [reflexivity|].
  destruct k as [|k']; [cbn in Hle; lia|].
  cbn [cut skipn]. cbn [List.length] in Hle.
  destruct (in_colList colList s); apply IH; lia.
Qed.

Lemma visible_count_app l1 l2 :
  visible_count (l1 ++ l2) = visible_count l1 + visible_count l2.
Proof.
  unfold visible_count. now rewrite filter_app, length_app.
Qed.



End VisibilityFacts.

(* ===================================================================== *)
(** ** The move synchronizer *)
(* ===================================================================== *)

Module MoveFacts.
Import Board Notions.

(** What [find] answers is the first element that passes the test. *)
Lemma find_first_split (A : Type) (f : A -> bool) :
  forall (l : list A) (a : A),
    find f l = Some a
    <-> exists pre post,
          l = pre ++ a :: post /\ f a = true
          /\ forall x, In x pre -> f x = false.
Proof.
  induction l as [|x l IH]; intros a; cbn [find].
  - split; [discriminate|].
    intros (pre & post & H & _). now destruct pre.
  - destruct (f x) eqn:Hx.
    + split.
      * intros H. injection H as <-.
        exists [], l. repeat split; [exact Hx|contradiction].
      * intros (pre & post & Hl & Ha & Hpre).
        destruct pre as [|y pre]; cbn [app] in Hl;
          injection Hl as Hxy Hl; subst.
        -- reflexivity.
        -- rewrite (Hpre y (or_introl eq_refl)) in Hx. discriminate.
    + rewrite IH. split.
      * intros (pre & post & -> & Ha & Hpre).
        exists (x :: pre), post. repeat split; [exact Ha|].
        intros y [<-|Hy]; auto.
      * intros (pre & post & Hl & Ha & Hpre).
        destruct pre as [|y pre]; cbn [app] in Hl;
          injection Hl as Hxy Hl; subst.
        -- congruence.
        -- exists pre, post. repeat split; [exact Ha|].
           intros z Hz. apply Hpre. now right.
Qed.

(** The item object of a card: the first row of [opt.listItems] whose
    [ID] spells the identifier. *)
Lemma lookup_first_row (o : board) (itemId : JS.value) (r : row) :
  getBoardItemDataObject o itemId = Some r
  <-> JS.truthy itemId = true
      /\ exists pre post,
           listItems o = pre ++ r :: post
           /\ ID r = JS.to_String itemId
           /\ forall x, In x pre -> ID x <> JS.to_String itemId.
Proof.
  unfold getBoardItemDataObject.
  destruct (JS.truthy itemId).
  - rewrite find_first_split. split.
    + intros (pre & post & Hl & Ha & Hpre). split; [reflexivity|].
      exists pre, post. split; [exact Hl|]. split.
      * symmetry. now apply String.eqb_eq.
      * intros x Hx Heq. specialize (Hpre x Hx). cbn beta in Hpre.
        rewrite Heq, String.eqb_refl in Hpre. discriminate.
    + intros (_ & pre & post & Hl & Ha & Hpre).
      exists pre, post. split; [exact Hl|]. split.
      * rewrite Ha. apply String.eqb_refl.
      * intros x Hx. apply String.eqb_neq. intros Heq.
        now apply (Hpre x Hx).
  - split; [discriminate|]. intros [H _]. discriminate.
Qed.

Section Facts.

Variable jq_data : string -> JS.value.
Variable XData : Type.
Variable Node : Type.
Variable doesMsgHaveError : XData -> bool.
Variable getMsgError : XData -> string.
Variable getNodesFromXml : XData -> list Node.

Let headers (o : board) : board :=
  set_states (updBoardHeaders (states o)) o.

Lemma updBoardHeaders_dataEle sts :
  map dataEle (updBoardHeaders sts) = map dataEle sts.
Proof.
  unfold updBoardHeaders. rewrite map_map. reflexivity.
Qed.

(** C7: when the hook answers the boolean [true], or leaves no update,
    the handler issues no update and triggers nothing, whatever the
    server would have answered, and every card stays where the drop
    put it (the first handler only refreshes the header totals). *)
Theorem cancelled_move_commits_nothing :
  forall (hook : preUpdateHook) (ui_item : string * option string)
         (o : board),
    JS.strict_eq_true (fst (hook (moveIntent jq_data (headers o) ui_item)))
    = true
    \/ snd (hook (moveIntent jq_data (headers o) ui_item)) = [] ->
    sortreceive jq_data XData Node (Some hook) ui_item o
    = (headers o, [], None)
    /\ (forall answer : XData * string,
           drag_move jq_data doesMsgHaveError getMsgError getNodesFromXml
                     (Some hook) ui_item answer o
           = (headers o, []))
    /\ map dataEle (states (headers o)) = map dataEle (states o).
Proof.
  intros hook ui_item o Hcancel.
  assert (Hs : sortreceive jq_data XData Node (Some hook) ui_item o
               = (headers o, [], None)).
  { unfold sortreceive. fold (headers o).
    destruct (hook (moveIntent jq_data (headers o) ui_item))
      as [answer upd] eqn:Hh.
    cbn [fst snd] in Hcancel.
    destruct Hcancel as [Htrue | Hempty].
    - rewrite Htrue. reflexivity.
    - subst upd. destruct (JS.strict_eq_true answer); reflexivity. }
  split; [exact Hs|]. split.
  - intros answer. unfold drag_move. rewrite Hs. reflexivity.
  - unfold headers. cbn [states set_states].
    apply updBoardHeaders_dataEle.
Qed.

(** C8: once the update is issued (a single call carrying all the
    updates, for the item of the card: the first row of
    [opt.listItems] whose [ID] spells the [data-id] of the card), the
    board is the one the drop left with its header totals refreshed, the
    data object is the one the handler prepared with the updates the hook
    left (without a hook: the update of the board field to the state of
    the receiving column), and the completion of the update either
    triggers the change event and then resolves with the server's row,
    the item object of the card and the raw response, or rejects, without
    any event, with a message, the raw response and the status: the
    transport message when the status is ["error"], the server's message
    when the response carries an error.  The whole gesture is the update
    followed by that one outcome. *)
Theorem committed_move_outcome :
  forall (onPreUpdate : option preUpdateHook)
         (ui_item : string * option string) (o o' : board)
         (effs : list (effect XData Node)) (d : evData)
         (xData : XData) (status : string),
    sortreceive jq_data XData Node onPreUpdate ui_item o
    = (o', effs, Some d) ->
    (exists valuepairs,
        updates d = Some valuepairs /\ valuepairs <> []
        /\ effs = [updateListItems XData Node
                     (option_map ID (itemObj d)) valuepairs])
    /\ itemObj d
       = getBoardItemDataObject o (jq_data (fst ui_item))
    /\ (status <> "error" -> doesMsgHaveError xData = false ->
        completefunc doesMsgHaveError getMsgError getNodesFromXml
                     d xData status
        = [trigger_boardchange XData Node d;
           resolveWith (hd_error (getNodesFromXml xData)) (itemObj d)
                       xData])
    /\ (status = "error" ->
        completefunc doesMsgHaveError getMsgError getNodesFromXml
                     d xData status
        = [rejectWith Node "Communications Error!" xData status])
    /\ (status <> "error" -> doesMsgHaveError xData = true ->
        completefunc doesMsgHaveError getMsgError getNodesFromXml
                     d xData status
        = [rejectWith Node (getMsgError xData) xData status])
    /\ o' = headers o
    /\ (forall r : row,
           itemObj d = Some r
           <-> JS.truthy (jq_data (fst ui_item)) = true
               /\ exists pre post,
                    listItems o = pre ++ r :: post
                    /\ ID r = JS.to_String (jq_data (fst ui_item))
                    /\ forall x, In x pre ->
                                 ID x <> JS.to_String (jq_data (fst ui_item)))
    /\ (exists valuepairs,
           d = set_updates valuepairs
                 (moveIntent jq_data (headers o) ui_item)
           /\ match onPreUpdate with
              | Some hook =>
                  valuepairs
                  = snd (hook (moveIntent jq_data (headers o) ui_item))
                  /\ JS.strict_eq_true
                       (fst (hook (moveIntent jq_data (headers o) ui_item)))
                     = false
              | None =>
                  valuepairs
                  = [(field o,
                      match snd ui_item with
                      | Some nm => jq_data nm
                      | None => JS.VUndefined
                      end)]
              end
           /\ drag_move jq_data doesMsgHaveError getMsgError
                        getNodesFromXml onPreUpdate ui_item
                        (xData, status) o
              = (headers o,
                 updateListItems XData Node
                   (option_map ID
                      (getBoardItemDataObject o (jq_data (fst ui_item))))
                   valuepairs
                 :: (if String.eqb status "error" then
                       [rejectWith Node "Communications Error!" xData status]
                     else if doesMsgHaveError xData then
                       [rejectWith Node (getMsgError xData) xData status]
                     else
                       [trigger_boardchange XData Node d;
                        resolveWith
                          (hd_error (getNodesFromXml xData))
                          (getBoardItemDataObject o (jq_data (fst ui_item)))
                          xData]))).
Proof.
  intros onPreUpdate ui_item o o' effs d xData status Hs.
  assert (Hdrag :
            drag_move jq_data doesMsgHaveError getMsgError getNodesFromXml
                      onPreUpdate ui_item (xData, status) o
            = (o', effs ++ completefunc doesMsgHaveError getMsgError
                                        getNodesFromXml d xData status)).
  { unfold drag_move. rewrite Hs. reflexivity. }
  unfold sortreceive in Hs. fold (headers o) in Hs.
  set (intent := moveIntent jq_data (headers o) ui_item) in *.
  assert (Hobj : itemObj intent
                 = getBoardItemDataObject o (jq_data (fst ui_item))).
  { unfold intent, moveIntent, getEventObject. destruct ui_item as [id st].
    reflexivity. }
  assert (Hd : o' = headers o
               /\ exists valuepairs,
                   valuepairs <> []
                   /\ d = set_updates valuepairs intent
                   /\ effs = [updateListItems XData Node
                                (option_map ID (itemObj d)) valuepairs]
                   /\ match onPreUpdate with
                      | Some hook =>
                          valuepairs = snd (hook intent)
                          /\ JS.strict_eq_true (fst (hook intent)) = false
                      | None =>
                          valuepairs
                          = [(field o,
                              match snd ui_item with
                              | Some nm => jq_data nm
                              | None => JS.VUndefined
                              end)]
                      end).
  { destruct onPreUpdate as [hook|].
    - destruct (hook intent) as [answer upd].
      destruct (JS.strict_eq_true answer) eqn:Hans; [discriminate|].
      cbn [updates set_updates] in Hs.
      destruct upd as [|u upd]; [discriminate|].
      injection Hs as Ho Heffs Hdd. subst d effs o'.
      split; [reflexivity|].
      exists (u :: upd).
      repeat split; try reflexivity; try discriminate; exact Hans.
    - assert (Hu : updates intent
                   = Some [(field o,
                            match snd ui_item with
                            | Some nm => jq_data nm
                            | None => JS.VUndefined
                            end)])
        by (destruct ui_item as [id [nm|]]; reflexivity).
      rewrite Hu in Hs.
      injection Hs as Ho Heffs Hdd. subst d effs o'.
      split; [reflexivity|].
      eexists. split; [|split; [|split; [reflexivity|reflexivity]]].
      + discriminate.
      + destruct ui_item as [id [nm|]]; reflexivity. }
  destruct Hd as (Ho & vp & Hne & Hdd & Heffs & Hhook).
  assert (Hio : itemObj d = itemObj intent) by (now subst d).
  assert (Hcomplete :
            completefunc doesMsgHaveError getMsgError getNodesFromXml
                         d xData status
            = if String.eqb status "error" then
                [rejectWith Node "Communications Error!" xData status]
              else if doesMsgHaveError xData then
                [rejectWith Node (getMsgError xData) xData status]
              else
                [trigger_boardchange XData Node d;
                 resolveWith (hd_error (getNodesFromXml xData))
                             (itemObj d) xData])
    by reflexivity.
  split; [|split; [|split; [|split; [|split; [|split; [|split]]]]]].
  - exists vp. split; [now subst d|]. split; [exact Hne|exact Heffs].
  - congruence.
  - intros Hne' Herr. apply String.eqb_neq in Hne'.
    now rewrite Hcomplete, Hne', Herr.
  - intros He. subst status. reflexivity.
  - intros Hne' Herr. apply String.eqb_neq in Hne'.
    now rewrite Hcomplete, Hne', Herr.
  - exact Ho.
  - intros r. rewrite Hio, Hobj. apply lookup_first_row.
  - exists vp. split; [exact Hdd|]. split; [exact Hhook|].
    rewrite Hdrag, Ho, Heffs, Hcomplete, Hio, Hobj. reflexivity.
Qed.

End Facts.

End MoveFacts.

Module MoveWitnesses.
Import Board Notions.

(** C7, on the [Status] board: a hook that answers [true]. *)
Lemma cancelled_move_witness :
  sortreceive Fixtures.plainData string string (Some Fixtures.cancelAll)
              Fixtures.droppedItem Fixtures.droppedBoard
  = (set_states (updBoardHeaders (states Fixtures.droppedBoard))
                Fixtures.droppedBoard, [], None).
Proof.
  apply (@MoveFacts.cancelled_move_commits_nothing
           Fixtures.plainData string string
           Fixtures.hasError Fixtures.errorText Fixtures.rowNodes
           Fixtures.cancelAll Fixtures.droppedItem Fixtures.droppedBoard).
  left. reflexivity.
Defined.

(** C8, on the [Status] board: no hook, the card of item 2 dropped on
    the column [In Progress], and the server answers a row. *)
Lemma committed_move_witness :
  let o := set_states (updBoardHeaders (states Fixtures.droppedBoard))
                      Fixtures.droppedBoard in
  let d := moveIntent Fixtures.plainData o Fixtures.droppedItem in
  drag_move Fixtures.plainData Fixtures.hasError Fixtures.errorText
            Fixtures.rowNodes None Fixtures.droppedItem
            ("<row/>", "success") Fixtures.droppedBoard
  = (o,
     [updateListItems string string (Some "2")
        [("Status", JS.VStr "In Progress")];
      trigger_boardchange string string d;
      resolveWith (Some "<row/>") (Some (Fixtures.item "2" "Done" "two"))
                  "<row/>"]).
Proof.
  intros o d.
  assert (Hs : sortreceive Fixtures.plainData string string None
                           Fixtures.droppedItem Fixtures.droppedBoard
               = (o, [updateListItems string string (Some "2")
                        [("Status", JS.VStr "In Progress")]], Some d))
    by reflexivity.
  destruct (@MoveFacts.committed_move_outcome
              Fixtures.plainData string string
              Fixtures.hasError Fixtures.errorText Fixtures.rowNodes
              None Fixtures.droppedItem Fixtures.droppedBoard _ _ _
              "<row/>" "success" Hs)
    as (_ & _ & _ & _ & _ & _ & _ & vp & _ & Hvp & Hdrag).
  rewrite Hdrag, Hvp. reflexivity.
Defined.

End MoveWitnesses.

(* ===================================================================== *)
(** ** The reconciliation engine: events *)
(* ===================================================================== *)

Module EventFacts.
Import Board Notions.

Lemma trigger_events_eq d added removed moved :
  trigger_events d added removed moved
  = (if non_empty added
     then [boarditemadd (set_itemsModified [EArr (map Some added)] d)]
     else [])
    ++ (if non_empty removed
        then [boarditemremove (set_itemsModified [EArr removed] d)]
        else [])
    ++ (if non_empty (flat_payload added removed moved)
        then [boardchange
                (set_itemsModified (flat_payload added removed moved) d)]
        else []).
Proof.
  unfold trigger_events, flat_payload.
  destruct added, removed; reflexivity.
Qed.

Lemma non_empty_true {A : Type} (l : list A) :
  non_empty l = true <-> l <> [].
Proof.
  destruct l; simpl; split; intros H; try discriminate; try reflexivity.
  now elim H.
Qed.

Lemma flat_payload_nil added removed moved :
  flat_payload added removed moved <> [] ->
  added <> [] \/ removed <> [] \/ moved <> [].
Proof.
  destruct added, removed, moved; simpl; intros H;
    try (left; discriminate);
    try (right; left; discriminate);
    try (right; right; discriminate).
  now elim H.
Qed.

Section Facts.

Variable template : row -> option (list card) -> string.
Variable jq_data : string -> JS.value.

(** The events of a pass are those of [trigger_events] on the three
    classification arrays, and only when [initDone] is set. *)
Lemma showItemsOnBoard_events thisOpt o :
  let res := showItemsOnBoard template jq_data thisOpt o in
  exists d0,
    r_events res
    = if initDone o
      then trigger_events d0 (r_added res) (r_removed res) (r_moved res)
      else [].
Proof.
  unfold showItemsOnBoard.
  destruct (initDone o && refresh thisOpt);
    cbn [remove_stale r_events r_added r_removed r_moved];
    eexists; reflexivity.
Qed.

Lemma initDone_getBoardStates cols lk o o' :
  getBoardStates cols lk o = Resolved o' -> initDone o' = initDone o.
Proof.
  assert (Hpush : forall k s b, initDone (push_state k s b) = initDone b)
    by reflexivity.
  assert (Hc : forall fl vs i b,
             initDone (choice_values fl vs i b) = initDone b).
  { induction vs as [|v vs IH]; intros i b; cbn [choice_values];
      [reflexivity|].
    destruct (match fl with
              | Some f => negb (JS.inArray v f)
              | None => false
              end); [apply IH|].
    destruct (maxColumns <=? i)%nat; [reflexivity|].
    rewrite IH. apply Hpush. }
  assert (Hl : forall rs i b, initDone (lookup_rows rs i b) = initDone b).
  { induction rs as [|r rs IH]; intros i b; cbn [lookup_rows];
      [reflexivity|].
    destruct (maxColumns <=? i)%nat; [reflexivity|].
    rewrite IH. apply Hpush. }
  assert (Hn : forall f, initDone (note_field f o) = initDone o).
  { intros f. unfold note_field.
    destruct (String.eqb (f_Required f) "TRUE"); cbn;
      destruct (allowFieldBlanks o); reflexivity. }
  unfold getBoardStates.
  destruct cols as [[f|]|]; try discriminate.
  destruct (String.eqb (JS.toLowerCase (f_Type f)) "choice").
  - intros H. injection H as <-. rewrite Hc.
    destruct (negb (isStateRequired (note_field f o))); cbn; apply Hn.
  - destruct (String.eqb (JS.toLowerCase (f_Type f)) "lookup");
      [|discriminate].
    destruct lk as [rs|]; [|discriminate].
    intros H. injection H as <-. rewrite Hl.
    destruct (negb (isStateRequired (note_field f o))); cbn; apply Hn.
Qed.

Lemma initDone_setVisible arg o :
  initDone (fst (fst (setUserDefinedVisibleCol arg o))) = initDone o.
Proof.
  assert (H : forall b l,
             initDone (fst (fst (setUserDefinedVisibleCol_array b l o)))
             = initDone o).
  { intros b l. unfold setUserDefinedVisibleCol_array.
    destruct (List.length l <? 2)%nat; [reflexivity|].
    destruct (visible_loop l (maxColumnVisible o) (states o) 0)
      as [sts n].
    cbn [fst]. unfold setBoardColumnClass.
    match goal with
    | |- context [if ?c then _ else _] => destruct c; reflexivity
    end. }
  destruct arg as [|s|l]; cbn [setUserDefinedVisibleCol].
  - reflexivity.
  - destruct (String.eqb s ""); [reflexivity|].
    destruct (negb (String.eqb (JS.toLowerCase s) "all"));
      [reflexivity | apply H].
  - destruct l; apply H.
Qed.

Lemma initDone_init_columns o :
  initDone (init_columns o) = initDone o.
Proof.
  unfold init_columns.
  assert (Hb : initDone (build_columns o) = initDone o).
  { unfold build_columns.
    destruct (Z.of_nat (List.length (states o)) <=? maxColumnVisible o)%Z;
      reflexivity. }
  destruct (colPickerVisible (build_columns o)); [exact Hb|].
  now rewrite initDone_setVisible.
Qed.

(** C2: in every pass, an add event means that [initDone] was set and
    that some row was classified as added; likewise for the remove event
    and the removed rows, and for the change event and the three
    classes together; without [initDone] the pass triggers nothing.  The
    first pass, the one [showBoard] runs to create the board, triggers
    nothing: the only event of the creation is [boardcreate], which
    follows the setting of [initDone]. *)
Theorem events_only_when_due :
  forall (thisOpt : showOptions) (o : board),
    let res := showItemsOnBoard template jq_data thisOpt o in
    (initDone o = false -> r_events res = [])
    /\ (forall d, In (boarditemadd d) (r_events res) ->
                  initDone o = true /\ r_added res <> [])
    /\ (forall d, In (boarditemremove d) (r_events res) ->
                  initDone o = true /\ r_removed res <> [])
    /\ (forall d, In (boardchange d) (r_events res) ->
                  initDone o = true
                  /\ (r_added res <> [] \/ r_removed res <> []
                      \/ r_moved res <> []))
    /\ (forall user cols lk items,
           match showBoard template jq_data user cols lk items with
           | Some (o', evs) =>
               initDone o' = true /\ exists d, evs = [boardcreate d]
           | None => True
           end).
Proof.
  intros thisOpt o res.
  destruct (showItemsOnBoard_events thisOpt o) as [d0 Hev].
  fold res in Hev.
  assert (Hoff : initDone o = false -> r_events res = []).
  { intros Hi. now rewrite Hev, Hi. }
  assert (Hon : forall e, In e (r_events res) ->
            initDone o = true
            /\ In e (trigger_events d0 (r_added res) (r_removed res)
                                    (r_moved res))).
  { intros e He. destruct (initDone o) eqn:Hi.
    - rewrite Hev in He. auto.
    - rewrite (Hoff eq_refl) in He. destruct He. }
  split; [exact Hoff|].
  split; [|split; [|split]].
  - intros d Hd. destruct (Hon _ Hd) as [Hi Hin]. split; [exact Hi|].
    rewrite trigger_events_eq in Hin.
    destruct (non_empty (r_added res)) eqn:Hne;
      [now apply non_empty_true|].
    repeat (apply in_app_or in Hin; destruct Hin as [Hin|Hin]);
      repeat match goal with
             | H : In _ (if ?c then _ else _) |- _ => destruct c
             | H : In _ [] |- _ => destruct H
             | H : In _ [_] |- _ => destruct H as [H|[]]; discriminate H
             end.
  - intros d Hd. destruct (Hon _ Hd) as [Hi Hin]. split; [exact Hi|].
    rewrite trigger_events_eq in Hin.
    destruct (non_empty (r_removed res)) eqn:Hne;
      [now apply non_empty_true|].
    repeat (apply in_app_or in Hin; destruct Hin as [Hin|Hin]);
      repeat match goal with
             | H : In _ (if ?c then _ else _) |- _ => destruct c
             | H : In _ [] |- _ => destruct H
             | H : In _ [_] |- _ => destruct H as [H|[]]; discriminate H
             end.
  - intros d Hd. destruct (Hon _ Hd) as [Hi Hin]. split; [exact Hi|].
    rewrite trigger_events_eq in Hin.
    apply flat_payload_nil.
    destruct (non_empty (flat_payload (r_added res) (r_removed res)
                                      (r_moved res))) eqn:Hne;
      [now apply non_empty_true|].
    repeat (apply in_app_or in Hin; destruct Hin as [Hin|Hin]);
      repeat match goal with
             | H : In _ (if ?c then _ else _) |- _ => destruct c
             | H : In _ [] |- _ => destruct H
             | H : In _ [_] |- _ => destruct H as [H|[]]; discriminate H
             end.
  - intros user cols lk items. unfold showBoard.
    destruct (String.eqb (o_field user) ""); [exact I|].
    destruct (getBoardStates cols lk (new_board user)) as [o1|] eqn:Hg;
      [|exact I].
    unfold init_items. split; [reflexivity|].
    apply initDone_getBoardStates in Hg.
    match goal with
    | |- context [showItemsOnBoard template jq_data ?opts ?b] =>
        destruct (showItemsOnBoard_events opts b) as [d1 Hev1];
        assert (Hi : initDone b = false)
          by (cbn [initDone set_listItems];
              rewrite initDone_init_columns; rewrite Hg; reflexivity)
    end.
    rewrite Hi in Hev1. cbv zeta in Hev1. rewrite Hev1.
    eexists. reflexivity.
Qed.


End Facts.

End EventFacts.

(* ===================================================================== *)
(** ** The reconciliation engine: what a refresh removes *)
(* ===================================================================== *)

Module ReconcileFacts.
Import Board Notions.

(** The enumeration visits every own property once. *)
Lemma insert_index_perm (A : Type) (n : N) (kv : string * A) :
  forall l, Permutation (map snd (JS.insert_index n kv l))
                        (kv :: map snd l).
Proof.
  induction l as [|[m kv'] l IH]; cbn [JS.insert_index].
  - apply Permutation_refl.
  - destruct (n <? m)%N; cbn [map snd].
    + apply Permutation_refl.
    + etransitivity; [apply perm_skip, IH | apply perm_swap].
Qed.

Lemma index_keys_perm (A : Type) :
  forall l : list (string * A),
    Permutation (map snd (JS.index_keys l))
                (filter (fun kv => JS.is_index (fst kv)) l).
Proof.
  induction l as [|kv l IH]; [apply Permutation_refl|].
  cbn [JS.index_keys fold_right filter]. fold (JS.index_keys l).
  unfold JS.is_index at 1.
  destruct (JS.array_index (fst kv)).
  - etransitivity; [apply insert_index_perm | apply perm_skip, IH].
  - exact IH.
Qed.

Lemma filter_halves_perm (A : Type) (p : A -> bool) :
  forall l, Permutation (filter p l ++ filter (fun x => negb (p x)) l) l.
Proof.
  induction l as [|a l IH]; [apply Permutation_refl|].
  cbn [filter]. destruct (p a); cbn [negb app].
  - apply perm_skip, IH.
  - etransitivity; [symmetry; apply Permutation_middle|].
    apply perm_skip, IH.
Qed.

Lemma own_keys_order_perm (A : Type) (l : list (string * A)) :
  Permutation (JS.own_keys_order l) l.
Proof.
  unfold JS.own_keys_order.
  etransitivity; [apply Permutation_app_tail, index_keys_perm|].
  apply (filter_halves_perm (fun kv : string * A => JS.is_index (fst kv))).
Qed.

(** A concatenation to which at most one element contributes does not
    depend on the order of the elements. *)
Lemma flat_map_perm_single (A B : Type) (g : A -> list B) (l l' : list A) :
  Permutation l l' ->
  (forall a b, In a l -> In b l -> g a <> [] -> g b <> [] -> a = b) ->
  NoDup l ->
  flat_map g l = flat_map g l'.
Proof.
  induction 1 as [|x l l' Hp IH|x y l|l l' l'' Hp1 IH1 Hp2 IH2];
    intros Hone Hnd.
  - reflexivity.
  - cbn [flat_map]. f_equal. apply IH.
    + intros a b Ha Hb. apply Hone; now right.
    + now inversion Hnd.
  - cbn [flat_map].
    destruct (g x) as [|bx gx] eqn:Ex;
      [reflexivity|].
    destruct (g y) as [|by' gy] eqn:Ey; [reflexivity|].
    exfalso.
    assert (Hxy : y = x).
    { apply Hone; [now left|right; now left| |]; congruence. }
    subst y. inversion Hnd as [|? ? Hnin _]. apply Hnin. now left.
  - rewrite IH1 by assumption. apply IH2.
    + intros a b Ha Hb. apply Hone;
        eapply Permutation_in; try apply Permutation_sym; eassumption.
    + eapply Permutation_NoDup; eassumption.
Qed.

(* ------------------------------------------------------------------- *)
(** *** Lists *)

Lemma fold_left_preserves {A B : Type} (f : A -> B -> A) (P : A -> Prop)
      (l : list B) :
  (forall a b, In b l -> P a -> P (f a b)) ->
  forall a, P a -> P (fold_left f l a).
Proof.
  induction l as [|b l IH]; intros Hstep a Ha; simpl; [exact Ha|].
  apply IH.
  - intros a' b' Hb'. apply Hstep. now right.
  - apply Hstep; [now left | exact Ha].
Qed.

Lemma filter_split_perm {A : Type} (f : A -> bool) (l : list A) :
  Permutation (filter (fun x => negb (f x)) l ++ filter f l) l.
Proof.
  induction l as [|a l IH]; simpl; [constructor|].
  destruct (f a); simpl.
  - apply Permutation_sym, Permutation_cons_app, Permutation_sym, IH.
  - now constructor.
Qed.

Lemma filter_perm {A : Type} (f : A -> bool) (l l' : list A) :
  Permutation l l' -> Permutation (filter f l) (filter f l').
Proof.
  induction 1 as [|x l l' _ IH|x y l|l l' l'' _ IH1 _ IH2]; simpl.
  - constructor.
  - destruct (f x); [now constructor | exact IH].
  - destruct (f x), (f y); try apply Permutation_refl. apply perm_swap.
  - now transitivity (filter f l').
Qed.

Lemma filter_none {A : Type} (f : A -> bool) (l : list A) :
  (forall x, In x l -> f x = false) -> filter f l = [].
Proof.
  induction l as [|a l IH]; intros H; simpl; [reflexivity|].
  rewrite (H a (or_introl eq_refl)). apply IH. intros x Hx. apply H.
  now right.
Qed.

(* ------------------------------------------------------------------- *)
(** *** The cards under the operations on the columns *)

Lemma all_cards_map_cards f sts :
  all_cards (map_cards f sts) = map f (all_cards sts).
Proof.
  unfold all_cards, map_cards.
  induction sts as [|s sts IH]; simpl; [reflexivity|].
  now rewrite map_app, IH.
Qed.

Lemma all_cards_detach id sts :
  all_cards (detach id sts)
  = filter (fun c => negb (has_id id c)) (all_cards sts).
Proof.
  unfold all_cards, detach.
  induction sts as [|s sts IH]; simpl; [reflexivity|].
  now rewrite filter_app, IH.
Qed.

Lemma all_cards_append_at cards :
  forall sts i,
    Permutation (all_cards (append_at i cards sts))
                (all_cards sts
                   ++ if (i <? List.length sts)%nat then cards else []).
Proof.
  unfold all_cards.
  induction sts as [|s sts IH]; intros i.
  - simpl. destruct i; constructor.
  - destruct i as [|j]; cbn [append_at flat_map dataEle set_dataEle].
    + cbn [List.length Nat.ltb Nat.leb].
      rewrite <- !app_assoc. apply Permutation_app_head.
      apply Permutation_app_comm.
    + replace (S j <? List.length (s :: sts))%nat
        with (j <? List.length sts)%nat by reflexivity.
      rewrite <- app_assoc. apply Permutation_app_head. apply IH.
Qed.

Lemma length_append_at cards :
  forall sts i, List.length (append_at i cards sts) = List.length sts.
Proof.
  induction sts as [|s sts IH]; intros [|j]; simpl; auto.
Qed.

Lemma all_cards_appendTo id target sts :
  target < List.length sts ->
  Permutation (all_cards (appendTo id target sts)) (all_cards sts).
Proof.
  intros Hlt. unfold appendTo.
  etransitivity; [apply all_cards_append_at|].
  assert (Hlen : List.length (detach id sts) = List.length sts)
    by (unfold detach; apply length_map).
  rewrite Hlen. apply Nat.ltb_lt in Hlt. rewrite Hlt.
  rewrite all_cards_detach. unfold find_items.
  apply filter_split_perm.
Qed.

Lemma length_appendTo id target sts :
  List.length (appendTo id target sts) = List.length sts.
Proof.
  unfold appendTo, detach. now rewrite length_append_at, length_map.
Qed.

Lemma smap_get_in_range o k i :
  statesMap_in_range o = true ->
  smap_get k (statesMap o) = Some i ->
  i < List.length (states o).
Proof.
  unfold statesMap_in_range.
  induction (statesMap o) as [|[k' j] m IH]; simpl; [discriminate|].
  intros Hall Hget. apply andb_prop in Hall as [Hj Hm].
  destruct (String.eqb k k').
  - injection Hget as <-. now apply Nat.ltb_lt.
  - now apply IH.
Qed.

Lemma in_ifb_add k c m x :
  In x (flat_map snd (ifb_add k c m)) <-> x = c \/ In x (flat_map snd m).
Proof.
  induction m as [|[k' cs] m IH]; simpl.
  - intuition.
  - destruct (String.eqb k k'); simpl.
    + rewrite !in_app_iff. simpl. intuition.
    + rewrite !in_app_iff, IH. intuition.
Qed.

Lemma filter_nil_none {A : Type} (f : A -> bool) (l : list A) :
  filter f l = [] -> forall x, In x l -> f x = false.
Proof.
  induction l as [|a l IH]; simpl; intros H x Hx; [destruct Hx|].
  destruct (f a) eqn:Ha; [discriminate|].
  destruct Hx as [<-|Hx]; [exact Ha | now apply IH].
Qed.

Lemma marks_set_html id h sts :
  marks (map_cards (on_items id (set_html h)) sts) = marks sts.
Proof.
  unfold marks. rewrite all_cards_map_cards, map_map.
  apply map_ext. intros c. unfold on_items.
  destruct (has_id id c); reflexivity.
Qed.

Lemma length_map_cards f sts :
  List.length (map_cards f sts) = List.length sts.
Proof. unfold map_cards. apply length_map. Qed.

(* ------------------------------------------------------------------- *)
(** *** One pass in refresh mode *)

Section Pass.

Variable template : row -> option (list card) -> string.
Variable jq_data : string -> JS.value.
Variable o : board.
Variable thisOpt : showOptions.

Hypothesis refresh_on : refresh thisOpt = true.
Hypothesis in_range : statesMap_in_range o = true.

Lemma mark_by_none r (l : list (string * bool)) :
  (forall m, In m l -> hit o r (fst m) = false) ->
  map (mark_by o r) l = l.
Proof.
  intros H. rewrite <- (map_id l) at 2. apply map_ext_in.
  intros [i b] Hm. unfold mark_by. rewrite (H _ Hm). cbn.
  now rewrite orb_false_r.
Qed.

Lemma marks_update_item r target l :
  target < List.length (l_states l) ->
  resolvable o r = true ->
  Permutation
    (marks (l_states (update_item template jq_data r target l)))
    (map (mark_by o r) (marks (l_states l))).
Proof.
  intros Hlt Hres. unfold update_item. cbn [l_states].
  set (sts1 := map_cards (on_items (ID r) (set_temp true)) (l_states l)).
  assert (H1 : marks sts1 = map (mark_by o r) (marks (l_states l))).
  { unfold sts1, marks. rewrite all_cards_map_cards, !map_map.
    apply map_ext. intros c.
    unfold on_items, mark_by, key, hit, has_id. rewrite Hres. cbn.
    rewrite (String.eqb_sym (ID r)).
    destruct (String.eqb (data_id c) (ID r)); cbn;
      [now rewrite orb_true_r | now rewrite orb_false_r]. }
  rewrite <- H1.
  match goal with
  | |- context [if String.eqb ?h "" then ?a else _] =>
      assert (H3 : marks (if String.eqb h "" then a
                          else map_cards (on_items (ID r) (set_html h)) a)
                   = marks a)
        by (destruct (String.eqb h ""); [reflexivity
                                        | apply marks_set_html]);
      rewrite H3
  end.
  match goal with
  | |- context [if ?c then appendTo _ _ _ else _] => destruct c
  end; [|apply Permutation_refl].
  unfold marks. apply Permutation_map, all_cards_appendTo.
  unfold sts1. now rewrite length_map_cards.
Qed.

Lemma length_update_item r target l :
  List.length (l_states (update_item template jq_data r target l))
  = List.length (l_states l).
Proof.
  unfold update_item. cbn [l_states].
  repeat match goal with
         | |- context [if ?c then _ else _] => destruct c
         end;
    rewrite ?length_map_cards, ?length_appendTo, ?length_map_cards;
    reflexivity.
Qed.

Lemma length_process_row r l :
  List.length (l_states (process_row template jq_data o thisOpt r l))
  = List.length (l_states l).
Proof.
  unfold process_row.
  destruct (smap_get (row_state r) (statesMap o)); [|reflexivity].
  destruct (negb (refresh thisOpt)); [reflexivity|].
  destruct (find_items (ID r) (l_states l));
    [reflexivity | apply length_update_item].
Qed.

Lemma marks_process_row r l :
  List.length (l_states l) = List.length (states o) ->
  Permutation
    (marks (l_states (process_row template jq_data o thisOpt r l)))
    (map (mark_by o r) (marks (l_states l))).
Proof.
  intros Hlen. unfold process_row.
  destruct (smap_get (row_state r) (statesMap o)) as [target|] eqn:Hget.
  - assert (Hres : resolvable o r = true)
      by (unfold resolvable; now rewrite Hget).
    rewrite refresh_on. cbn [negb].
    destruct (find_items (ID r) (l_states l)) as [|c cs] eqn:Hfind.
    + cbn [add_item l_states]. rewrite mark_by_none;
        [apply Permutation_refl|].
      intros m Hm. unfold marks in Hm. apply in_map_iff in Hm
        as (c & <- & Hc).
      unfold hit. rewrite Hres. cbn.
      rewrite String.eqb_sym.
      apply (filter_nil_none _ _ Hfind c Hc).
    + apply marks_update_item; [|exact Hres].
      rewrite Hlen. eapply smap_get_in_range; eauto.
  - rewrite mark_by_none; [apply Permutation_refl|].
    intros m _. unfold hit, resolvable. now rewrite Hget.
Qed.

Lemma length_rows_loop rws :
  forall l,
    List.length (l_states (rows_loop template jq_data o thisOpt rws l))
    = List.length (l_states l).
Proof.
  unfold rows_loop.
  induction rws as [|r rws IH]; intros l; cbn [fold_left];
    [reflexivity|].
  rewrite IH. apply length_process_row.
Qed.

Lemma marks_rows_loop rws :
  forall l,
    List.length (l_states l) = List.length (states o) ->
    Permutation
      (marks (l_states (rows_loop template jq_data o thisOpt rws l)))
      (map (mark_by_all o rws) (marks (l_states l))).
Proof.
  induction rws as [|r rws IH]; intros l Hlen.
  - simpl. rewrite <- (map_id (marks (l_states l))) at 1.
    erewrite map_ext; [apply Permutation_refl|].
    intros [i b]. unfold mark_by_all. cbn. now rewrite orb_false_r.
  - unfold rows_loop in *. cbn [fold_left].
    etransitivity.
    + apply IH. now rewrite length_process_row.
    + etransitivity.
      * apply Permutation_map. apply marks_process_row, Hlen.
      * rewrite map_map. erewrite map_ext; [apply Permutation_refl|].
        intros [i b]. unfold mark_by_all, mark_by. cbn.
        now rewrite orb_assoc.
Qed.

Lemma locals_ok_add_item rws r l :
  In r rws -> resolvable o r = true ->
  locals_ok o rws l -> locals_ok o rws (add_item template o thisOpt r l).
Proof.
  intros Hin Hres (Hn & Hc & Hi). unfold add_item.
  split; [|split]; cbn [newItems chgItems itemsForBoard].
  - intros r' Hr'. destruct (initDone o); [|now apply Hn].
    apply in_app_or in Hr' as [Hr'|[<-|[]]]; auto.
  - exact Hc.
  - intros c Hcin.
    destruct (String.eqb (template r None) ""); [now apply Hi|].
    apply in_ifb_add in Hcin as [->|Hcin]; [|now apply Hi].
    cbn [spwidget_temp data_id]. rewrite refresh_on, andb_true_r.
    split; [reflexivity|]. exists r. split; [exact Hin|].
    unfold hit. now rewrite Hres, String.eqb_refl.
Qed.

Lemma locals_ok_process_row rws r l :
  In r rws ->
  locals_ok o rws l ->
  locals_ok o rws (process_row template jq_data o thisOpt r l).
Proof.
  intros Hin Hok. unfold process_row.
  destruct (smap_get (row_state r) (statesMap o)) as [target|] eqn:Hget;
    [|exact Hok].
  assert (Hres : resolvable o r = true)
    by (unfold resolvable; now rewrite Hget).
  rewrite refresh_on. cbn [negb].
  destruct (find_items (ID r) (l_states l));
    [now apply locals_ok_add_item|].
  destruct Hok as (Hn & Hc & Hi). unfold update_item.
  split; [|split]; cbn [newItems chgItems itemsForBoard]; auto.
  intros r' Hr'.
  match goal with
  | H : In _ (if ?c then _ else _) |- _ => destruct c
  end; [|now apply Hc].
  apply in_app_or in Hr' as [Hr'|[<-|[]]]; auto.
Qed.

Lemma locals_ok_rows_loop rws l :
  locals_ok o rws l ->
  locals_ok o rws (rows_loop template jq_data o thisOpt rws l).
Proof.
  intros Hok. unfold rows_loop.
  apply (fold_left_preserves
           (fun l r => process_row template jq_data o thisOpt r l)
           (locals_ok o rws)); [|exact Hok].
  intros a b Hb Ha. now apply locals_ok_process_row.
Qed.

(** The insertion only adds cards of [itemsForBoard]. *)
Lemma all_cards_insert_items ifb :
  forall sts, exists extra,
    Permutation (all_cards (insert_items o ifb sts))
                (all_cards sts ++ extra)
    /\ incl extra (flat_map snd ifb).
Proof.
  unfold insert_items.
  assert (Hincl : incl (flat_map snd (JS.own_keys_order ifb))
                       (flat_map snd ifb)).
  { intros x. apply Permutation_in, Permutation_flat_map,
      own_keys_order_perm. }
  revert Hincl. generalize (JS.own_keys_order ifb) as keys.
  intros keys Hincl sts.
  enough (H : exists extra,
             Permutation
               (all_cards
                  (fold_left
                     (fun sts kv =>
                        match smap_get (fst kv) (statesMap o) with
                        | Some i => append_at i (snd kv) sts
                        | None => sts
                        end) keys sts))
               (all_cards sts ++ extra)
             /\ incl extra (flat_map snd keys)).
  { destruct H as (extra & Hp & Hi). exists extra. split; [exact Hp|].
    intros x Hx. apply Hincl, Hi, Hx. }
  clear Hincl ifb. revert sts. rename keys into ifb.
  induction ifb as [|[k cs] ifb IH]; intros sts.
  - exists []. split; [now rewrite app_nil_r | apply incl_refl].
  - cbn [fold_left fst snd].
    destruct (smap_get k (statesMap o)) as [i|].
    + destruct (IH (append_at i cs sts)) as (extra & Hp & Hi).
      exists ((if (i <? List.length sts)%nat then cs else []) ++ extra).
      split.
      * etransitivity; [exact Hp|]. rewrite app_assoc.
        apply Permutation_app_tail, all_cards_append_at.
      * cbn [flat_map snd]. intros x Hx.
        apply in_app_or in Hx as [Hx|Hx]; apply in_or_app.
        -- left. destruct (i <? List.length sts)%nat;
             [exact Hx | destruct Hx].
        -- right. now apply Hi.
    + destruct (IH sts) as (extra & Hp & Hi).
      exists extra. split; [exact Hp|].
      cbn [flat_map snd]. intros x Hx. apply in_or_app. right.
      now apply Hi.
Qed.

End Pass.

(* ------------------------------------------------------------------- *)
(** *** The removal step *)

Lemma all_cards_updBoardHeaders sts :
  all_cards (updBoardHeaders sts) = all_cards sts.
Proof.
  unfold all_cards, updBoardHeaders.
  induction sts as [|s sts IH]; simpl; [reflexivity|]. now rewrite IH.
Qed.

Lemma all_cards_remove_stale jq_data o sts :
  all_cards (fst (remove_stale jq_data o sts))
  = map (set_temp false) (filter spwidget_temp (all_cards sts)).
Proof.
  unfold remove_stale, all_cards. cbn [fst].
  induction sts as [|s sts IH]; simpl; [reflexivity|].
  now rewrite filter_app, map_app, IH.
Qed.

Lemma on_board_true id sts :
  on_board id sts = true
  <-> exists c, In c (all_cards sts) /\ data_id c = id.
Proof.
  unfold on_board. rewrite existsb_exists.
  split; intros (c & Hc & Hid); exists c; split; auto;
    unfold has_id in *; now apply String.eqb_eq.
Qed.

Lemma hit_by_true o rws id :
  hit_by o rws id = true
  <-> exists r, In r rws /\ ID r = id /\ resolvable o r = true.
Proof.
  unfold hit_by, hit. rewrite existsb_exists.
  split.
  - intros (r & Hr & H). apply andb_prop in H as [Hres Hid].
    exists r. repeat split; auto. now apply String.eqb_eq.
  - intros (r & Hr & Hid & Hres). exists r. split; [exact Hr|].
    rewrite Hres. now apply String.eqb_eq.
Qed.

Lemma no_temp_false sts c :
  no_temp sts = true -> In c (all_cards sts) -> spwidget_temp c = false.
Proof.
  unfold no_temp. rewrite forallb_forall. intros H Hc.
  apply H in Hc. now destruct (spwidget_temp c).
Qed.

Section Refresh.

Variable template : row -> option (list card) -> string.
Variable jq_data : string -> JS.value.

Lemma showItemsOnBoard_refresh thisOpt o :
  initDone o = true -> refresh thisOpt = true ->
  let l := rows_loop template jq_data o thisOpt (rows thisOpt) (start o) in
  let sts2 := if doBoardInsert thisOpt
              then insert_items o (itemsForBoard l) (l_states l)
              else l_states l in
  let res := showItemsOnBoard template jq_data thisOpt o in
  states (r_board res)
  = updBoardHeaders (fst (remove_stale jq_data o sts2))
  /\ r_removed res = snd (remove_stale jq_data o sts2)
  /\ r_added res = newItems l
  /\ r_moved res = chgItems l.
Proof.
  intros Hi Hr. unfold showItemsOnBoard, start. rewrite Hi, Hr.
  cbn [negb andb]. repeat split.
Qed.

Section OnePass.

Variable o : board.
Variable thisOpt : showOptions.

Hypothesis init_done : initDone o = true.
Hypothesis refresh_on : refresh thisOpt = true.
Hypothesis in_range : statesMap_in_range o = true.
Hypothesis clean : no_temp (states o) = true.

Let l := rows_loop template jq_data o thisOpt (rows thisOpt) (start o).
Let sts2 := if doBoardInsert thisOpt
            then insert_items o (itemsForBoard l) (l_states l)
            else l_states l.

Lemma loop_locals_ok : locals_ok o (rows thisOpt) l.
Proof.
  apply locals_ok_rows_loop; [exact refresh_on|].
  split; [|split]; intros x Hx; destruct Hx.
Qed.

Lemma loop_marks :
  Permutation (marks (l_states l))
              (map (mark_by_all o (rows thisOpt)) (marks (states o))).
Proof.
  unfold l. apply marks_rows_loop;
    [exact refresh_on | exact in_range | reflexivity].
Qed.

Lemma inserted_cards :
  exists extra,
    Permutation (all_cards sts2) (all_cards (l_states l) ++ extra)
    /\ forall c, In c extra ->
                 spwidget_temp c = true
                 /\ hit_by o (rows thisOpt) (data_id c) = true.
Proof.
  assert (Hok := loop_locals_ok). destruct Hok as (_ & _ & Hifb).
  unfold sts2. destruct (doBoardInsert thisOpt).
  - destruct (all_cards_insert_items o (itemsForBoard l) (l_states l))
      as (extra & Hp & Hincl).
    exists extra. split; [exact Hp|].
    intros c Hc. destruct (Hifb c (Hincl c Hc)) as [Ht (r & Hr & Hh)].
    split; [congruence|].
    unfold hit_by. apply existsb_exists. eauto.
  - exists []. split; [now rewrite app_nil_r | intros c []].
Qed.

(** A marked card after the loop carries the identifier of a row that
    resolved to a column. *)
Lemma marked_hit id :
  (exists c, In c (all_cards sts2)
             /\ spwidget_temp c = true /\ data_id c = id) ->
  hit_by o (rows thisOpt) id = true.
Proof.
  destruct inserted_cards as (extra & Hp & Hextra).
  intros (c & Hc & Ht & Hid).
  apply (Permutation_in _ Hp) in Hc.
  apply in_app_or in Hc as [Hc|Hc].
  - assert (Hk : In (key c) (marks (l_states l)))
      by (unfold marks; now apply in_map).
    apply (Permutation_in _ loop_marks) in Hk.
    apply in_map_iff in Hk as ([i b] & Hm & Hin).
    unfold marks in Hin. apply in_map_iff in Hin as (c0 & Hk0 & Hc0).
    unfold mark_by_all, key in *. cbn [fst snd] in Hm.
    injection Hk0 as Hi0 Hb0. injection Hm as Hi Hb.
    rewrite (no_temp_false _ _ clean Hc0) in Hb0. subst b.
    rewrite Ht in Hb. cbn in Hb. congruence.
  - destruct (Hextra c Hc) as [_ Hh]. now rewrite <- Hid.
Qed.

(** A card of the board whose identifier a resolving row carries is
    marked after the loop. *)
Lemma hit_marked id :
  on_board id (states o) = true ->
  hit_by o (rows thisOpt) id = true ->
  exists c, In c (all_cards sts2)
            /\ spwidget_temp c = true /\ data_id c = id.
Proof.
  intros Hon Hh. destruct inserted_cards as (extra & Hp & Hextra).
  apply on_board_true in Hon as (c0 & Hc0 & Hid0).
  assert (Hk : In (id, true) (marks (l_states l))).
  { apply (Permutation_in _ (Permutation_sym loop_marks)).
    apply in_map_iff. exists (key c0). split.
    - unfold mark_by_all, key. cbn [fst snd].
      rewrite Hid0, Hh. now rewrite orb_true_r.
    - unfold marks. now apply in_map. }
  unfold marks in Hk. apply in_map_iff in Hk as (c & Hkc & Hc).
  injection Hkc as Hi Ht.
  exists c. repeat split; auto.
  apply (Permutation_in _ (Permutation_sym Hp)).
  apply in_or_app. now left.
Qed.

(** After the pass, a card of the board is a marked card of before the
    removal step. *)
Lemma on_board_after id :
  on_board id (updBoardHeaders (fst (remove_stale jq_data o sts2)))
  = true
  <-> exists c, In c (all_cards sts2)
                /\ spwidget_temp c = true /\ data_id c = id.
Proof.
  rewrite on_board_true, all_cards_updBoardHeaders,
    all_cards_remove_stale.
  split.
  - intros (c' & Hc' & Hid). apply in_map_iff in Hc' as (c & <- & Hc).
    apply filter_In in Hc as [Hc Ht]. exists c. auto.
  - intros (c & Hc & Ht & Hid). exists (set_temp false c).
    split; [|exact Hid]. apply in_map. apply filter_In. auto.
Qed.

(** The number of stale cards at the removal step. *)
Lemma stale_count :
  List.length (snd (remove_stale jq_data o sts2))
  = List.length
      (filter (fun c => negb (hit_by o (rows thisOpt) (data_id c)))
              (all_cards (states o))).
Proof.
  destruct inserted_cards as (extra & Hp & Hextra).
  unfold remove_stale. cbn [snd]. rewrite length_map.
  unfold stale_items.
  rewrite (Permutation_length
             (filter_perm (fun c => negb (spwidget_temp c)) Hp)).
  rewrite filter_app, length_app.
  rewrite (filter_none (fun c => negb (spwidget_temp c)) extra);
    [|intros c Hc; destruct (Hextra c Hc) as [-> _]; reflexivity].
  cbn [List.length]. rewrite Nat.add_0_r.
  transitivity
    (List.length (filter (fun m : string * bool => negb (snd m))
                         (marks (l_states l)))).
  { unfold marks. rewrite filter_map_swap, length_map. reflexivity. }
  rewrite (Permutation_length
             (filter_perm (fun m : string * bool => negb (snd m))
                          loop_marks)).
  unfold marks. rewrite !filter_map_swap, !length_map.
  f_equal. apply filter_ext_in. intros c Hc.
  unfold mark_by_all, key. cbn [fst snd].
  now rewrite (no_temp_false _ _ clean Hc).
Qed.

End OnePass.


End Refresh.

(* ------------------------------------------------------------------- *)
(** *** The boards the widget produces *)

Lemma plain_rows_check rws :
  forallb (fun r => negb (JS.inherited (row_state r))) rws = true ->
  plain_rows rws.
Proof.
  intros H r Hr. rewrite forallb_forall in H.
  apply negb_true_iff. now apply H.
Qed.

Lemma in_smap_set k i m kv :
  In kv (smap_set k i m) -> kv = (k, i) \/ In kv m.
Proof.
  induction m as [|[k' j] m IH]; simpl.
  - intuition.
  - destruct (String.eqb k k'); simpl; intuition.
Qed.

Lemma in_range_push k s o :
  statesMap_in_range o = true ->
  statesMap_in_range (push_state k s o) = true.
Proof.
  unfold statesMap_in_range, push_state.
  cbn [states statesMap set_states set_statesMap].
  rewrite !forallb_forall. intros H kv Hkv.
  rewrite length_app. cbn [List.length]. apply Nat.ltb_lt.
  apply in_smap_set in Hkv as [->|Hkv].
  - cbn. lia.
  - apply H, Nat.ltb_lt in Hkv. lia.
Qed.

Lemma in_range_choice_values fl vals :
  forall i o,
    statesMap_in_range o = true ->
    statesMap_in_range (choice_values fl vals i o) = true.
Proof.
  induction vals as [|v vals IH]; intros i o Ho; cbn [choice_values];
    [exact Ho|].
  destruct (match fl with
            | Some f => negb (JS.inArray v f)
            | None => false
            end); [now apply IH|].
  destruct (maxColumns <=? i)%nat; [exact Ho|].
  apply IH. now apply in_range_push.
Qed.

Lemma in_range_lookup_rows rws :
  forall i o,
    statesMap_in_range o = true ->
    statesMap_in_range (lookup_rows rws i o) = true.
Proof.
  induction rws as [|r rws IH]; intros i o Ho; cbn [lookup_rows];
    [exact Ho|].
  destruct (maxColumns <=? i)%nat; [exact Ho|].
  apply IH. now apply in_range_push.
Qed.

Lemma in_range_getBoardStates user cols lk o :
  getBoardStates cols lk (new_board user) = Resolved o ->
  statesMap_in_range o = true.
Proof.
  unfold getBoardStates.
  destruct cols as [[f|]|]; try discriminate.
  assert (Hn : statesMap_in_range (note_field f (new_board user)) = true).
  { unfold note_field.
    destruct (String.eqb (f_Required f) "TRUE"); cbn;
      destruct (o_allowFieldBlanks user); reflexivity. }
  destruct (String.eqb (JS.toLowerCase (f_Type f)) "choice").
  - intros H. injection H as <-. apply in_range_choice_values.
    destruct (negb (isStateRequired (note_field f (new_board user))));
      [now apply in_range_push | exact Hn].
  - destruct (String.eqb (JS.toLowerCase (f_Type f)) "lookup");
      [|discriminate].
    destruct lk as [rs|]; [|discriminate].
    intros H. injection H as <-. apply in_range_lookup_rows.
    destruct (negb (isStateRequired (note_field f (new_board user))));
      [now apply in_range_push | exact Hn].
Qed.

(** Two keys of the map never stand for the same state. *)
Lemma refs_smap_set k i m x :
  In x (map snd (smap_set k i m)) -> x = i \/ In x (map snd m).
Proof.
  intros Hx. apply in_map_iff in Hx as (kv & <- & Hkv).
  apply in_smap_set in Hkv as [->|Hkv]; [now left|].
  right. now apply in_map.
Qed.

Lemma NoDup_smap_set k i m :
  NoDup (map snd m) -> ~ In i (map snd m) ->
  NoDup (map snd (smap_set k i m)).
Proof.
  induction m as [|[k' j] m IH]; cbn [smap_set map snd]; intros Hnd Hi.
  - constructor; [intros [] | constructor].
  - inversion Hnd as [|? ? Hj Hm]; subst.
    destruct (String.eqb k k'); cbn [map snd].
    + constructor; [|exact Hm]. intros H. apply Hi. now right.
    + constructor.
      * intros H. apply refs_smap_set in H as [->|H]; [|now apply Hj].
        apply Hi. now left.
      * apply IH; [exact Hm|]. intros H. apply Hi. now right.
Qed.

Lemma distinct_refs_push k s o :
  distinct_refs o -> distinct_refs (push_state k s o).
Proof.
  intros [Hr Hnd]. split; [now apply in_range_push|].
  unfold push_state. cbn [statesMap set_statesMap set_states].
  apply NoDup_smap_set; [exact Hnd|].
  intros Hin. apply in_map_iff in Hin as (kv & Hkv & Hin).
  unfold statesMap_in_range in Hr. rewrite forallb_forall in Hr.
  apply Hr, Nat.ltb_lt in Hin. lia.
Qed.

Lemma distinct_refs_getBoardStates user cols lk o :
  getBoardStates cols lk (new_board user) = Resolved o ->
  distinct_refs o.
Proof.
  assert (Hc : forall fl vals i b,
             distinct_refs b -> distinct_refs (choice_values fl vals i b)).
  { induction vals as [|v vals IH]; intros i b Hb; cbn [choice_values];
      [exact Hb|].
    destruct (match fl with
              | Some f => negb (JS.inArray v f)
              | None => false
              end); [now apply IH|].
    destruct (maxColumns <=? i)%nat; [exact Hb|].
    apply IH. now apply distinct_refs_push. }
  assert (Hl : forall rws i b,
             distinct_refs b -> distinct_refs (lookup_rows rws i b)).
  { induction rws as [|r rws IH]; intros i b Hb; cbn [lookup_rows];
      [exact Hb|].
    destruct (maxColumns <=? i)%nat; [exact Hb|].
    apply IH. now apply distinct_refs_push. }
  unfold getBoardStates.
  destruct cols as [[f|]|]; try discriminate.
  assert (Hn : distinct_refs (note_field f (new_board user))).
  { unfold note_field, distinct_refs.
    destruct (String.eqb (f_Required f) "TRUE"); cbn;
      destruct (o_allowFieldBlanks user); cbn; split;
      try reflexivity; constructor. }
  destruct (String.eqb (JS.toLowerCase (f_Type f)) "choice").
  - intros H. injection H as <-. apply Hc.
    destruct (negb (isStateRequired (note_field f (new_board user))));
      [now apply distinct_refs_push | exact Hn].
  - destruct (String.eqb (JS.toLowerCase (f_Type f)) "lookup");
      [|discriminate].
    destruct lk as [rs|]; [|discriminate].
    intros H. injection H as <-. apply Hl.
    destruct (negb (isStateRequired (note_field f (new_board user))));
      [now apply distinct_refs_push | exact Hn].
Qed.

(** The condition only looks at the map and at the number of states. *)
Lemma in_range_same o o' :
  statesMap o' = statesMap o ->
  List.length (states o') = List.length (states o) ->
  statesMap_in_range o' = statesMap_in_range o.
Proof.
  unfold statesMap_in_range. now intros -> ->.
Qed.

Lemma length_build_columns_from max :
  forall sts i, List.length (build_columns_from max i sts) = List.length sts.
Proof.
  induction sts as [|s sts IH]; intros i; simpl; [reflexivity|].
  now rewrite IH.
Qed.

Lemma dataEle_show_hide colList colDef :
  dataEle (if in_colList colList colDef
           then show_col colDef else hide_col colDef)
  = dataEle colDef.
Proof.
  unfold show_col, hide_col.
  destruct (in_colList colList colDef); [|reflexivity].
  destruct (negb (isVisible colDef)); reflexivity.
Qed.

Lemma dataEle_visible_loop colList max :
  forall sts count,
    map dataEle (fst (visible_loop colList max sts count))
    = map dataEle sts.
Proof.
  induction sts as [|s sts IH]; intros count; [reflexivity|].
  cbn [visible_loop].
  assert (Hd := dataEle_show_hide colList s).
  destruct (in_colList colList s).
  - destruct (max <=? count + 1)%Z; cbn [fst map].
    + now rewrite Hd.
    + specialize (IH (count + 1)%Z).
      destruct (visible_loop colList max sts (count + 1)).
      cbn [fst map] in *. now rewrite Hd, IH.
  - destruct (max <=? count)%Z; cbn [fst map].
    + now rewrite Hd.
    + specialize (IH count).
      destruct (visible_loop colList max sts count).
      cbn [fst map] in *. now rewrite Hd, IH.
Qed.

Lemma setVisible_keeps arg o :
  let o' := fst (fst (setUserDefinedVisibleCol arg o)) in
  statesMap o' = statesMap o
  /\ map dataEle (states o') = map dataEle (states o)
  /\ initDone o' = initDone o.
Proof.
  assert (H : forall b l,
             let o' := fst (fst (setUserDefinedVisibleCol_array b l o)) in
             statesMap o' = statesMap o
             /\ map dataEle (states o') = map dataEle (states o)
             /\ initDone o' = initDone o).
  { intros b l. unfold setUserDefinedVisibleCol_array.
    destruct (List.length l <? 2)%nat; [cbn; auto|].
    assert (Hd := dataEle_visible_loop l (maxColumnVisible o) (states o) 0).
    destruct (visible_loop l (maxColumnVisible o) (states o) 0) as [sts n].
    cbn [fst] in *. unfold setBoardColumnClass.
    match goal with
    | |- context [if ?c then _ else _] => destruct c
    end; cbn; auto. }
  destruct arg as [|s|l]; cbn [setUserDefinedVisibleCol].
  - cbn; auto.
  - destruct (String.eqb s ""); [cbn; auto|].
    destruct (negb (String.eqb (JS.toLowerCase s) "all"));
      [cbn; auto | apply H].
  - destruct l; apply H.
Qed.

Lemma all_cards_dataEle sts sts' :
  map dataEle sts' = map dataEle sts -> all_cards sts' = all_cards sts.
Proof.
  unfold all_cards. rewrite !flat_map_concat_map. now intros ->.
Qed.

Lemma all_cards_cleared sts :
  all_cards (map (fun s => set_dataEle [] (set_headerTotal 0 s)) sts) = [].
Proof.
  unfold all_cards. induction sts as [|s sts IH]; [reflexivity | exact IH].
Qed.

Lemma length_insert_items o ifb :
  forall sts, List.length (insert_items o ifb sts) = List.length sts.
Proof.
  unfold insert_items. generalize (JS.own_keys_order ifb). clear ifb.
  intros ifb.
  induction ifb as [|[k cs] ifb IH]; intros sts; cbn [fold_left fst snd];
    [reflexivity|].
  rewrite IH. destruct (smap_get k (statesMap o));
    [apply length_append_at | reflexivity].
Qed.

Section Passes.

Variable template : row -> option (list card) -> string.
Variable jq_data : string -> JS.value.

(** A pass leaves [opt] as it is but for the view of the states. *)
Lemma showItemsOnBoard_keeps thisOpt o :
  let res := showItemsOnBoard template jq_data thisOpt o in
  statesMap (r_board res) = statesMap o
  /\ List.length (states (r_board res)) = List.length (states o)
  /\ initDone (r_board res) = initDone o.
Proof.
  unfold showItemsOnBoard.
  match goal with
  | |- context [rows_loop template jq_data o thisOpt ?rs ?l0] =>
      assert (Hl := length_rows_loop template jq_data o thisOpt rs l0);
      set (l := rows_loop template jq_data o thisOpt rs l0) in *
  end.
  assert (Hl' : List.length (l_states l) = List.length (states o)).
  { rewrite Hl. cbn [l_states].
    destruct (negb (refresh thisOpt)); [apply length_map | reflexivity]. }
  assert (H2 : List.length (if doBoardInsert thisOpt
                            then insert_items o (itemsForBoard l) (l_states l)
                            else l_states l)
               = List.length (states o)).
  { destruct (doBoardInsert thisOpt);
      [now rewrite length_insert_items | exact Hl']. }
  destruct (initDone o && refresh thisOpt);
    cbn [remove_stale r_board states statesMap initDone set_states];
    unfold updBoardHeaders; rewrite ?length_map; auto.
Qed.

(** In full mode the loop leaves the columns alone. *)
Lemma l_states_full_mode o thisOpt rws :
  refresh thisOpt = false ->
  forall l,
    l_states (rows_loop template jq_data o thisOpt rws l) = l_states l.
Proof.
  intros Hr. unfold rows_loop.
  induction rws as [|r rws IH]; intros l; cbn [fold_left]; [reflexivity|].
  rewrite IH. unfold process_row.
  destruct (smap_get (row_state r) (statesMap o)); [|reflexivity].
  rewrite Hr. reflexivity.
Qed.

(** Without [initDone] the new cards carry no marker class. *)
Lemma new_cards_unmarked o thisOpt rws :
  initDone o = false ->
  forall l,
    (forall c, In c (flat_map snd (itemsForBoard l)) ->
               spwidget_temp c = false) ->
    forall c,
      In c (flat_map snd
              (itemsForBoard (rows_loop template jq_data o thisOpt rws l))) ->
      spwidget_temp c = false.
Proof.
  intros Hi. unfold rows_loop.
  induction rws as [|r rws IH]; intros l Hl; cbn [fold_left]; [exact Hl|].
  apply IH. intros c. unfold process_row.
  destruct (smap_get (row_state r) (statesMap o)); [|apply Hl].
  assert (Hadd : In c (flat_map snd
                         (itemsForBoard (add_item template o thisOpt r l))) ->
                 spwidget_temp c = false).
  { unfold add_item. cbn [itemsForBoard].
    destruct (String.eqb (template r None) ""); [apply Hl|].
    intros Hc. apply in_ifb_add in Hc as [->|Hc]; [|now apply Hl].
    cbn. now rewrite Hi. }
  destruct (negb (refresh thisOpt)); [exact Hadd|].
  destruct (find_items (ID r) (l_states l)); [exact Hadd|].
  apply Hl.
Qed.

(** The board [showBoard] creates is ready. *)
Theorem created_board_ready :
  forall user cols lk items o evs,
    showBoard template jq_data user cols lk items = Some (o, evs) ->
    ready o.
Proof.
  intros user cols lk items o evs. unfold showBoard.
  destruct (String.eqb (o_field user) ""); [discriminate|].
  destruct (getBoardStates cols lk (new_board user)) as [o0|] eqn:Hg;
    [|discriminate].
  assert (Hr0 := in_range_getBoardStates _ _ _ Hg).
  assert (Hi0 : initDone o0 = false)
    by (now rewrite (EventFacts.initDone_getBoardStates _ _ _ Hg)).
  set (o1 := init_columns o0).
  assert (Hi1 : initDone o1 = false)
    by (unfold o1; now rewrite EventFacts.initDone_init_columns).
  assert (Hr1 : statesMap_in_range o1 = true).
  { unfold o1, init_columns.
    assert (Hb : statesMap_in_range (build_columns o0) = true).
    { transitivity (statesMap_in_range o0); [|exact Hr0].
      apply in_range_same.
      - unfold build_columns.
        destruct (Z.of_nat (List.length (states o0)) <=? maxColumnVisible o0)%Z;
          reflexivity.
      - unfold build_columns. cbn [states set_states].
        rewrite length_build_columns_from.
        destruct (Z.of_nat (List.length (states o0)) <=? maxColumnVisible o0)%Z;
          reflexivity. }
    destruct (colPickerVisible (build_columns o0)) as [|a l]; [exact Hb|].
    transitivity (statesMap_in_range (build_columns o0)); [|exact Hb].
    destruct (setVisible_keeps (ArgArray (a :: l)) (build_columns o0))
      as (Hm & Hd & _).
    apply in_range_same; [exact Hm|].
    rewrite <- (length_map dataEle), Hd. apply length_map. }
  unfold init_items. intros H. injection H as <- _.
  set (o2 := set_listItems items o1).
  destruct (showItemsOnBoard_keeps (full_mode o2) o2) as (Hm & Hlen & Hi).
  split; [reflexivity|]. split.
  - transitivity (statesMap_in_range o1); [|exact Hr1].
    apply in_range_same; [exact Hm | exact Hlen].
  - cbn [states set_initDone].
    unfold showItemsOnBoard. cbn [refresh full_mode negb doBoardInsert].
    replace (initDone o2) with false by (symmetry; exact Hi1).
    cbn [andb r_board states set_states].
    unfold no_temp. rewrite all_cards_updBoardHeaders.
    apply forallb_forall. intros c Hc.
    match type of Hc with
    | In c (all_cards (insert_items o2 (itemsForBoard ?l) (l_states ?l))) =>
        destruct (all_cards_insert_items o2 (itemsForBoard l) (l_states l))
          as (extra & Hp & Hincl);
        apply (Permutation_in _ Hp) in Hc;
        assert (Hst : all_cards (l_states l) = [])
    end.
    { rewrite l_states_full_mode by reflexivity. cbn [l_states].
      apply all_cards_cleared. }
    rewrite Hst in Hc. cbn [app] in Hc. apply Hincl in Hc.
    apply (new_cards_unmarked o2 (full_mode o2) (listItems o2)) in Hc.
    + now rewrite Hc.
    + exact Hi1.
    + intros c' [].
Qed.

(** A refresh of a ready board leaves a ready board. *)
Theorem refresh_keeps_ready :
  forall items o,
    ready o ->
    ready (r_board (method_refresh template jq_data items o)).
Proof.
  intros items o (Hi & Hr & _). unfold method_refresh.
  set (o1 := set_listItems items o).
  destruct (showItemsOnBoard_keeps (refresh_mode o1) o1) as (Hm & Hlen & Hi').
  split; [now rewrite Hi'|]. split.
  - transitivity (statesMap_in_range o); [|exact Hr].
    apply in_range_same; assumption.
  - destruct (showItemsOnBoard_refresh template jq_data (refresh_mode o1) o1)
      as (Hst & _); [exact Hi | reflexivity|].
    rewrite Hst. unfold no_temp.
    rewrite all_cards_updBoardHeaders, all_cards_remove_stale.
    apply forallb_forall. intros c Hc.
    apply in_map_iff in Hc as (c0 & <- & _). reflexivity.
Qed.

(** So does a call of [setVisible]. *)
Theorem setVisible_keeps_ready :
  forall arg o, ready o -> ready (fst (method_setVisible arg o)).
Proof.
  intros arg o (Hi & Hr & Hc). unfold method_setVisible.
  destruct (setVisible_keeps arg o) as (Hm & Hd & Hi').
  split; [now rewrite Hi'|]. split.
  - transitivity (statesMap_in_range o); [|exact Hr].
    apply in_range_same; [exact Hm|].
    rewrite <- (length_map dataEle), Hd. apply length_map.
  - unfold no_temp. now rewrite (all_cards_dataEle _ _ Hd).
Qed.

End Passes.

End ReconcileFacts.

(* ===================================================================== *)
(** ** The engine on the [Status] board *)
(* ===================================================================== *)

Module ReconcileExamples.
Import Board Notions.

Lemma secondPass_is_refresh :
  Fixtures.secondPass
  = method_refresh Fixtures.titleTemplate Fixtures.plainData
                   Fixtures.secondFetch Fixtures.statusBoard.
Proof. reflexivity. Qed.

Lemma secondPass_classes :
  map ID (r_added Fixtures.secondPass) = ["3"]
  /\ r_removed Fixtures.secondPass = [None]
  /\ map ID (r_moved Fixtures.secondPass) = ["2"].
Proof. vm_compute. auto. Qed.



(** C2, on the second fetch: the add event of item 3. *)
Lemma events_witness :
  initDone Fixtures.refreshed = true /\ r_added Fixtures.secondPass <> [].
Proof.
  refine (proj1 (proj2 (@EventFacts.events_only_when_due
                          Fixtures.titleTemplate Fixtures.plainData
                          (refresh_mode Fixtures.refreshed) Fixtures.refreshed)) _ _).
  vm_compute. left. reflexivity.
Defined.


End ReconcileExamples.


(* ===================================================================== *)
(** ** More on the field domain *)
(* ===================================================================== *)

Module DomainMore.
Import Board Notions MoreNotions.

Lemma smap_get_set k' k i m :
  smap_get k' (smap_set k i m)
  = if String.eqb k' k then Some i else smap_get k' m.
Proof.
  induction m as [|[k0 j] m IH]; cbn [smap_set smap_get].
  - destruct (String.eqb k' k); reflexivity.
  - destruct (String.eqb k k0) eqn:E; cbn [smap_get].
    + apply String.eqb_eq in E. subst k0.
      destruct (String.eqb k' k); reflexivity.
    + destruct (String.eqb k' k0) eqn:E'.
      * apply String.eqb_eq in E'. subst k0.
        rewrite String.eqb_sym, E. reflexivity.
      * exact IH.
Qed.

(** The loop over the values of a choice column pushes, in their order,
    the values among the first [maxColumns] that go through the filter. *)
Lemma choice_values_states filter vals :
  forall i o,
    states (choice_values filter vals i o)
    = states o
        ++ map (fun v => mkState choice v v)
               (List.filter (passes filter) (firstn (maxColumns - i) vals)).
Proof.
  induction vals as [|v vals IH]; intros i o; cbn [choice_values].
  - rewrite firstn_nil. cbn. now rewrite app_nil_r.
  - assert (Hp : passes filter v
                 = negb match filter with
                        | Some fl => negb (JS.inArray v fl)
                        | None => false
                        end).
    { unfold passes. destruct filter; [now rewrite negb_involutive|reflexivity]. }
    destruct (match filter with
              | Some fl => negb (JS.inArray v fl)
              | None => false
              end); cbn [negb] in Hp.
    + rewrite IH. f_equal. f_equal.
      destruct (maxColumns - i) as [|n] eqn:E.
      * replace (maxColumns - S i) with 0 by lia. reflexivity.
      * replace (maxColumns - S i) with n by lia.
        cbn [firstn List.filter]. now rewrite Hp.
    + destruct (maxColumns <=? i)%nat eqn:Hle.
      * apply Nat.leb_le in Hle.
        replace (maxColumns - i) with 0 by lia.
        cbn. now rewrite app_nil_r.
      * apply Nat.leb_gt in Hle. rewrite IH.
        unfold push_state. cbn [states set_states set_statesMap].
        replace (maxColumns - i) with (S (maxColumns - S i)) by lia.
        cbn [firstn List.filter]. rewrite Hp. cbn [map].
        now rewrite <- app_assoc.
Qed.

Lemma lookup_rows_states rws :
  forall i o,
    states (lookup_rows rws i o)
    = states o
        ++ map (fun r => mkState lookup (lk_show r) (lookup_name r))
               (firstn (maxColumns - i) rws).
Proof.
  induction rws as [|r rws IH]; intros i o; cbn [lookup_rows].
  - rewrite firstn_nil. cbn. now rewrite app_nil_r.
  - destruct (maxColumns <=? i)%nat eqn:Hle.
    + apply Nat.leb_le in Hle.
      replace (maxColumns - i) with 0 by lia.
      cbn. now rewrite app_nil_r.
    + apply Nat.leb_gt in Hle. rewrite IH.
      unfold push_state. cbn [states set_states set_statesMap].
      replace (maxColumns - i) with (S (maxColumns - S i)) by lia.
      cbn [firstn map]. now rewrite <- app_assoc.
Qed.

Lemma note_field_filter user f :
  fieldFilter (note_field f (new_board user)) = o_fieldFilter user.
Proof.
  unfold note_field.
  destruct (String.eqb (f_Required f) "TRUE"); cbn;
    destruct (o_allowFieldBlanks user); reflexivity.
Qed.

(** The head of [getBoardStates] for a choice field. *)
Lemma getBoardStates_choice user f lk :
  JS.toLowerCase (f_Type f) = "choice" ->
  getBoardStates (Fetched (Some f)) lk (new_board user)
  = Resolved
      (choice_values (choice_filter user) (f_columnValues f) 0
         (if negb (required_after user f)
          then push_state "" (mkState choice (o_optionalLabel user)
                                      (o_optionalLabel user))
                          (note_field f (new_board user))
          else note_field f (new_board user))).
Proof.
  intros Hty. unfold getBoardStates. rewrite Hty.
  cbn [String.eqb Ascii.eqb Bool.eqb].
  destruct (DomainFacts.note_field_new_board user f) as (Hr & _ & _ & Hl).
  rewrite Hr, Hl. unfold choice_filter.
  destruct (required_after user f); cbn [negb]; unfold push_state;
    cbn [fieldFilter set_states set_statesMap];
    rewrite note_field_filter; reflexivity.
Qed.

Lemma getBoardStates_lookup user f rws :
  JS.toLowerCase (f_Type f) = "lookup" ->
  getBoardStates (Fetched (Some f)) (Fetched rws) (new_board user)
  = Resolved
      (lookup_rows rws 0
         (if negb (required_after user f)
          then push_state "" (mkState lookup (o_optionalLabel user) "")
                          (note_field f (new_board user))
          else note_field f (new_board user))).
Proof.
  intros Hty. unfold getBoardStates. rewrite Hty.
  cbn [String.eqb Ascii.eqb Bool.eqb].
  destruct (DomainFacts.note_field_new_board user f) as (Hr & _ & _ & Hl).
  rewrite Hr, Hl. reflexivity.
Qed.

(** X1.  The states of a choice field are, after the blank state if the
    field is not required, the values of the field in their order, kept
    when they stand among the first [maxColumns] values and go through
    the filter; name and title are the value.  So there are at most
    [maxColumns] of them besides the blank state. *)
Theorem choice_states_are_the_filtered_values :
  forall (user : options) (f : listColumn) (lk : remote (list lookupRow)),
    JS.toLowerCase (f_Type f) = "choice" ->
    exists o,
      getBoardStates (Fetched (Some f)) lk (new_board user) = Resolved o
      /\ map name (states o)
         = blank_names (required_after user f) (o_optionalLabel user)
             ++ List.filter (passes (choice_filter user))
                            (firstn maxColumns (f_columnValues f))
      /\ map title (states o) = map name (states o)
      /\ List.length (states o) <= S maxColumns.
Proof.
  intros user f lk Hty. eexists. split; [now apply getBoardStates_choice|].
  rewrite choice_values_states. rewrite Nat.sub_0_r.
  destruct (DomainFacts.note_field_new_board user f) as (_ & Hs & _ & _).
  assert (Hb : states (if negb (required_after user f)
                       then push_state ""
                              (mkState choice (o_optionalLabel user)
                                       (o_optionalLabel user))
                              (note_field f (new_board user))
                       else note_field f (new_board user))
               = if required_after user f then []
                 else [mkState choice (o_optionalLabel user)
                               (o_optionalLabel user)]).
  { destruct (required_after user f); cbn [negb];
      unfold push_state; cbn [states set_states set_statesMap];
      now rewrite Hs. }
  rewrite Hb, !map_app, !map_map. cbn [name title mkState].
  rewrite !map_id. unfold blank_names.
  split; [|split].
  - destruct (required_after user f); reflexivity.
  - destruct (required_after user f); reflexivity.
  - rewrite length_app, length_map.
    assert (List.length (List.filter (passes (choice_filter user))
                           (firstn maxColumns (f_columnValues f)))
            <= maxColumns).
    { etransitivity; [apply filter_length_le|]. apply firstn_le_length. }
    destruct (required_after user f); cbn [List.length]; lia.
Qed.

(** X1, on the [Status] column. *)
Lemma choice_states_witness :
  exists o,
    getBoardStates (Fetched (Some Fixtures.statusColumn)) Failed
                   (new_board (defaults "Status")) = Resolved o
    /\ map name (states o)
       = ["(none)"; "Not Started"; "In Progress"; "Done"].
Proof.
  destruct (choice_states_are_the_filtered_values
              (defaults "Status") Fixtures.statusColumn Failed eq_refl)
    as (o & Ho & Hn & _).
  exists o. split; [exact Ho | exact Hn].
Defined.

(** X2.  The states of a lookup field are, after the blank state if the
    field is not required, the first [maxColumns] rows of the lookup list
    in their order: the title is the shown field of the row, the name is
    the identifier, [";#"] and the shown field. *)
Theorem lookup_states_are_the_first_rows :
  forall (user : options) (f : listColumn) (rws : list lookupRow),
    JS.toLowerCase (f_Type f) = "lookup" ->
    exists o,
      getBoardStates (Fetched (Some f)) (Fetched rws) (new_board user)
      = Resolved o
      /\ map name (states o)
         = blank_names (required_after user f) ""
             ++ map lookup_name (firstn maxColumns rws)
      /\ map title (states o)
         = blank_names (required_after user f) (o_optionalLabel user)
             ++ map lk_show (firstn maxColumns rws)
      /\ List.length (states o) <= S maxColumns.
Proof.
  intros user f rws Hty. eexists. split; [now apply getBoardStates_lookup|].
  rewrite lookup_rows_states. rewrite Nat.sub_0_r.
  destruct (DomainFacts.note_field_new_board user f) as (_ & Hs & _ & _).
  assert (Hb : states (if negb (required_after user f)
                       then push_state ""
                              (mkState lookup (o_optionalLabel user) "")
                              (note_field f (new_board user))
                       else note_field f (new_board user))
               = if required_after user f then []
                 else [mkState lookup (o_optionalLabel user) ""]).
  { destruct (required_after user f); cbn [negb];
      unfold push_state; cbn [states set_states set_statesMap];
      now rewrite Hs. }
  rewrite Hb, !map_app, !map_map. cbn [name title mkState].
  unfold blank_names.
  split; [|split].
  - destruct (required_after user f); reflexivity.
  - destruct (required_after user f); reflexivity.
  - rewrite length_app, length_map.
    assert (List.length (firstn maxColumns rws) <= maxColumns)
      by apply firstn_le_length.
    destruct (required_after user f); cbn [List.length]; lia.
Qed.

(** X2, on the [Project] column. *)
Lemma lookup_states_witness :
  exists o,
    getBoardStates (Fetched (Some Fixtures.projectColumn))
                   (Fetched Fixtures.projects)
                   (new_board (defaults "Project")) = Resolved o
    /\ map name (states o) = [""; "1;#Alpha"; "2;#Beta"].
Proof.
  destruct (lookup_states_are_the_first_rows
              (defaults "Project") Fixtures.projectColumn Fixtures.projects
              eq_refl)
    as (o & Ho & Hn & _).
  exists o. split; [exact Ho | exact Hn].
Defined.

(** Both loops are a sequence of pushes, one for each value shown. *)
Lemma choice_values_push_all filter vals :
  forall i o,
    choice_values filter vals i o
    = push_all (fun v => v) (fun v => mkState choice v v)
               (List.filter (passes filter) (firstn (maxColumns - i) vals)) o.
Proof.
  unfold push_all.
  induction vals as [|v vals IH]; intros i o; cbn [choice_values].
  - now rewrite firstn_nil.
  - assert (Hp : passes filter v
                 = negb match filter with
                        | Some fl => negb (JS.inArray v fl)
                        | None => false
                        end).
    { unfold passes. destruct filter; [now rewrite negb_involutive|reflexivity]. }
    destruct (match filter with
              | Some fl => negb (JS.inArray v fl)
              | None => false
              end); cbn [negb] in Hp.
    + rewrite IH. f_equal.
      destruct (maxColumns - i) as [|n] eqn:E.
      * replace (maxColumns - S i) with 0 by lia. reflexivity.
      * replace (maxColumns - S i) with n by lia.
        cbn [firstn List.filter]. now rewrite Hp.
    + destruct (maxColumns <=? i)%nat eqn:Hle.
      * apply Nat.leb_le in Hle.
        replace (maxColumns - i) with 0 by lia. reflexivity.
      * apply Nat.leb_gt in Hle. rewrite IH.
        replace (maxColumns - i) with (S (maxColumns - S i)) by lia.
        cbn [firstn List.filter]. rewrite Hp. reflexivity.
Qed.

Lemma lookup_rows_push_all rws :
  forall i o,
    lookup_rows rws i o
    = push_all lookup_name
               (fun r => mkState lookup (lk_show r) (lookup_name r))
               (firstn (maxColumns - i) rws) o.
Proof.
  unfold push_all.
  induction rws as [|r rws IH]; intros i o; cbn [lookup_rows].
  - now rewrite firstn_nil.
  - destruct (maxColumns <=? i)%nat eqn:Hle.
    + apply Nat.leb_le in Hle.
      replace (maxColumns - i) with 0 by lia. reflexivity.
    + apply Nat.leb_gt in Hle. rewrite IH.
      replace (maxColumns - i) with (S (maxColumns - S i)) by lia.
      reflexivity.
Qed.

Lemma nth_error_push k s o i s0 :
  nth_error (states o) i = Some s0 ->
  nth_error (states (push_state k s o)) i = Some s0.
Proof.
  intros H. unfold push_state. cbn [states set_states set_statesMap].
  rewrite nth_error_app1; [exact H|].
  apply nth_error_Some. congruence.
Qed.

Lemma nth_error_pushed k s o :
  nth_error (states (push_state k s o)) (List.length (states o)) = Some s.
Proof.
  unfold push_state. cbn [states set_states set_statesMap].
  rewrite nth_error_app2 by lia. now rewrite Nat.sub_diag.
Qed.

Lemma smap_get_push k' k s o :
  smap_get k' (statesMap (push_state k s o))
  = if String.eqb k' k then Some (List.length (states o))
    else smap_get k' (statesMap o).
Proof.
  unfold push_state. cbn [statesMap set_states set_statesMap].
  apply smap_get_set.
Qed.

Lemma keys_sound_push label k s o :
  keys_sound label o -> keyed label k s ->
  keys_sound label (push_state k s o).
Proof.
  intros Ho Hk k' i Hget. rewrite smap_get_push in Hget.
  destruct (String.eqb k' k) eqn:E.
  - apply String.eqb_eq in E. subst k'. injection Hget as <-.
    exists s. split; [apply nth_error_pushed | exact Hk].
  - destruct (Ho k' i Hget) as (s0 & Hn & Hs0).
    exists s0. split; [now apply nth_error_push | exact Hs0].
Qed.

Lemma keys_sound_push_all (A : Type) label (nm : A -> string) mk vs :
  (forall v, name (mk v) = nm v) ->
  forall o, keys_sound label o -> keys_sound label (push_all nm mk vs o).
Proof.
  intros Hnm. unfold push_all.
  induction vs as [|v vs IH]; intros o Ho; cbn [fold_left]; [exact Ho|].
  apply IH. apply keys_sound_push; [exact Ho|]. left. apply Hnm.
Qed.

Lemma keys_complete_push (A : Type) (nm : A -> string) vs k s o :
  name s = k ->
  keys_complete nm vs o -> keys_complete nm vs (push_state k s o).
Proof.
  intros Hs Ho v Hv. destruct (Ho v Hv) as (i & s0 & Hget & Hn & Hname).
  destruct (String.eqb (nm v) k) eqn:E.
  - exists (List.length (states o)), s.
    rewrite smap_get_push, E. split; [reflexivity|].
    split; [apply nth_error_pushed|].
    apply String.eqb_eq in E. congruence.
  - exists i, s0. rewrite smap_get_push, E.
    split; [exact Hget|]. split; [now apply nth_error_push | exact Hname].
Qed.

Lemma keys_complete_push_all (A : Type) (nm : A -> string) mk vs :
  (forall v, name (mk v) = nm v) ->
  forall o vs0,
    keys_complete nm vs0 o ->
    keys_complete nm (vs0 ++ vs) (push_all nm mk vs o).
Proof.
  intros Hnm. unfold push_all.
  induction vs as [|v vs IH]; intros o vs0 Ho; cbn [fold_left].
  - now rewrite app_nil_r.
  - replace (vs0 ++ v :: vs) with ((vs0 ++ [v]) ++ vs)
      by (now rewrite <- app_assoc).
    apply IH. intros w Hw. apply in_app_or in Hw as [Hw|[<-|[]]].
    + assert (Hc : keys_complete nm vs0 (push_state (nm v) (mk v) o))
        by (apply keys_complete_push; [apply Hnm | exact Ho]).
      exact (Hc w Hw).
    + exists (List.length (states o)), (mk v).
      rewrite smap_get_push, String.eqb_refl.
      split; [reflexivity|]. split; [apply nth_error_pushed | apply Hnm].
Qed.

Lemma keys_sound_start label user f :
  keys_sound label (note_field f (new_board user)).
Proof.
  intros k i Hget.
  destruct (DomainFacts.note_field_new_board user f) as (_ & _ & Hm & _).
  rewrite Hm in Hget. discriminate.
Qed.

(** X3.  On a resolved board every key of [opt.statesMap] stands for a
    state of [opt.states], and that state carries the key as its name; the
    one exception is the key [""] of a choice field, which stands for the
    blank state named by the label. *)
Theorem statesMap_keys_name_their_state :
  forall user cols lk o,
    getBoardStates cols lk (new_board user) = Resolved o ->
    keys_sound (o_optionalLabel user) o.
Proof.
  intros user cols lk o. unfold getBoardStates.
  destruct cols as [[f|]|]; try discriminate.
  destruct (DomainFacts.note_field_new_board user f) as (_ & _ & _ & Hl).
  assert (H0 := keys_sound_start (o_optionalLabel user) user f).
  destruct (String.eqb (JS.toLowerCase (f_Type f)) "choice").
  - intros H. injection H as <-. rewrite choice_values_push_all.
    apply keys_sound_push_all; [reflexivity|].
    destruct (negb (isStateRequired (note_field f (new_board user))));
      [|exact H0].
    apply keys_sound_push; [exact H0|]. right. rewrite Hl. auto.
  - destruct (String.eqb (JS.toLowerCase (f_Type f)) "lookup");
      [|discriminate].
    destruct lk as [rs|]; [|discriminate].
    intros H. injection H as <-. rewrite lookup_rows_push_all.
    apply keys_sound_push_all; [reflexivity|].
    destruct (negb (isStateRequired (note_field f (new_board user))));
      [|exact H0].
    apply keys_sound_push; [exact H0|]. now left.
Qed.

(** X3, on the [Project] board: the key ["2;#Beta"]. *)
Lemma statesMap_keys_witness :
  exists o s,
    getBoardStates (Fetched (Some Fixtures.projectColumn))
                   (Fetched Fixtures.projects)
                   (new_board (defaults "Project")) = Resolved o
    /\ nth_error (states o) 2 = Some s
    /\ keyed "(none)" "2;#Beta" s.
Proof.
  eexists.
  destruct (@statesMap_keys_name_their_state
              (defaults "Project") (Fetched (Some Fixtures.projectColumn))
              (Fetched Fixtures.projects) _ eq_refl "2;#Beta" 2 eq_refl)
    as (s & Hn & Hk).
  exists s. split; [reflexivity|]. split; assumption.
Defined.

(** X4.  Every value shown of a choice field is a key of
    [opt.statesMap], and stands for a state named by the value: a row
    whose field holds a shown value always finds its column.  Likewise
    every row shown of a lookup list, through its internal name. *)
Theorem shown_values_are_keys :
  forall (user : options) (f : listColumn),
    (JS.toLowerCase (f_Type f) = "choice" ->
     forall lk, exists o,
       getBoardStates (Fetched (Some f)) lk (new_board user) = Resolved o
       /\ keys_complete (fun v : string => v)
            (List.filter (passes (choice_filter user))
                         (firstn maxColumns (f_columnValues f))) o)
    /\ (JS.toLowerCase (f_Type f) = "lookup" ->
        forall rws, exists o,
          getBoardStates (Fetched (Some f)) (Fetched rws) (new_board user)
          = Resolved o
          /\ keys_complete lookup_name (firstn maxColumns rws) o).
Proof.
  intros user f. split; intros Hty.
  - intros lk. eexists. split; [now apply getBoardStates_choice|].
    rewrite choice_values_push_all, Nat.sub_0_r.
    apply (@keys_complete_push_all string (fun v => v)
             (fun v => mkState choice v v) _ (fun v => eq_refl) _ []).
    intros v [].
  - intros rws. eexists. split; [now apply getBoardStates_lookup|].
    rewrite lookup_rows_push_all, Nat.sub_0_r.
    apply (@keys_complete_push_all lookupRow lookup_name
             (fun r => mkState lookup (lk_show r) (lookup_name r))
             _ (fun v => eq_refl) _ []).
    intros v [].
Qed.

(** X4, on the [Status] column: the value ["Done"]. *)
Lemma shown_values_witness :
  exists o,
    getBoardStates (Fetched (Some Fixtures.statusColumn)) Failed
                   (new_board (defaults "Status")) = Resolved o
    /\ exists i s,
        smap_get "Done" (statesMap o) = Some i
        /\ nth_error (states o) i = Some s /\ name s = "Done".
Proof.
  destruct (proj1 (shown_values_are_keys (defaults "Status")
                     Fixtures.statusColumn) eq_refl Failed)
    as (o & Ho & Hc).
  exists o. split; [exact Ho|].
  apply (Hc "Done"). vm_compute. auto.
Defined.

(** X5.  [getBoardStates] resolves exactly when the field is found and is
    a choice field, or a lookup field whose list could be read; in every
    other case it is rejected, with the status ["error"]. *)
Theorem getBoardStates_resolves_iff :
  forall cols lk o,
    (exists o', getBoardStates cols lk o = Resolved o')
    <-> exists f,
          cols = Fetched (Some f)
          /\ (JS.toLowerCase (f_Type f) = "choice"
              \/ (JS.toLowerCase (f_Type f) = "lookup"
                  /\ exists rws, lk = Fetched rws)).
Proof.
  intros cols lk o. unfold getBoardStates, rejectDeferred. split.
  - intros [o' H]. destruct cols as [[f|]|]; try discriminate.
    exists f. split; [reflexivity|].
    destruct (String.eqb (JS.toLowerCase (f_Type f)) "choice") eqn:Ec.
    + left. now apply String.eqb_eq.
    + destruct (String.eqb (JS.toLowerCase (f_Type f)) "lookup") eqn:El;
        [|discriminate].
      right. split; [now apply String.eqb_eq|].
      destruct lk as [rws|]; [eauto | discriminate].
  - intros (f & -> & [Hc | (Hl & rws & ->)]).
    + rewrite Hc. cbn [String.eqb Ascii.eqb Bool.eqb]. eauto.
    + rewrite Hl. cbn [String.eqb Ascii.eqb Bool.eqb]. eauto.
Qed.

Lemma getBoardStates_rejects_with_error cols lk o msg status :
  getBoardStates cols lk o = Rejected msg status -> status = "error".
Proof.
  unfold getBoardStates, rejectDeferred.
  destruct cols as [[f|]|]; try (intros H; now injection H).
  destruct (String.eqb (JS.toLowerCase (f_Type f)) "choice");
    [discriminate|].
  destruct (String.eqb (JS.toLowerCase (f_Type f)) "lookup").
  - destruct lk; [discriminate | intros H; now injection H].
  - intros H; now injection H.
Qed.

End DomainMore.


(* ===================================================================== *)
(** ** More on the column model *)
(* ===================================================================== *)

Module VisibilityMore.
Import Board Notions MoreNotions.

Lemma build_columns_from_nth max :
  forall sts i0 i s,
    nth_error (build_columns_from max i0 sts) i = Some s ->
    exists s0,
      nth_error sts i = Some s0
      /\ s = build_column max (i0 + i) s0.
Proof.
  induction sts as [|v sts IH]; intros i0 i s H; cbn [build_columns_from] in H.
  - destruct i; discriminate.
  - destruct i as [|i]; cbn [nth_error] in *.
    + injection H as <-. exists v. now rewrite Nat.add_0_r.
    + destruct (IH (S i0) i s H) as (s0 & Hn & Hs).
      exists s0. split; [exact Hn|].
      now replace (i0 + S i) with (S i0 + i) by lia.
Qed.

Lemma states_build_columns o :
  states (build_columns o)
  = build_columns_from (maxColumnVisible o) 0 (states o).
Proof.
  unfold build_columns.
  destruct (Z.of_nat (List.length (states o)) <=? maxColumnVisible o)%Z;
    reflexivity.
Qed.

(** X6.  The build loop leaves the columns in the order of the states,
    with their name, title and type, empty, and visible exactly up to the
    [maxColumnVisible]-th; the hidden class is on the others. *)
Theorem build_shows_the_first_columns :
  forall (o : board) (i : nat) (s : state),
    nth_error (states (build_columns o)) i = Some s ->
    isVisible s = (Z.of_nat i <? maxColumnVisible o)%Z
    /\ cssHidden s = negb (isVisible s)
    /\ dataEle s = []
    /\ exists s0,
        nth_error (states o) i = Some s0
        /\ name s = name s0 /\ title s = title s0 /\ type s = type s0.
Proof.
  intros o i s H. rewrite states_build_columns in H.
  destruct (build_columns_from_nth _ _ _ _ H) as (s0 & Hn & ->).
  cbn [Nat.add]. unfold build_column.
  destruct (maxColumnVisible o - 1 <? Z.of_nat i)%Z eqn:E;
    cbn [isVisible cssHidden dataEle name title type set_visibility
         set_dataEle set_headerTotal negb].
  - apply Z.ltb_lt in E.
    assert (Hf : (Z.of_nat i <? maxColumnVisible o)%Z = false)
      by (apply Z.ltb_ge; lia).
    rewrite Hf. repeat split; eauto.
  - apply Z.ltb_ge in E.
    assert (Ht : (Z.of_nat i <? maxColumnVisible o)%Z = true)
      by (apply Z.ltb_lt; lia).
    rewrite Ht. repeat split; eauto.
Qed.

(** X6, on the board of twelve columns: the eleventh is hidden. *)
Lemma build_shows_witness :
  exists s,
    nth_error (states Fixtures.wideBoard) 10 = Some s
    /\ name s = "c11" /\ isVisible s = false.
Proof.
  assert (Hg : exists o0,
             getBoardStates (Fetched (Some Fixtures.wideColumn)) (Fetched [])
                            (new_board (defaults "Step")) = Resolved o0
             /\ states Fixtures.wideBoard = states (build_columns o0)
             /\ maxColumnVisible o0 = 10%Z
             /\ option_map name (nth_error (states o0) 10) = Some "c11").
  { eexists. split; [vm_compute; reflexivity|].
    split; [vm_compute; reflexivity|].
    split; vm_compute; reflexivity. }
  destruct Hg as (o0 & _ & Hst & Hmax & Hnm).
  destruct (nth_error (states Fixtures.wideBoard) 10) as [s|] eqn:E;
    [|discriminate].
  exists s. split; [reflexivity|].
  rewrite Hst in E.
  destruct (build_shows_the_first_columns o0 10 E)
    as (Hv & _ & _ & s0 & Hn0 & Hname & _).
  rewrite Hn0 in Hnm. cbn in Hnm. injection Hnm as Hnm.
  split; [congruence|]. rewrite Hv, Hmax. reflexivity.
Defined.

(* ------------------------------------------------------------------- *)
(** *** [setUserDefinedVisibleCol] *)

Lemma frame_show_hide colList colDef :
  frame (if in_colList colList colDef
         then show_col colDef else hide_col colDef)
  = frame colDef.
Proof.
  unfold show_col, hide_col.
  destruct (in_colList colList colDef); [|reflexivity].
  destruct (negb (isVisible colDef)); reflexivity.
Qed.

Lemma frame_visible_loop colList max :
  forall sts count,
    map frame (fst (visible_loop colList max sts count)) = map frame sts.
Proof.
  induction sts as [|s sts IH]; intros count; [reflexivity|].
  cbn [visible_loop].
  assert (Hd := frame_show_hide colList s).
  destruct (in_colList colList s).
  - destruct (max <=? count + 1)%Z; cbn [fst map].
    + now rewrite Hd.
    + specialize (IH (count + 1)%Z).
      destruct (visible_loop colList max sts (count + 1)).
      cbn [fst map] in *. now rewrite Hd, IH.
  - destruct (max <=? count)%Z; cbn [fst map].
    + now rewrite Hd.
    + specialize (IH count).
      destruct (visible_loop colList max sts count).
      cbn [fst map] in *. now rewrite Hd, IH.
Qed.

(** X7.  Whatever its argument, [setUserDefinedVisibleCol] neither adds,
    removes nor reorders a column, and touches neither the name, the
    title, the type, the header total nor the cards of any; the map of the
    states, the items and [initDone] stay as they are.  Only the
    visibility can change. *)
Theorem setVisible_only_changes_visibility :
  forall (arg : colListArg) (o : board),
    let o' := fst (fst (setUserDefinedVisibleCol arg o)) in
    map frame (states o') = map frame (states o)
    /\ statesMap o' = statesMap o
    /\ listItems o' = listItems o
    /\ initDone o' = initDone o
    /\ maxColumnVisible o' = maxColumnVisible o.
Proof.
  intros arg o.
  assert (H : forall b l,
             let o' := fst (fst (setUserDefinedVisibleCol_array b l o)) in
             map frame (states o') = map frame (states o)
             /\ statesMap o' = statesMap o
             /\ listItems o' = listItems o
             /\ initDone o' = initDone o
             /\ maxColumnVisible o' = maxColumnVisible o).
  { intros b l. unfold setUserDefinedVisibleCol_array.
    destruct (List.length l <? 2)%nat; [cbn; auto|].
    assert (Hd := frame_visible_loop l (maxColumnVisible o) (states o) 0).
    destruct (visible_loop l (maxColumnVisible o) (states o) 0) as [sts n].
    cbn [fst] in *. unfold setBoardColumnClass.
    match goal with
    | |- context [if ?c then _ else _] => destruct c
    end; cbn; auto. }
  destruct arg as [|s|l]; cbn [setUserDefinedVisibleCol].
  - cbn; auto.
  - destruct (String.eqb s ""); [cbn; auto|].
    destruct (negb (String.eqb (JS.toLowerCase s) "all"));
      [cbn; auto | apply H].
  - destruct l; apply H.
Qed.

Lemma setVisible_array_keeps_shape l o :
  2 <= List.length l ->
  let o' := fst (fst (setUserDefinedVisibleCol_array false l o)) in
  List.length (states o') = List.length (states o)
  /\ statesMap o' = statesMap o
  /\ initDone o' = initDone o.
Proof.
  intros _. unfold setUserDefinedVisibleCol_array.
  destruct (List.length l <? 2)%nat; [cbn; auto|].
  assert (Hd := frame_visible_loop l (maxColumnVisible o) (states o) 0).
  destruct (visible_loop l (maxColumnVisible o) (states o) 0) as [sts n].
  cbn [fst] in *. apply (f_equal (@List.length _)) in Hd.
  rewrite !length_map in Hd. unfold setBoardColumnClass.
  match goal with
  | |- context [if ?c then _ else _] => destruct c
  end; cbn; auto.
Qed.

Lemma in_colList_show_hide colList l colDef :
  in_colList l (if in_colList colList colDef
                then show_col colDef else hide_col colDef)
  = in_colList l colDef.
Proof.
  unfold in_colList, show_col, hide_col.
  destruct (JS.inArray (title colDef) colList
            || JS.inArray (name colDef) colList); [|reflexivity].
  destruct (negb (isVisible colDef)); reflexivity.
Qed.

Lemma show_col_idem colDef : show_col (show_col colDef) = show_col colDef.
Proof.
  unfold show_col. destruct (isVisible colDef) eqn:E; cbn; [now rewrite E|].
  reflexivity.
Qed.

(** Running the loop again on its own result changes nothing. *)
Lemma visible_loop_idem colList max :
  forall sts count,
    visible_loop colList max
                 (fst (visible_loop colList max sts count)) count
    = visible_loop colList max sts count.
Proof.
  induction sts as [|s sts IH]; intros count; [reflexivity|].
  cbn [visible_loop].
  destruct (in_colList colList s) eqn:Hin.
  - assert (Hin' : in_colList colList (show_col s) = true).
    { rewrite <- Hin. generalize (in_colList_show_hide colList colList s).
      now rewrite Hin. }
    destruct (max <=? count + 1)%Z eqn:Hmax; cbn [fst].
    + cbn [visible_loop]. rewrite Hin', Hmax, show_col_idem. reflexivity.
    + specialize (IH (count + 1)%Z).
      destruct (visible_loop colList max sts (count + 1)) as [rest n].
      cbn [fst] in *. cbn [visible_loop].
      rewrite Hin', Hmax, show_col_idem, IH. reflexivity.
  - assert (Hin' : in_colList colList (hide_col s) = false).
    { rewrite <- Hin. generalize (in_colList_show_hide colList colList s).
      now rewrite Hin. }
    destruct (max <=? count)%Z eqn:Hmax; cbn [fst].
    + cbn [visible_loop]. rewrite Hin', Hmax. reflexivity.
    + specialize (IH count).
      destruct (visible_loop colList max sts count) as [rest n].
      cbn [fst] in *. cbn [visible_loop].
      rewrite Hin', Hmax, IH. reflexivity.
Qed.

Lemma setBoardColumnClass_fixed n o :
  setBoardColumnClass n (setBoardColumnClass n o) = setBoardColumnClass n o.
Proof.
  unfold setBoardColumnClass.
  set (c := if ((n =? 0) || (n <? 2))%Z
            then Z.of_nat (visible_count (states o)) else n).
  destruct (showNumberOfColumns o =? c)%Z eqn:E.
  - fold c. now rewrite E.
  - cbn [states set_showNumberOfColumns showNumberOfColumns].
    fold c. now rewrite Z.eqb_refl.
Qed.

Lemma setVisible_array_idem b l o :
  setUserDefinedVisibleCol_array
    b l (fst (fst (setUserDefinedVisibleCol_array b l o)))
  = setUserDefinedVisibleCol_array b l o.
Proof.
  unfold setUserDefinedVisibleCol_array.
  destruct (List.length l <? 2)%nat eqn:Hlen; cbn [fst]; [reflexivity|].
  assert (Hi := visible_loop_idem l (maxColumnVisible o) (states o) 0).
  destruct (visible_loop l (maxColumnVisible o) (states o) 0) as [sts n].
  cbn [fst] in *.
  assert (Hm : maxColumnVisible (setBoardColumnClass n (set_states sts o))
               = maxColumnVisible o).
  { unfold setBoardColumnClass.
    match goal with
    | |- context [if ?c then _ else _] => destruct c
    end; reflexivity. }
  assert (Hs : states (setBoardColumnClass n (set_states sts o)) = sts).
  { unfold setBoardColumnClass.
    match goal with
    | |- context [if ?c then _ else _] => destruct c
    end; reflexivity. }
  rewrite Hm, Hs, Hi.
  assert (Ho : set_states sts (setBoardColumnClass n (set_states sts o))
               = setBoardColumnClass n (set_states sts o)).
  { unfold setBoardColumnClass.
    match goal with
    | |- context [if ?c then _ else _] => destruct c
    end; reflexivity. }
  rewrite Ho, setBoardColumnClass_fixed. reflexivity.
Qed.

(** X8.  A second call of [setUserDefinedVisibleCol] with the same
    argument leaves the board the first call made, and triggers what the
    first triggered. *)
Theorem setVisible_twice_is_once :
  forall (arg : colListArg) (o : board),
    setUserDefinedVisibleCol arg (fst (fst (setUserDefinedVisibleCol arg o)))
    = setUserDefinedVisibleCol arg o.
Proof.
  intros arg o. destruct arg as [|s|l]; cbn [setUserDefinedVisibleCol].
  - reflexivity.
  - destruct (String.eqb s ""); [reflexivity|].
    destruct (negb (String.eqb (JS.toLowerCase s) "all"));
      [reflexivity | apply setVisible_array_idem].
  - destruct l; apply setVisible_array_idem.
Qed.

(* ------------------------------------------------------------------- *)
(** *** The layout class *)

Lemma setBoardColumnClass_agrees n o :
  n = Z.of_nat (visible_count (states o)) ->
  layout_agrees (setBoardColumnClass n o).
Proof.
  intros Hn. unfold layout_agrees, setBoardColumnClass.
  set (c := if ((n =? 0) || (n <? 2))%Z
            then Z.of_nat (visible_count (states o)) else n).
  assert (Hc : c = Z.of_nat (visible_count (states o))).
  { unfold c. destruct ((n =? 0) || (n <? 2))%Z; congruence. }
  destruct (showNumberOfColumns o =? c)%Z eqn:E.
  - apply Z.eqb_eq in E. congruence.
  - cbn [states set_showNumberOfColumns showNumberOfColumns]. exact Hc.
Qed.

Lemma setVisible_array_agrees b l o :
  (Z.of_nat (List.length (states o)) <= maxColumnVisible o)%Z ->
  layout_agrees o ->
  layout_agrees (fst (fst (setUserDefinedVisibleCol_array b l o))).
Proof.
  intros Hle Hag. unfold setUserDefinedVisibleCol_array.
  destruct (List.length l <? 2)%nat; [exact Hag|].
  rewrite VisibilityFacts.visible_loop_all by lia.
  cbn [fst]. apply setBoardColumnClass_agrees.
  cbn [states set_states].
  rewrite VisibilityFacts.visible_count_apply. lia.
Qed.

(** X9.  On a board whose columns all fit ([maxColumnVisible] or fewer),
    the number in the class [spwidget-states-<n>] is the number of visible
    columns after the build loop, and stays so across every call of
    [setUserDefinedVisibleCol]. *)
Theorem layout_class_counts_visible_columns :
  forall (o : board),
    (Z.of_nat (List.length (states o)) <= maxColumnVisible o)%Z ->
    layout_agrees (build_columns o)
    /\ forall arg,
        layout_agrees o ->
        layout_agrees (fst (fst (setUserDefinedVisibleCol arg o))).
Proof.
  intros o Hle. split.
  - unfold layout_agrees.
    rewrite VisibilityFacts.build_columns_count.
    unfold build_columns.
    assert (Ht : (Z.of_nat (List.length (states o)) <=? maxColumnVisible o)%Z
                 = true) by (apply Z.leb_le; exact Hle).
    rewrite Ht. cbn [showNumberOfColumns set_states set_showNumberOfColumns].
    lia.
  - intros arg Hag. destruct arg as [|s|l]; cbn [setUserDefinedVisibleCol].
    + exact Hag.
    + destruct (String.eqb s ""); [exact Hag|].
      destruct (negb (String.eqb (JS.toLowerCase s) "all"));
        [exact Hag | now apply setVisible_array_agrees].
    + destruct l; now apply setVisible_array_agrees.
Qed.

(** X9, on the board of the status column. *)
Lemma layout_class_witness :
  layout_agrees
    (fst (fst (setUserDefinedVisibleCol
                 (ArgArray ["Done"; "Open"]) Fixtures.statusBoard))).
Proof.
  assert (Hle : (Z.of_nat (List.length (states Fixtures.statusBoard))
                 <= maxColumnVisible Fixtures.statusBoard)%Z)
    by (vm_compute; discriminate).
  apply (proj2 (layout_class_counts_visible_columns
                  Fixtures.statusBoard Hle)).
  vm_compute. reflexivity.
Defined.

(* ------------------------------------------------------------------- *)
(** *** The column-change event *)

Lemma flat_map_seq_nth A B (g : A -> list B) :
  forall (l : list A) (pre : list A),
    flat_map (fun i => match nth_error (pre ++ l) i with
                       | Some a => g a
                       | None => []
                       end)
             (seq (List.length pre) (List.length l))
    = flat_map g l.
Proof.
  induction l as [|a l IH]; intros pre; [reflexivity|].
  cbn [List.length seq flat_map].
  rewrite nth_error_app2 by lia. rewrite Nat.sub_diag. cbn [nth_error].
  f_equal.
  specialize (IH (pre ++ [a])).
  rewrite <- app_assoc in IH. cbn [app] in IH.
  rewrite length_app in IH. cbn [List.length] in IH.
  rewrite Nat.add_1_r in IH. exact IH.
Qed.

Lemma flat_map_visible_titles sts :
  flat_map (fun s : state => if isVisible s then [title s] else []) sts
  = map title (filter isVisible sts).
Proof.
  induction sts as [|s sts IH]; [reflexivity|].
  cbn [flat_map filter]. destruct (isVisible s); cbn; now rewrite IH.
Qed.

Lemma index_keys_plain (A : Type) (obj : list (string * A)) :
  (forall kv, In kv obj -> JS.is_index (fst kv) = false) ->
  JS.index_keys obj = [].
Proof.
  induction obj as [|kv obj IH]; intros H; [reflexivity|].
  cbn [JS.index_keys fold_right]. fold (JS.index_keys obj).
  rewrite IH by (intros x Hx; apply H; now right).
  assert (Hk := H kv (or_introl eq_refl)). unfold JS.is_index in Hk.
  destruct (JS.array_index (fst kv)); [discriminate|reflexivity].
Qed.

(** Without a key that spells an array index, the keys are visited in
    the order of their creation. *)
Lemma own_keys_order_plain (A : Type) (obj : list (string * A)) :
  (forall kv, In kv obj -> JS.is_index (fst kv) = false) ->
  JS.own_keys_order obj = obj.
Proof.
  intros H. unfold JS.own_keys_order.
  rewrite index_keys_plain by exact H. cbn [map app].
  induction obj as [|kv obj IH]; [reflexivity|].
  cbn [filter]. rewrite (H kv (or_introl eq_refl)). cbn [negb].
  f_equal. apply IH. intros x Hx. apply H. now right.
Qed.

Lemma trigger_in_order o :
  statesMap_in_order o ->
  triggerBoardColumnChangeEvent o
  = if initDone o
    then [boardColumnChange (map title (filter isVisible (states o)))]
    else [].
Proof.
  intros Hord. unfold triggerBoardColumnChangeEvent.
  destruct (initDone o); [|reflexivity].
  do 2 f_equal.
  rewrite <- flat_map_visible_titles.
  rewrite <- (flat_map_seq_nth
                (fun s : state => if isVisible s then [title s] else [])
                (states o) []).
  cbn [app List.length]. rewrite <- Hord.
  rewrite flat_map_concat_map, flat_map_concat_map, map_map. reflexivity.
Qed.

Lemma trigger_visible o :
  (initDone o = false -> triggerBoardColumnChangeEvent o = [])
  /\ (initDone o = true ->
      exists columns,
        triggerBoardColumnChangeEvent o = [boardColumnChange columns]
        /\ incl columns (map title (filter isVisible (states o)))).
Proof.
  unfold triggerBoardColumnChangeEvent. split; intros ->; [reflexivity|].
  eexists. split; [reflexivity|].
  intros t Ht. apply in_flat_map in Ht. destruct Ht as (kv & _ & Ht).
  destruct (nth_error (states o) (snd kv)) as [defObj|] eqn:E;
    [|contradiction].
  destruct (isVisible defObj) eqn:Ev; [|contradiction].
  destruct Ht as [<-|[]]. apply in_map. apply filter_In.
  split; [|exact Ev]. eapply nth_error_In. exact E.
Qed.

(** X10.  An array of two or more names given to
    [setUserDefinedVisibleCol] triggers nothing before the board is
    created ([initDone] unset), and afterwards exactly one
    [spwidget:boardColumnChange], whose payload holds titles of columns
    that are visible after the call and nothing else; when an
    enumeration of the states map meets the states in their order, the
    payload is the titles of the visible columns, in board order. *)
Theorem column_change_lists_visible_titles :
  forall (l : list string) (o : board),
    2 <= List.length l ->
    let '(o', evs, _) := setUserDefinedVisibleCol (ArgArray l) o in
    (initDone o = false -> evs = [])
    /\ (initDone o = true ->
        exists columns,
          evs = [boardColumnChange columns]
          /\ incl columns (map title (filter isVisible (states o')))
          /\ (statesMap_in_order o ->
              columns = map title (filter isVisible (states o')))).
Proof.
  intros l o Hlen.
  assert (Hf := setVisible_array_keeps_shape l o Hlen).
  destruct l as [|a l]; [cbn in Hlen; lia|].
  cbn [setUserDefinedVisibleCol] in *.
  unfold setUserDefinedVisibleCol_array in *.
  destruct (List.length (a :: l) <? 2)%nat eqn:E;
    [apply Nat.ltb_lt in E; lia|].
  destruct (visible_loop (a :: l) (maxColumnVisible o) (states o) 0)
    as [sts n].
  cbn [fst] in Hf. destruct Hf as (Hlen' & Hmap & Hinit).
  set (o' := setBoardColumnClass n (set_states sts o)) in *.
  destruct (trigger_visible o') as [H0 H1]. rewrite Hinit in H0, H1.
  split; [exact H0|]. intros Hi.
  destruct (H1 Hi) as (columns & Hev & Hincl).
  exists columns. split; [exact Hev|]. split; [exact Hincl|].
  intros Hord.
  assert (Hord' : statesMap_in_order o')
    by (unfold statesMap_in_order; rewrite Hmap, Hlen'; exact Hord).
  rewrite (trigger_in_order Hord'), Hinit, Hi in Hev.
  now injection Hev as <-.
Qed.

(** X10, on the created board of the status column. *)
Lemma column_change_witness :
  let '(o', evs, _) :=
    setUserDefinedVisibleCol (ArgArray ["Done"; "In Progress"])
                             Fixtures.statusBoard in
  evs = [boardColumnChange ["In Progress"; "Done"]].
Proof.
  assert (H := @column_change_lists_visible_titles
                 ["Done"; "In Progress"] Fixtures.statusBoard).
  destruct (setUserDefinedVisibleCol _ Fixtures.statusBoard)
    as [[o' evs] v] eqn:E.
  destruct H as [_ H]; [cbn; lia|].
  destruct (H eq_refl) as (columns & Hev & _ & Hc).
  rewrite Hev, Hc.
  - apply (f_equal (fun r => states (fst (fst r)))) in E. cbn [fst] in E.
    rewrite <- E. vm_compute. reflexivity.
  - vm_compute. reflexivity.
Defined.

(* ------------------------------------------------------------------- *)
(** *** The hidden class *)

Lemma mirrors_cons s sts :
  mirrors (s :: sts) <-> cssHidden s = negb (isVisible s) /\ mirrors sts.
Proof.
  unfold mirrors. split.
  - intros H. split; [apply H; now left|]. intros x Hx. apply H. now right.
  - intros [Hs H] x [<-|Hx]; auto.
Qed.

Lemma mirrors_show_hide colList s :
  cssHidden s = negb (isVisible s) ->
  cssHidden (if in_colList colList s then show_col s else hide_col s)
  = negb (isVisible (if in_colList colList s then show_col s else hide_col s)).
Proof.
  intros Hs. unfold show_col, hide_col.
  destruct (in_colList colList s); [|reflexivity].
  destruct (isVisible s) eqn:E; cbn [negb] in *; [|reflexivity].
  now rewrite E.
Qed.

Lemma mirrors_visible_loop colList max :
  forall sts count,
    mirrors sts -> mirrors (fst (visible_loop colList max sts count)).
Proof.
  induction sts as [|s sts IH]; intros count Hm; [exact Hm|].
  apply mirrors_cons in Hm. destruct Hm as [Hs Hm].
  cbn [visible_loop].
  assert (Hd := mirrors_show_hide colList s Hs).
  destruct (in_colList colList s).
  - destruct (max <=? count + 1)%Z; cbn [fst].
    + apply mirrors_cons. auto.
    + specialize (IH (count + 1)%Z Hm).
      destruct (visible_loop colList max sts (count + 1)).
      cbn [fst] in *. apply mirrors_cons. auto.
  - destruct (max <=? count)%Z; cbn [fst].
    + apply mirrors_cons. auto.
    + specialize (IH count Hm).
      destruct (visible_loop colList max sts count).
      cbn [fst] in *. apply mirrors_cons. auto.
Qed.

Lemma mirrors_setVisible arg o :
  mirrors (states o) ->
  mirrors (states (fst (fst (setUserDefinedVisibleCol arg o)))).
Proof.
  intros Hm.
  assert (H : forall b l,
             mirrors (states
                        (fst (fst (setUserDefinedVisibleCol_array b l o))))).
  { intros b l. unfold setUserDefinedVisibleCol_array.
    destruct (List.length l <? 2)%nat; [exact Hm|].
    assert (Hd := @mirrors_visible_loop l (maxColumnVisible o) (states o)
                                        0%Z Hm).
    destruct (visible_loop l (maxColumnVisible o) (states o) 0) as [sts n].
    cbn [fst] in *. now rewrite VisibilityFacts.setBoardColumnClass_states. }
  destruct arg as [|s|l]; cbn [setUserDefinedVisibleCol].
  - exact Hm.
  - destruct (String.eqb s ""); [exact Hm|].
    destruct (negb (String.eqb (JS.toLowerCase s) "all"));
      [exact Hm | apply H].
  - destruct l; apply H.
Qed.

Lemma mirrors_build_columns o : mirrors (states (build_columns o)).
Proof.
  intros s Hin. apply In_nth_error in Hin. destruct Hin as [i Hi].
  rewrite states_build_columns in Hi.
  destruct (build_columns_from_nth _ _ _ _ Hi) as (s0 & _ & ->).
  unfold build_column.
  destruct (maxColumnVisible o - 1 <? Z.of_nat (0 + i))%Z; reflexivity.
Qed.

Lemma mirrors_init_columns o : mirrors (states (init_columns o)).
Proof.
  unfold init_columns.
  destruct (colPickerVisible (build_columns o)).
  - apply mirrors_build_columns.
  - apply mirrors_setVisible, mirrors_build_columns.
Qed.

End VisibilityMore.

(* ===================================================================== *)
(** ** The order of the states map *)
(* ===================================================================== *)

Module OrderMore.
Import Board Notions MoreNotions.

Lemma smap_set_fresh k i :
  forall m, ~ In k (map fst m) -> smap_set k i m = m ++ [(k, i)].
Proof.
  induction m as [|[k' j] m IH]; intros Hnin; [reflexivity|].
  cbn [smap_set]. destruct (String.eqb k k') eqn:E.
  - apply String.eqb_eq in E. subst. exfalso. apply Hnin. now left.
  - cbn [app]. f_equal. apply IH. intros Hin. apply Hnin. now right.
Qed.

Lemma push_state_in_order k s o :
  created_in_order o ->
  ~ In k (map fst (statesMap o)) ->
  created_in_order (push_state k s o)
  /\ map fst (statesMap (push_state k s o)) = map fst (statesMap o) ++ [k].
Proof.
  unfold created_in_order, push_state. intros Hord Hnin.
  cbn [states statesMap set_states set_statesMap].
  rewrite smap_set_fresh by exact Hnin.
  rewrite !map_app, length_app, Hord. cbn [map fst snd List.length].
  rewrite Nat.add_1_r, seq_S. auto.
Qed.

Lemma push_all_in_order A (nm : A -> string) (mk : A -> state) :
  forall vs o,
    created_in_order o ->
    NoDup (map fst (statesMap o) ++ map nm vs) ->
    created_in_order (push_all nm mk vs o)
    /\ map fst (statesMap (push_all nm mk vs o))
       = map fst (statesMap o) ++ map nm vs.
Proof.
  unfold push_all.
  induction vs as [|v vs IH]; intros o Hord Hnd.
  - cbn. now rewrite app_nil_r.
  - cbn [fold_left map] in *.
    assert (Hnin : ~ In (nm v) (map fst (statesMap o))).
    { intros Hin. apply NoDup_remove_2 in Hnd. apply Hnd.
      apply in_or_app. now left. }
    destruct (@push_state_in_order (nm v) (mk v) o Hord Hnin) as [Ho Hk].
    destruct (IH (push_state (nm v) (mk v) o) Ho) as [Ho' Hk'].
    + rewrite Hk, <- app_assoc. exact Hnd.
    + split; [exact Ho'|]. rewrite Hk', Hk, <- app_assoc. reflexivity.
Qed.

Lemma blank_in_order user f s :
  let o0 := note_field f (new_board user) in
  let o1 := if negb (required_after user f) then push_state "" s o0 else o0 in
  created_in_order o1
  /\ map fst (statesMap o1) = blank_names (required_after user f) "".
Proof.
  destruct (DomainFacts.note_field_new_board user f) as (_ & Hs & Hm & _).
  cbn zeta in *.
  destruct (required_after user f); cbn [negb blank_names].
  - unfold created_in_order. rewrite Hs, Hm. auto.
  - unfold created_in_order, push_state.
    cbn [states statesMap set_states set_statesMap].
    rewrite Hs, Hm. auto.
Qed.

(** Created in order and with no key that spells an array index, the
    map is enumerated in the order of the states. *)
Lemma in_order_plain o :
  created_in_order o ->
  (forall k, In k (map fst (statesMap o)) -> JS.is_index k = false) ->
  statesMap_in_order o.
Proof.
  intros Hord Hplain. unfold statesMap_in_order.
  rewrite VisibilityMore.own_keys_order_plain; [exact Hord|].
  intros kv Hkv. apply Hplain. now apply in_map.
Qed.

Lemma digits_separator b :
  forall a acc, JS.digits (a ++ ";#" ++ b)%string acc = None.
Proof.
  induction a as [|c a IH]; intros acc; [reflexivity|].
  cbn [String.append JS.digits].
  destruct (JS.digit c); [apply IH|reflexivity].
Qed.

(** The name of a lookup state spells no array index. *)
Lemma lookup_name_is_no_index r : JS.is_index (lookup_name r) = false.
Proof.
  unfold JS.is_index, lookup_name, JS.array_index.
  assert (Hd := digits_separator (lk_show r) (lk_ID r) 0).
  destruct (lk_ID r ++ ";#" ++ lk_show r)%string as [|c rest];
    [reflexivity|].
  rewrite Hd. now destruct (_ && _).
Qed.

(** The enumeration meets the keys that spell an array index first, by
    ascending index: with the values [10], [2] and [Done] after the blank
    state, the states are met in the order 2, 1, 0, 3. *)
Lemma index_keys_are_met_first :
  JS.own_keys_order [("", 0); ("10", 1); ("2", 2); ("Done", 3)]
  = [("2", 2); ("10", 1); ("", 0); ("Done", 3)].
Proof. vm_compute. reflexivity. Qed.



End OrderMore.


(* ===================================================================== *)
(** ** More on the passes over the items *)
(* ===================================================================== *)

Module ReconcileMore.
Import Board Notions MoreNotions.

Lemma descr_view sts sts' :
  map descr sts = map descr sts' -> map view sts = map view sts'.
Proof.
  intros H.
  assert (Hv : forall l, map view l
                         = map (fun d : stateType * string * string * bool
                                        * bool * nat => fst d)
                               (map descr l)).
  { intros l. rewrite map_map. apply map_ext. intros a. reflexivity. }
  now rewrite !Hv, H.
Qed.

Lemma descr_map_dataEle (f : state -> list card) sts :
  map descr (map (fun s => set_dataEle (f s) s) sts) = map descr sts.
Proof.
  rewrite map_map. apply map_ext. intros a. reflexivity.
Qed.

Lemma descr_map_cards f sts : map descr (map_cards f sts) = map descr sts.
Proof.
  unfold map_cards.
  apply (descr_map_dataEle (fun s => map f (dataEle s))).
Qed.

Lemma descr_detach id sts : map descr (detach id sts) = map descr sts.
Proof.
  unfold detach.
  apply (descr_map_dataEle
           (fun s => filter (fun c => negb (has_id id c)) (dataEle s))).
Qed.

Lemma descr_append_at cards :
  forall sts i, map descr (append_at i cards sts) = map descr sts.
Proof.
  induction sts as [|s sts IH]; intros i; [destruct i; reflexivity|].
  destruct i; cbn [append_at map]; [reflexivity|]. now rewrite IH.
Qed.

Lemma descr_appendTo id target sts :
  map descr (appendTo id target sts) = map descr sts.
Proof.
  unfold appendTo. now rewrite descr_append_at, descr_detach.
Qed.

Lemma cards_at_append_at cards :
  forall sts j i,
    cards_at (append_at j cards sts) i
    = option_map (fun cs => cs ++ if (j =? i)%nat then cards else [])
                 (cards_at sts i).
Proof.
  unfold cards_at.
  induction sts as [|s sts IH]; intros j i.
  - destruct j, i; reflexivity.
  - destruct j as [|j], i as [|i]; cbn [append_at nth_error option_map Nat.eqb].
    + reflexivity.
    + destruct (nth_error sts i); cbn; [now rewrite app_nil_r|reflexivity].
    + now rewrite app_nil_r.
    + apply IH.
Qed.

Lemma ifb_keys_add k c m x :
  In x (map fst (ifb_add k c m)) <-> x = k \/ In x (map fst m).
Proof.
  induction m as [|[k' cs] m IH]; cbn [ifb_add map fst In].
  - intuition.
  - destruct (String.eqb k k') eqn:E; cbn [map fst In].
    + apply String.eqb_eq in E. subst. intuition.
    + rewrite IH. intuition.
Qed.

Lemma ifb_keys_NoDup k c m :
  NoDup (map fst m) -> NoDup (map fst (ifb_add k c m)).
Proof.
  induction m as [|[k' cs] m IH]; intros Hnd; cbn [ifb_add map fst].
  - repeat constructor. intros [].
  - inversion Hnd as [|? ? Hnin Hnd']; subst.
    destruct (String.eqb k k') eqn:E; cbn [map fst].
    + constructor; assumption.
    + constructor; [|now apply IH].
      rewrite ifb_keys_add. intros [->|Hin]; [|contradiction].
      now rewrite String.eqb_refl in E.
Qed.

Lemma col_cards_none o m i :
  (forall k, In k (map fst m) -> smap_get k (statesMap o) <> Some i) ->
  col_cards o m i = [].
Proof.
  unfold col_cards.
  induction m as [|[k cs] m IH]; intros Hno; [reflexivity|].
  cbn [flat_map fst snd].
  rewrite IH by (intros k' Hk'; apply Hno; now right).
  assert (Hk := Hno k (or_introl eq_refl)).
  destruct (smap_get k (statesMap o)) as [j|]; [|reflexivity].
  destruct (j =? i)%nat eqn:E; [|reflexivity].
  apply Nat.eqb_eq in E. subst. now contradiction Hk.
Qed.

(** One more card under the key [k]: the column of [k] receives it after
    what it had, when no other key stands for that column. *)
Lemma col_cards_add o i k c :
  (forall k', smap_get k (statesMap o) = Some i ->
              smap_get k' (statesMap o) = Some i -> k' = k) ->
  forall m,
    NoDup (map fst m) ->
    col_cards o (ifb_add k c m) i
    = col_cards o m i
      ++ match smap_get k (statesMap o) with
         | Some j => if (j =? i)%nat then [c] else []
         | None => []
         end.
Proof.
  intros Huniq. unfold col_cards.
  induction m as [|[k2 cs] m IH]; intros Hnd; cbn [ifb_add flat_map fst snd].
  - now rewrite app_nil_r.
  - inversion Hnd as [|? ? Hnin Hnd']; subst.
    destruct (String.eqb k k2) eqn:E; cbn [flat_map fst snd].
    + apply String.eqb_eq in E. subst k2.
      destruct (smap_get k (statesMap o)) as [j|] eqn:Hk;
        [|now rewrite app_nil_r].
      destruct (j =? i)%nat eqn:Hj; [|now rewrite app_nil_r].
      apply Nat.eqb_eq in Hj. subst j.
      assert (Hrest : col_cards o m i = []).
      { apply col_cards_none. intros k' Hk' Hget.
        apply Hnin. now rewrite <- (Huniq k' eq_refl Hget). }
      unfold col_cards in Hrest. rewrite Hrest.
      now rewrite !app_nil_r.
    + rewrite (IH Hnd'). now rewrite app_assoc.
Qed.

Lemma smap_get_In k i :
  forall m, smap_get k m = Some i -> In (k, i) m.
Proof.
  induction m as [|[k' j] m IH]; cbn [smap_get]; [discriminate|].
  destruct (String.eqb k k') eqn:E.
  - apply String.eqb_eq in E. intros [= ->]. subst. now left.
  - intros H. right. now apply IH.
Qed.

(** Two keys do not stand for the same state when no reference is held
    twice. *)
Lemma smap_get_unique k1 k2 i :
  forall m,
    NoDup (map snd m) ->
    smap_get k1 m = Some i -> smap_get k2 m = Some i -> k1 = k2.
Proof.
  induction m as [|[k' j] m IH]; intros Hnd H1 H2; cbn [smap_get] in *;
    [discriminate|].
  inversion Hnd as [|? ? Hnin Hnd']; subst.
  destruct (String.eqb k1 k') eqn:E1, (String.eqb k2 k') eqn:E2.
  - apply String.eqb_eq in E1, E2. congruence.
  - injection H1 as ->. apply smap_get_In in H2.
    exfalso. apply Hnin. apply (in_map snd) in H2. exact H2.
  - injection H2 as ->. apply smap_get_In in H1.
    exfalso. apply Hnin. apply (in_map snd) in H1. exact H1.
  - now apply IH.
Qed.

Section Passes.

Variable template : row -> option (list card) -> string.
Variable jq_data : string -> JS.value.

Lemma descr_update_item r target l :
  map descr (l_states (update_item template jq_data r target l))
  = map descr (l_states l).
Proof.
  unfold update_item. cbn [l_states].
  repeat match goal with
         | |- context [if ?c then _ else _] => destruct c
         end;
    rewrite ?descr_map_cards, ?descr_appendTo, ?descr_map_cards;
    reflexivity.
Qed.

Lemma descr_process_row o thisOpt r l :
  map descr (l_states (process_row template jq_data o thisOpt r l))
  = map descr (l_states l).
Proof.
  unfold process_row.
  destruct (smap_get (row_state r) (statesMap o)); [|reflexivity].
  destruct (negb (refresh thisOpt)); [reflexivity|].
  destruct (find_items (ID r) (l_states l)); [reflexivity|].
  apply descr_update_item.
Qed.

Lemma descr_rows_loop o thisOpt rws :
  forall l,
    map descr (l_states (rows_loop template jq_data o thisOpt rws l))
    = map descr (l_states l).
Proof.
  unfold rows_loop. induction rws as [|r rws IH]; intros l; [reflexivity|].
  cbn [fold_left]. now rewrite IH, descr_process_row.
Qed.

Lemma descr_insert_items o ifb :
  forall sts, map descr (insert_items o ifb sts) = map descr sts.
Proof.
  unfold insert_items. generalize (JS.own_keys_order ifb). clear ifb.
  intros ifb. induction ifb as [|kv ifb IH]; intros sts;
    [reflexivity|].
  cbn [fold_left]. rewrite IH.
  destruct (smap_get (fst kv) (statesMap o)); [|reflexivity].
  apply descr_append_at.
Qed.

Lemma descr_remove_stale o sts :
  map descr (fst (remove_stale jq_data o sts)) = map descr sts.
Proof.
  unfold remove_stale. cbn [fst].
  apply (descr_map_dataEle
           (fun s => map (set_temp false) (filter spwidget_temp (dataEle s)))).
Qed.

Lemma view_updBoardHeaders sts :
  map view (updBoardHeaders sts) = map view sts.
Proof.
  unfold updBoardHeaders. rewrite map_map. apply map_ext. reflexivity.
Qed.

Lemma headers_agree_upd sts : headers_agree (updBoardHeaders sts).
Proof.
  unfold headers_agree, updBoardHeaders. intros s Hin.
  apply in_map_iff in Hin. destruct Hin as (s0 & <- & _). reflexivity.
Qed.

(** The shape of every pass: the columns before the headers are
    refreshed keep everything but their cards (in refresh mode, the
    header totals too), and the events are triggered on them. *)
Lemma pass_shape thisOpt o :
  let res := showItemsOnBoard template jq_data thisOpt o in
  exists sts3,
    states (r_board res) = updBoardHeaders sts3
    /\ map view sts3 = map view (states o)
    /\ (refresh thisOpt = true -> map descr sts3 = map descr (states o))
    /\ r_events res
       = (if initDone o
          then trigger_events
                 (getEventObject jq_data (set_states sts3 o) None)
                 (r_added res) (r_removed res) (r_moved res)
          else []).
Proof.
  unfold showItemsOnBoard.
  set (sts1 := if negb (refresh thisOpt)
               then map (fun s => set_dataEle [] (set_headerTotal 0 s))
                        (states o)
               else states o).
  set (l := rows_loop template jq_data o thisOpt (rows thisOpt) _).
  set (sts2 := if doBoardInsert thisOpt
               then insert_items o (itemsForBoard l) (l_states l)
               else l_states l).
  assert (H1v : map view sts1 = map view (states o)).
  { unfold sts1. destruct (negb (refresh thisOpt)); [|reflexivity].
    rewrite map_map. apply map_ext. reflexivity. }
  assert (H1d : refresh thisOpt = true -> sts1 = states o).
  { intros Hr. unfold sts1. now rewrite Hr. }
  assert (H2 : map descr sts2 = map descr sts1).
  { unfold sts2.
    destruct (doBoardInsert thisOpt);
      rewrite ?descr_insert_items; unfold l; now rewrite descr_rows_loop. }
  destruct (initDone o && refresh thisOpt) eqn:E.
  - exists (fst (remove_stale jq_data o sts2)).
    unfold remove_stale at 1 2. cbn [r_board states set_states r_events
      r_added r_removed r_moved fst snd].
    assert (H3 := descr_remove_stale o sts2).
    repeat split.
    + rewrite <- H1v. apply descr_view. now rewrite H3.
    + intros Hr. rewrite H3, H2. now rewrite (H1d Hr).
  - exists sts2.
    cbn [r_board states set_states r_events r_added r_removed r_moved].
    repeat split.
    + rewrite <- H1v. now apply descr_view.
    + intros Hr. rewrite H2. now rewrite (H1d Hr).
Qed.

Lemma pass_view_and_headers thisOpt o :
  let o' := r_board (showItemsOnBoard template jq_data thisOpt o) in
  map view (states o') = map view (states o)
  /\ statesMap o' = statesMap o
  /\ headers_agree (states o').
Proof.
  destruct (pass_shape thisOpt o) as (sts3 & Hst & Hv & _ & _).
  cbn zeta in *. rewrite Hst, view_updBoardHeaders.
  split; [exact Hv|]. split; [|apply headers_agree_upd].
  unfold showItemsOnBoard.
  destruct (initDone o && refresh thisOpt); reflexivity.
Qed.


Lemma totals_descr :
  forall sts sts' (m : list (string * nat)) (n : nat),
    map descr sts = map descr sts' ->
    fold_left (fun m s => smap_set (name s) (headerTotal s) m) sts m
    = fold_left (fun m s => smap_set (name s) (headerTotal s) m) sts' m
    /\ fold_left (fun n s => n + headerTotal s) sts n
       = fold_left (fun n s => n + headerTotal s) sts' n.
Proof.
  induction sts as [|s sts IH]; intros [|s' sts'] m n H; try discriminate.
  - split; reflexivity.
  - cbn [map] in H. unfold descr at 1 3 in H.
    injection H as _ _ Hn _ _ Ht H. cbn [fold_left].
    rewrite Hn, Ht. now apply IH.
Qed.

Lemma getEventObject_totals o sts :
  map descr sts = map descr (states o) ->
  stateTotals (getEventObject jq_data (set_states sts o) None)
  = stateTotals (getEventObject jq_data o None)
  /\ itemTotal (getEventObject jq_data (set_states sts o) None)
     = itemTotal (getEventObject jq_data o None).
Proof.
  intros H. unfold getEventObject.
  cbn [stateTotals itemTotal states set_states].
  exact (totals_descr sts (states o) [] 0 H).
Qed.

(** X13.  The events of a refresh carry the totals the headers showed
    before the pass: [getEventObject] reads the headers, and the headers
    are refreshed only after the events are triggered. *)
Theorem refresh_events_carry_the_totals_before :
  forall (thisOpt : showOptions) (o : board) (ev : event) (d : evData),
    refresh thisOpt = true ->
    In ev (r_events (showItemsOnBoard template jq_data thisOpt o)) ->
    payload ev = Some d ->
    stateTotals d = stateTotals (getEventObject jq_data o None)
    /\ itemTotal d = itemTotal (getEventObject jq_data o None).
Proof.
  intros thisOpt o ev d Hr Hin Hp.
  destruct (pass_shape thisOpt o) as (sts3 & _ & _ & Hd & Hev).
  cbn zeta in *. rewrite Hev in Hin.
  destruct (initDone o); [|contradiction].
  rewrite EventFacts.trigger_events_eq in Hin.
  destruct (getEventObject_totals o sts3 (Hd Hr)) as [Hm Hn].
  rewrite <- Hm, <- Hn.
  repeat match type of Hin with
         | In _ (_ ++ _) => apply in_app_or in Hin; destruct Hin as [Hin|Hin]
         end;
    match type of Hin with
    | In _ (if ?c then _ else _) =>
        destruct c; [destruct Hin as [<-|[]]|contradiction]
    end;
    cbn [payload] in Hp; injection Hp as <-; split; reflexivity.
Qed.

(* ------------------------------------------------------------------- *)
(** *** The first display *)

Lemma cards_at_insert_items o ifb :
  forall sts i,
    cards_at (insert_items o ifb sts) i
    = option_map (fun cs => cs ++ col_cards o (JS.own_keys_order ifb) i)
                 (cards_at sts i).
Proof.
  unfold insert_items, col_cards.
  generalize (JS.own_keys_order ifb). clear ifb. intros ifb.
  induction ifb as [|kv ifb IH]; intros sts i; cbn [fold_left flat_map].
  - destruct (cards_at sts i); cbn; [now rewrite app_nil_r|reflexivity].
  - rewrite IH.
    destruct (smap_get (fst kv) (statesMap o)) as [j|].
    + rewrite cards_at_append_at.
      destruct (cards_at sts i); cbn [option_map]; [|reflexivity].
      now rewrite app_assoc.
    + reflexivity.
Qed.

Lemma NoDup_map_eq (A B : Type) (f : A -> B) :
  forall (l : list A) (a b : A),
    NoDup (map f l) -> In a l -> In b l -> f a = f b -> a = b.
Proof.
  induction l as [|x l IH]; intros a b Hnd Ha Hb Hf; [contradiction|].
  cbn [map] in Hnd. inversion Hnd as [|? ? Hnin Hnd']; subst.
  destruct Ha as [->|Ha], Hb as [->|Hb].
  - reflexivity.
  - exfalso. apply Hnin. rewrite Hf. now apply in_map.
  - exfalso. apply Hnin. rewrite <- Hf. now apply in_map.
  - now apply IH.
Qed.

(** When no two keys stand for the same column, a column receives the
    cards of a single key: the order in which the keys are visited does
    not matter. *)
Lemma col_cards_enumerated o ifb i :
  NoDup (map snd (statesMap o)) ->
  NoDup (map fst ifb) ->
  col_cards o (JS.own_keys_order ifb) i = col_cards o ifb i.
Proof.
  intros Hrefs Hnd. unfold col_cards. symmetry.
  apply ReconcileFacts.flat_map_perm_single.
  - symmetry. apply ReconcileFacts.own_keys_order_perm.
  - intros a b Ha Hb Hga Hgb.
    apply (NoDup_map_eq fst ifb a b Hnd Ha Hb).
    destruct (smap_get (fst a) (statesMap o)) as [ja|] eqn:Ea;
      [|now elim Hga].
    destruct (smap_get (fst b) (statesMap o)) as [jb|] eqn:Eb;
      [|now elim Hgb].
    destruct (ja =? i)%nat eqn:Eja; [|now elim Hga].
    destruct (jb =? i)%nat eqn:Ejb; [|now elim Hgb].
    apply Nat.eqb_eq in Eja, Ejb. subst ja jb.
    exact (@smap_get_unique _ _ _ _ Hrefs Ea Eb).
  - now apply NoDup_map_inv in Hnd.
Qed.

Lemma shown_snoc o pre r i :
  shown template o (pre ++ [r]) i
  = shown template o pre i
    ++ if renders_at template o i r then [render template r] else [].
Proof.
  unfold shown. rewrite filter_app, map_app. cbn [filter].
  destruct (renders_at template o i r); reflexivity.
Qed.

Lemma process_row_full o thisOpt r l pre :
  refresh thisOpt = false ->
  NoDup (map snd (statesMap o)) ->
  NoDup (map fst (itemsForBoard l)) ->
  (forall i, col_cards o (itemsForBoard l) i = shown template o pre i) ->
  let l' := process_row template jq_data o thisOpt r l in
  NoDup (map fst (itemsForBoard l'))
  /\ forall i, col_cards o (itemsForBoard l') i
               = shown template o (pre ++ [r]) i.
Proof.
  intros Hr Hrefs Hnd Hcc. cbn zeta. unfold process_row.
  rewrite Hr. cbn [negb].
  destruct (smap_get (row_state r) (statesMap o)) as [t|] eqn:Ht.
  - unfold add_item. cbn [itemsForBoard]. rewrite Hr, andb_false_r.
    destruct (String.eqb (template r None) "") eqn:Et.
    + split; [exact Hnd|]. intros i. rewrite shown_snoc, Hcc.
      unfold renders_at. rewrite Ht, Et, andb_false_r.
      now rewrite app_nil_r.
    + split; [now apply ifb_keys_NoDup|]. intros i.
      rewrite shown_snoc, col_cards_add, Hcc, Ht;
        [|intros k' Hk Hk'|exact Hnd].
      * unfold renders_at. rewrite Ht, Et, andb_true_r. reflexivity.
      * exact (smap_get_unique k' (row_state r) (statesMap o) Hrefs Hk' Hk).
  - split; [exact Hnd|]. intros i. rewrite shown_snoc, Hcc.
    unfold renders_at. rewrite Ht. now rewrite app_nil_r.
Qed.

Lemma rows_loop_full o thisOpt :
  refresh thisOpt = false ->
  NoDup (map snd (statesMap o)) ->
  forall rws l pre,
    NoDup (map fst (itemsForBoard l)) ->
    (forall i, col_cards o (itemsForBoard l) i = shown template o pre i) ->
    let l' := rows_loop template jq_data o thisOpt rws l in
    NoDup (map fst (itemsForBoard l'))
    /\ forall i, col_cards o (itemsForBoard l') i
                 = shown template o (pre ++ rws) i.
Proof.
  intros Hr Hrefs. unfold rows_loop.
  induction rws as [|r rws IH]; intros l pre Hnd Hcc; cbn [fold_left].
  - rewrite app_nil_r. auto.
  - destruct (process_row_full o thisOpt r l pre Hr Hrefs Hnd Hcc)
      as [Hnd' Hcc'].
    destruct (IH _ (pre ++ [r]) Hnd' Hcc') as [Hnd2 Hcc2].
    split; [exact Hnd2|]. intros i. rewrite Hcc2, <- app_assoc. reflexivity.
Qed.


(* ------------------------------------------------------------------- *)
(** *** What holds of a board from its creation on *)

Lemma mirrors_view sts sts' :
  map view sts = map view sts' -> mirrors sts' -> mirrors sts.
Proof.
  intros Hv Hm s Hin.
  apply (in_map view) in Hin. rewrite Hv in Hin.
  apply in_map_iff in Hin. destruct Hin as (s' & Heq & Hin').
  specialize (Hm s' Hin'). unfold view in Heq.
  injection Heq as _ _ _ Hvis Hcss. congruence.
Qed.

Lemma headers_agree_frame sts sts' :
  map frame sts = map frame sts' -> headers_agree sts' -> headers_agree sts.
Proof.
  intros Hf Hh s Hin.
  apply (in_map frame) in Hin. rewrite Hf in Hin.
  apply in_map_iff in Hin. destruct Hin as (s' & Heq & Hin').
  specialize (Hh s' Hin'). unfold frame in Heq.
  injection Heq as _ _ _ Ht Hd. congruence.
Qed.

Lemma frames_setVisible arg o :
  map frame (states (fst (fst (setUserDefinedVisibleCol arg o))))
  = map frame (states o).
Proof.
  assert (H : forall b l,
             map frame
                 (states (fst (fst (setUserDefinedVisibleCol_array b l o))))
             = map frame (states o)).
  { intros b l. unfold setUserDefinedVisibleCol_array.
    destruct (List.length l <? 2)%nat; [reflexivity|].
    assert (Hd := VisibilityMore.frame_visible_loop
                    l (maxColumnVisible o) (states o) 0).
    destruct (visible_loop l (maxColumnVisible o) (states o) 0) as [sts n].
    cbn [fst] in *. now rewrite VisibilityFacts.setBoardColumnClass_states. }
  destruct arg as [|s|l]; cbn [setUserDefinedVisibleCol].
  - reflexivity.
  - destruct (String.eqb s ""); [reflexivity|].
    destruct (negb (String.eqb (JS.toLowerCase s) "all"));
      [reflexivity | apply H].
  - destruct l; apply H.
Qed.

Lemma statesMap_init_columns o :
  statesMap (init_columns o) = statesMap o.
Proof.
  unfold init_columns.
  assert (Hb : statesMap (build_columns o) = statesMap o).
  { unfold build_columns.
    destruct (Z.of_nat (List.length (states o)) <=? maxColumnVisible o)%Z;
      reflexivity. }
  destruct (colPickerVisible (build_columns o)) as [|a l]; [exact Hb|].
  destruct (ReconcileFacts.setVisible_keeps (ArgArray (a :: l))
                                            (build_columns o)) as (Hm & _).
  now rewrite Hm.
Qed.



Lemma sum_headers sts :
  headers_agree sts ->
  forall n,
    fold_left (fun n s => n + headerTotal s) sts n
    = n + List.length (all_cards sts).
Proof.
  induction sts as [|s sts IH]; intros Hh n; cbn [fold_left].
  - cbn. lia.
  - rewrite IH by (intros x Hx; apply Hh; now right).
    rewrite (Hh s (or_introl eq_refl)).
    unfold all_cards. cbn [flat_map]. rewrite length_app. lia.
Qed.


(* ------------------------------------------------------------------- *)
(** *** The rows counted as new *)

Lemma existsb_map (A B : Type) (f : B -> bool) (g : A -> B) (l : list A) :
  existsb f (map g l) = existsb (fun a => f (g a)) l.
Proof.
  induction l as [|a l IH]; [reflexivity|]. cbn. now rewrite IH.
Qed.

Lemma existsb_perm (A : Type) (f : A -> bool) (l l' : list A) :
  Permutation l l' -> existsb f l = existsb f l'.
Proof.
  intros Hp. induction Hp as [|x l l' _ IH|x y l|l l' l'' _ IH1 _ IH2].
  - reflexivity.
  - cbn. now rewrite IH.
  - cbn. destruct (f x), (f y); reflexivity.
  - congruence.
Qed.

Lemma on_board_marks id sts :
  on_board id sts
  = existsb (fun m : string * bool => String.eqb (fst m) id) (marks sts).
Proof.
  unfold on_board, marks. rewrite existsb_map. reflexivity.
Qed.

Lemma on_board_find_items id sts :
  on_board id sts = non_empty (find_items id sts).
Proof.
  unfold on_board, find_items.
  induction (all_cards sts) as [|c l IH]; [reflexivity|].
  cbn [existsb filter]. destruct (has_id id c); [reflexivity|exact IH].
Qed.

Lemma on_board_process_row o thisOpt r l id :
  refresh thisOpt = true ->
  statesMap_in_range o = true ->
  List.length (l_states l) = List.length (states o) ->
  on_board id (l_states (process_row template jq_data o thisOpt r l))
  = on_board id (l_states l).
Proof.
  intros Hr Hrange Hlen. rewrite !on_board_marks.
  rewrite (existsb_perm _ (ReconcileFacts.marks_process_row
                             template jq_data o thisOpt Hr Hrange r l Hlen)).
  rewrite existsb_map. reflexivity.
Qed.

Lemma newItems_process_row o thisOpt r l :
  (refresh thisOpt = true ->
   forall id, on_board id (l_states l) = on_board id (states o)) ->
  newItems (process_row template jq_data o thisOpt r l)
  = newItems l
    ++ if initDone o && counted_new o thisOpt r then [r] else [].
Proof.
  intros Hon. unfold process_row, counted_new, resolvable.
  destruct (smap_get (row_state r) (statesMap o)) as [t|].
  - cbn [andb]. destruct (refresh thisOpt) eqn:Hr; cbn [negb orb].
    + rewrite <- (Hon eq_refl (ID r)), on_board_find_items.
      destruct (find_items (ID r) (l_states l)); cbn [non_empty negb].
      * unfold add_item. cbn [newItems]. rewrite andb_true_r.
        destruct (initDone o); [reflexivity|now rewrite app_nil_r].
      * unfold update_item. cbn [newItems]. rewrite andb_false_r.
        now rewrite app_nil_r.
    + unfold add_item. cbn [newItems]. rewrite andb_true_r.
      destruct (initDone o); [reflexivity|now rewrite app_nil_r].
  - rewrite andb_false_r. now rewrite app_nil_r.
Qed.

Lemma newItems_rows_loop o thisOpt :
  statesMap_in_range o = true ->
  forall rws l,
    List.length (l_states l) = List.length (states o) ->
    (refresh thisOpt = true ->
     forall id, on_board id (l_states l) = on_board id (states o)) ->
    newItems (rows_loop template jq_data o thisOpt rws l)
    = newItems l
      ++ if initDone o then filter (counted_new o thisOpt) rws else [].
Proof.
  intros Hrange. unfold rows_loop.
  induction rws as [|r rws IH]; intros l Hlen Hon; cbn [fold_left filter].
  - destruct (initDone o); now rewrite app_nil_r.
  - rewrite IH.
    + rewrite (newItems_process_row o thisOpt r l Hon), <- app_assoc.
      f_equal.
      destruct (initDone o); [|reflexivity]. cbn [andb].
      destruct (counted_new o thisOpt r); reflexivity.
    + now rewrite ReconcileFacts.length_process_row.
    + intros Hr id. rewrite on_board_process_row; auto.
Qed.


End Passes.

(* ------------------------------------------------------------------- *)
(** *** On the board of the status column *)



(** X13, on the refresh of the status board. *)
Lemma refresh_totals_witness :
  exists ev d,
    hd_error (r_events Fixtures.secondPass) = Some ev
    /\ payload ev = Some d
    /\ itemTotal d
       = itemTotal (getEventObject Fixtures.plainData Fixtures.refreshed None).
Proof.
  assert (H : exists ev d,
             hd_error (r_events Fixtures.secondPass) = Some ev
             /\ payload ev = Some d)
    by (do 2 eexists; split; [vm_compute; reflexivity | reflexivity]).
  destruct H as (ev & d & Hh & Hp). exists ev, d.
  split; [exact Hh|]. split; [exact Hp|].
  apply (@refresh_events_carry_the_totals_before
           Fixtures.titleTemplate Fixtures.plainData
           (refresh_mode Fixtures.refreshed) Fixtures.refreshed ev d).
  - reflexivity.
  - unfold Fixtures.secondPass in Hh.
    destruct (r_events _) as [|e es]; [discriminate|].
    injection Hh as ->. now left.
  - exact Hp.
Defined.




Lemma mirrors_check sts :
  forallb (fun s => Bool.eqb (cssHidden s) (negb (isVisible s))) sts = true ->
  mirrors sts.
Proof.
  intros H s Hin. rewrite forallb_forall in H.
  apply Bool.eqb_prop. now apply H.
Qed.

Lemma headers_check sts :
  forallb (fun s => (headerTotal s =? List.length (dataEle s))%nat) sts
  = true ->
  headers_agree sts.
Proof.
  intros H s Hin. rewrite forallb_forall in H.
  apply Nat.eqb_eq. now apply H.
Qed.


End ReconcileMore.

(* ===================================================================== *)
(** ** The data object of a card, and the drop of a card *)
(* ===================================================================== *)

Module ItemMore.
Import Board Notions MoreNotions.

Lemma find_first_NoDup (A : Type) (f : A -> string) (k : string) :
  forall (l : list A) (a : A),
    NoDup (map f l) -> In a l -> f a = k ->
    find (fun x => String.eqb k (f x)) l = Some a.
Proof.
  induction l as [|x l IH]; intros a Hnd Hin Hk; [contradiction|].
  cbn [map] in Hnd. inversion Hnd as [|? ? Hnin Hnd']; subst.
  cbn [find]. destruct Hin as [->|Hin].
  - now rewrite String.eqb_refl.
  - destruct (String.eqb (f a) (f x)) eqn:E.
    + apply String.eqb_eq in E. exfalso. apply Hnin. rewrite <- E.
      now apply in_map.
    + now apply IH.
Qed.

(** X18.  [getBoardItemDataObject] answers the first row of
    [opt.listItems] whose [ID] spells the identifier: a row is the answer
    exactly when the identifier is truthy, the row spells it and no row
    before it in the array does; it answers [null] exactly when the
    identifier is falsy (undefined, null, the empty string, zero) or
    spelled by no row; and when no two rows share an [ID], every row with
    a non-empty [ID] is found through it. *)
Theorem item_lookup_finds_the_row :
  forall (o : board) (itemId : JS.value),
    (forall r,
        getBoardItemDataObject o itemId = Some r
        <-> JS.truthy itemId = true
            /\ exists pre post,
                 listItems o = pre ++ r :: post
                 /\ ID r = JS.to_String itemId
                 /\ forall x, In x pre -> ID x <> JS.to_String itemId)
    /\ (forall r,
        getBoardItemDataObject o itemId = Some r ->
        JS.truthy itemId = true
        /\ In r (listItems o)
        /\ ID r = JS.to_String itemId)
    /\ (getBoardItemDataObject o itemId = None
        <-> JS.truthy itemId = false
            \/ forall r, In r (listItems o) -> ID r <> JS.to_String itemId)
    /\ (forall r,
           NoDup (map ID (listItems o)) ->
           In r (listItems o) ->
           ID r <> "" ->
           getBoardItemDataObject o (JS.VStr (ID r)) = Some r).
Proof.
  intros o itemId. split; [intros r; apply MoveFacts.lookup_first_row|].
  unfold getBoardItemDataObject. split; [|split].
  - intros r H. destruct (JS.truthy itemId); [|discriminate].
    split; [reflexivity|]. apply find_some in H. destruct H as [Hin He].
    apply String.eqb_eq in He. auto.
  - destruct (JS.truthy itemId).
    + split.
      * intros Hnone. right. intros r Hin Heq.
        apply (find_none _ _ Hnone) in Hin.
        rewrite <- Heq, String.eqb_refl in Hin. discriminate.
      * intros [Hf|Hno]; [discriminate|].
        destruct (find _ (listItems o)) as [r|] eqn:E; [|reflexivity].
        apply find_some in E. destruct E as [Hin He].
        apply String.eqb_eq in He. exfalso. now apply (Hno r Hin).
    + split; auto.
  - intros r Hnd Hin Hne. cbn [JS.truthy JS.to_String].
    assert (He : String.eqb (ID r) "" = false)
      by (now apply String.eqb_neq).
    rewrite He. cbn [negb]. now apply find_first_NoDup.
Qed.

Section Drops.

Variable jq_data : string -> JS.value.
Variable XData : Type.
Variable Node : Type.
Variable doesMsgHaveError : XData -> bool.
Variable getMsgError : XData -> string.
Variable getNodesFromXml : XData -> list Node.

(** X19.  Without an [onPreUpdate] hook every drop issues one update, of
    the board field alone, to the state of the column that received the
    card, also when the card stands for no row of [opt.listItems] (the
    update is then issued without an identifier); the headers are
    refreshed first, and the cards stay where the drop put them. *)
Theorem drop_without_hook_updates_the_field :
  forall (ui_item : string * option string) (o : board),
    exists o' d,
      sortreceive jq_data XData Node None ui_item o
      = (o',
         [updateListItems XData Node
            (option_map ID (getBoardItemDataObject o (jq_data (fst ui_item))))
            [(field o,
              match snd ui_item with
              | Some nm => jq_data nm
              | None => JS.VUndefined
              end)]],
         Some d)
      /\ headers_agree (states o')
      /\ map dataEle (states o') = map dataEle (states o).
Proof.
  intros [id [nm|]] o; do 2 eexists; (split; [reflexivity|]);
    cbn [states set_states]; split;
      try apply ReconcileMore.headers_agree_upd;
      unfold updBoardHeaders; rewrite map_map; apply map_ext; reflexivity.
Qed.

(** X20.  Whatever the hook and the answer of the server, a drop issues
    at most one update; the promise of the move is settled once when the
    update was issued and not at all otherwise; and the change event is
    triggered exactly when the promise is resolved. *)
Theorem a_drop_settles_as_often_as_it_updates :
  forall (onPreUpdate : option preUpdateHook)
         (ui_item : string * option string)
         (answer : XData * string) (o : board),
    let effs := snd (drag_move jq_data doesMsgHaveError getMsgError
                               getNodesFromXml onPreUpdate ui_item
                               answer o) in
    count is_update effs <= 1
    /\ count is_resolve effs + count is_reject effs = count is_update effs
    /\ count is_change effs = count is_resolve effs.
Proof.
  intros onPreUpdate ui_item answer o. cbn zeta.
  unfold drag_move, sortreceive.
  destruct onPreUpdate as [hook|].
  - destruct (hook _) as [ans upd].
    destruct (JS.strict_eq_true ans); [cbn; lia|].
    cbn [updates set_updates].
    destruct upd as [|u upd]; [cbn; lia|].
    cbn [snd]. unfold completefunc.
    destruct (String.eqb (snd answer) "error"); [cbn; lia|].
    destruct (doesMsgHaveError (fst answer)); cbn; lia.
  - cbn [moveIntent updates set_updates snd]. unfold completefunc.
    destruct (String.eqb (snd answer) "error"); [cbn; lia|].
    destruct (doesMsgHaveError (fst answer)); cbn; lia.
Qed.

End Drops.

End ItemMore.


(* ===================================================================== *)
(** ** The column picker *)
(* ===================================================================== *)

Module PickerFacts.
Import Board Notions MoreNotions ColumnPicker PickerNotions.

Lemma anchors_from_index :
  forall sts i,
    map board_col_index (anchors_from i sts) = seq i (List.length sts)
    /\ map board_col_name (anchors_from i sts) = map name sts.
Proof.
  induction sts as [|c sts IH]; intros i; [split; reflexivity|].
  cbn [anchors_from map List.length seq board_col_index board_col_name].
  destruct (IH (S i)) as [Hi Hn]. now rewrite Hi, Hn.
Qed.

Lemma picker_of_setup displayed o :
  picker_of o (setupColumnPicker displayed o).
Proof.
  unfold picker_of, setupColumnPicker. cbn [anchors].
  apply anchors_from_index.
Qed.

Lemma selectColumn1_keeps u a :
  board_col_index (selectColumn1 u a) = board_col_index a
  /\ board_col_name (selectColumn1 u a) = board_col_name a.
Proof.
  unfold selectColumn1.
  destruct (highlight a || JS.truthy u); [|split; reflexivity].
  destruct (strict_neq_false u); split; reflexivity.
Qed.

Lemma highlight_selectColumn1_bool b a :
  highlight (selectColumn1 (JS.VBool b) a) = negb b.
Proof.
  unfold selectColumn1. destruct b, (highlight a) eqn:E; cbn; auto.
Qed.

Lemma highlight_selectColumn1_undefined a :
  highlight (selectColumn1 JS.VUndefined a) = negb (highlight a).
Proof.
  unfold selectColumn1. destruct (highlight a); reflexivity.
Qed.

Lemma setSelected_from_anchors :
  forall sts k p,
    anchors (setSelected_from k sts p) = map (settled k sts) (anchors p)
    /\ totalCntr (setSelected_from k sts p) = totalCntr p
    /\ cntrVisible (setSelected_from k sts p) = cntrVisible p
    /\ messages (setSelected_from k sts p) = messages p.
Proof.
  induction sts as [|c sts IH]; intros k p; cbn [setSelected_from].
  - split; [|auto].
    transitivity (map (fun a : anchor => a) (anchors p));
      [now rewrite map_id|].
    apply map_ext. intros a. unfold settled. now rewrite nth_error_nil.
  - set (u := JS.VBool (negb (isVisible c))).
    assert (Hp : (if isVisible c
                  then selectColumn (with_index k) (JS.VBool false) p
                  else selectColumn (with_index k) (JS.VBool true) p)
                 = selectColumn (with_index k) u p).
    { unfold u. destruct (isVisible c); reflexivity. }
    rewrite Hp. destruct (IH (S k) (selectColumn (with_index k) u p))
      as (Ha & Ht & Hv & Hm).
    rewrite Ha, Ht, Hv, Hm. split; [|auto].
    unfold selectColumn. cbn [anchors set_anchors]. rewrite map_map.
    apply map_ext. intros a. unfold with_index.
    destruct (board_col_index a =? k)%nat eqn:E.
    + apply Nat.eqb_eq in E. unfold settled.
      destruct (selectColumn1_keeps u a) as [Hi _]. rewrite Hi, E.
      replace (k - S k) with 0 by lia. rewrite Nat.sub_diag.
      change (nth_error (c :: sts) 0) with (Some c).
      rewrite Nat.leb_refl.
      assert (Hf : (S k <=? k)%nat = false) by (apply Nat.leb_gt; lia).
      rewrite Hf. destruct (nth_error sts 0); reflexivity.
    + apply Nat.eqb_neq in E. unfold settled.
      destruct (Nat.lt_ge_cases (board_col_index a) k) as [Hlt|Hge].
      * replace (board_col_index a - S k) with 0 by lia.
        replace (board_col_index a - k) with 0 by lia.
        assert (H1 : (S k <=? board_col_index a)%nat = false)
          by (apply Nat.leb_gt; lia).
        assert (H2 : (k <=? board_col_index a)%nat = false)
          by (apply Nat.leb_gt; lia).
        rewrite H1, H2.
        change (nth_error (c :: sts) 0) with (Some c).
        destruct (nth_error sts 0); reflexivity.
      * replace (board_col_index a - k)
          with (S (board_col_index a - S k)) by lia.
        cbn [nth_error].
        assert (H1 : (S k <=? board_col_index a)%nat = true)
          by (apply Nat.leb_le; lia).
        assert (H2 : (k <=? board_col_index a)%nat = true)
          by (apply Nat.leb_le; lia).
        now rewrite H1, H2.
Qed.

Lemma settled_keeps k sts a :
  board_col_index (settled k sts a) = board_col_index a
  /\ board_col_name (settled k sts a) = board_col_name a.
Proof.
  unfold settled.
  destruct (nth_error sts (board_col_index a - k)); [|split; reflexivity].
  destruct (k <=? board_col_index a)%nat; [|split; reflexivity].
  apply selectColumn1_keeps.
Qed.

Lemma highlight_settled :
  forall sts l k,
    map board_col_index l = seq k (List.length sts) ->
    map (fun a => highlight (settled k sts a)) l = map isVisible sts.
Proof.
  induction sts as [|c sts IH]; intros l k Hl.
  - destruct l; [reflexivity|discriminate].
  - destruct l as [|a l]; [discriminate|].
    cbn [map List.length seq] in *. injection Hl as Ha Hl.
    f_equal.
    + unfold settled. rewrite Ha, Nat.sub_diag. cbn [nth_error].
      rewrite Nat.leb_refl, highlight_selectColumn1_bool.
      apply negb_involutive.
    + rewrite <- (IH l (S k) Hl). apply map_ext_in. intros b Hb.
      apply (in_map board_col_index) in Hb. rewrite Hl in Hb.
      apply in_seq in Hb. unfold settled.
      replace (board_col_index b - k)
        with (S (board_col_index b - S k)) by lia.
      cbn [nth_error].
      assert (H1 : (S k <=? board_col_index b)%nat = true)
        by (apply Nat.leb_le; lia).
      assert (H2 : (k <=? board_col_index b)%nat = true)
        by (apply Nat.leb_le; lia).
      now rewrite H1, H2.
Qed.

Lemma count_filter_map (A : Type) (f : A -> bool) (l : list A) :
  List.length (filter f l)
  = List.length (filter (fun b : bool => b) (map f l)).
Proof.
  induction l as [|a l IH]; [reflexivity|].
  cbn [filter map]. destruct (f a); cbn [List.length]; now rewrite IH.
Qed.

Lemma setSelected_highlights o p :
  picker_of o p ->
  map highlight (anchors (setSelected o p)) = map isVisible (states o)
  /\ map board_col_index (anchors (setSelected o p))
     = seq 0 (List.length (states o))
  /\ messages (setSelected o p) = messages p.
Proof.
  intros [Hi Hn]. unfold setSelected, setTotalSelected.
  cbn [fst]. unfold set_totalCntr. cbn [anchors messages].
  destruct (setSelected_from_anchors (states o) 0 p) as (Ha & _ & _ & Hm).
  rewrite Ha, !map_map. split; [now apply highlight_settled|].
  split; [|exact Hm].
  rewrite <- Hi. apply map_ext. intros a. apply settled_keeps.
Qed.

(** X21.  [Picker.setSelected] makes the picker show the board: the
    anchor of a column is selected exactly when the column is visible,
    the total shown is the number of visible columns, and the anchors
    keep their index and name. *)
Theorem setSelected_shows_the_board :
  forall (o : board) (p : picker),
    picker_of o p ->
    let p' := setSelected o p in
    map highlight (anchors p') = map isVisible (states o)
    /\ totalCntr p' = Some (visible_count (states o))
    /\ picker_of o p'
    /\ cntrVisible p' = cntrVisible p
    /\ messages p' = messages p.
Proof.
  intros o p [Hi Hn]. cbn zeta. unfold setSelected, setTotalSelected.
  cbn [fst]. unfold set_totalCntr, getSelected.
  cbn [anchors totalCntr cntrVisible messages].
  destruct (setSelected_from_anchors (states o) 0 p) as (Ha & _ & Hv & Hm).
  assert (Hh : map highlight (anchors (setSelected_from 0 (states o) p))
               = map isVisible (states o)).
  { rewrite Ha, map_map. now apply highlight_settled. }
  split; [exact Hh|]. split; [|split; [|split]].
  - f_equal. unfold visible_count.
    rewrite (count_filter_map highlight), (count_filter_map isVisible).
    now rewrite Hh.
  - unfold picker_of. cbn [anchors]. rewrite Ha, !map_map. split.
    + rewrite <- Hi. apply map_ext. intros a. apply settled_keeps.
    + rewrite <- Hn. apply map_ext. intros a. apply settled_keeps.
  - exact Hv.
  - exact Hm.
Qed.

(** X21, on the status board. *)
Lemma setSelected_witness :
  map highlight
      (anchors (setSelected Fixtures.statusBoard
                            (setupColumnPicker false Fixtures.statusBoard)))
  = map isVisible (states Fixtures.statusBoard).
Proof.
  apply (@setSelected_shows_the_board
           Fixtures.statusBoard
           (setupColumnPicker false Fixtures.statusBoard)).
  apply picker_of_setup.
Defined.

(* ------------------------------------------------------------------- *)
(** *** [Picker.setVisibleColumns] and the button [apply] *)

Lemma NoDup_map_inj (A B : Type) (f : A -> B) :
  forall (l : list A) (a b : A),
    NoDup (map f l) -> In a l -> In b l -> f a = f b -> a = b.
Proof.
  induction l as [|x l IH]; intros a b Hnd Ha Hb Hf; [contradiction|].
  cbn [map] in Hnd. inversion Hnd as [|? ? Hnin Hnd']; subst.
  destruct Ha as [->|Ha], Hb as [->|Hb].
  - reflexivity.
  - exfalso. apply Hnin. rewrite Hf. now apply in_map.
  - exfalso. apply Hnin. rewrite <- Hf. now apply in_map.
  - now apply IH.
Qed.

Lemma non_empty_In (A : Type) (l : list A) (a : A) :
  In a l -> non_empty l = true.
Proof. destruct l; [contradiction|reflexivity]. Qed.

(** An anchor of a set is found by its index exactly when it is in the
    set. *)
Lemma non_empty_filter_unique (q : anchor -> bool) (l : list anchor) a :
  NoDup (map board_col_index l) -> In a l ->
  non_empty (filter (with_index (board_col_index a)) (filter q l)) = q a.
Proof.
  intros Hnd Hin. destruct (q a) eqn:Hq.
  - apply (non_empty_In _ a). apply filter_In. split.
    + apply filter_In. auto.
    + unfold with_index. apply Nat.eqb_refl.
  - destruct (filter _ (filter q l)) as [|b rest] eqn:E; [reflexivity|].
    assert (Hb : In b (filter (with_index (board_col_index a))
                              (filter q l)))
      by (rewrite E; now left).
    apply filter_In in Hb. destruct Hb as [Hb Hi].
    apply filter_In in Hb. destruct Hb as [Hb Hqb].
    unfold with_index in Hi. apply Nat.eqb_eq in Hi.
    rewrite (NoDup_map_inj board_col_index l b a Hnd Hb Hin Hi) in Hqb.
    congruence.
Qed.

Lemma isVisible_show_col c : isVisible (show_col c) = true.
Proof. unfold show_col. destruct (isVisible c) eqn:E; cbn; auto. Qed.

Lemma isVisible_visible_from sel :
  forall sts k,
    map isVisible (visible_from sel k sts)
    = map (fun i => non_empty (filter (with_index i) sel))
          (seq k (List.length sts)).
Proof.
  induction sts as [|c sts IH]; intros k; [reflexivity|].
  cbn [visible_from map List.length seq]. rewrite IH. f_equal.
  destruct (non_empty (filter (with_index k) sel));
    [apply isVisible_show_col | reflexivity].
Qed.

(** The columns made visible are those of the anchors of the set. *)
Lemma visible_from_filter (q : anchor -> bool) (l : list anchor) sts :
  map board_col_index l = seq 0 (List.length sts) ->
  map isVisible (visible_from (filter q l) 0 sts) = map q l.
Proof.
  intros Hi. rewrite isVisible_visible_from, <- Hi, map_map.
  apply map_ext_in. intros a Ha.
  apply non_empty_filter_unique; [|exact Ha].
  rewrite Hi. apply seq_NoDup.
Qed.

Lemma frame_visible_from sel :
  forall sts k, map frame (visible_from sel k sts) = map frame sts.
Proof.
  induction sts as [|c sts IH]; intros k; [reflexivity|].
  cbn [visible_from map]. rewrite IH. f_equal.
  unfold show_col, hide_col.
  destruct (non_empty (filter (with_index k) sel)); [|reflexivity].
  destruct (negb (isVisible c)); reflexivity.
Qed.

Lemma mirrors_visible_from sel :
  forall sts k, mirrors sts -> mirrors (visible_from sel k sts).
Proof.
  induction sts as [|c sts IH]; intros k Hm; [exact Hm|].
  apply VisibilityMore.mirrors_cons in Hm. destruct Hm as [Hc Hm].
  cbn [visible_from]. apply VisibilityMore.mirrors_cons.
  split; [|now apply IH].
  unfold show_col, hide_col.
  destruct (non_empty (filter (with_index k) sel)); [|reflexivity].
  destruct (isVisible c) eqn:E; cbn [negb]; [|reflexivity].
  now rewrite Hc, E.
Qed.

(** Columns that already are as the set wants them stay untouched. *)
Lemma visible_from_same sel :
  forall sts k,
    mirrors sts ->
    map isVisible (visible_from sel k sts) = map isVisible sts ->
    visible_from sel k sts = sts.
Proof.
  induction sts as [|c sts IH]; intros k Hm Hv; [reflexivity|].
  apply VisibilityMore.mirrors_cons in Hm. destruct Hm as [Hc Hm].
  cbn [visible_from map] in *. injection Hv as Hv1 Hv.
  rewrite (IH _ Hm Hv). f_equal.
  destruct (non_empty (filter (with_index k) sel)).
  - unfold show_col in *. destruct (isVisible c) eqn:E; cbn [negb] in *;
      [reflexivity|]. cbn in Hv1. discriminate.
  - unfold hide_col in *. cbn in Hv1. destruct c as [ty ti na vis css ht de].
    cbn in *. subst. reflexivity.
Qed.

Lemma setBoardColumnClass_number n o :
  (2 <= n)%Z ->
  showNumberOfColumns (setBoardColumnClass n o) = n.
Proof.
  intros Hn. unfold setBoardColumnClass.
  assert (H0 : (n =? 0)%Z = false) by (apply Z.eqb_neq; lia).
  assert (H2 : (n <? 2)%Z = false) by (apply Z.ltb_ge; lia).
  rewrite H0, H2. cbn [orb].
  destruct (showNumberOfColumns o =? n)%Z eqn:E; [|reflexivity].
  now apply Z.eqb_eq in E.
Qed.

Lemma setBoardColumnClass_same n o :
  layout_agrees o ->
  n = Z.of_nat (visible_count (states o)) ->
  setBoardColumnClass n o = o.
Proof.
  intros Hl Hn. unfold setBoardColumnClass.
  set (c := if ((n =? 0) || (n <? 2))%Z
            then Z.of_nat (visible_count (states o)) else n).
  assert (Hc : c = Z.of_nat (visible_count (states o))).
  { unfold c. destruct ((n =? 0) || (n <? 2))%Z; congruence. }
  rewrite Hc, Hl, Z.eqb_refl. reflexivity.
Qed.

Lemma trigger_shape o :
  (initDone o = false -> triggerBoardColumnChangeEvent o = [])
  /\ (initDone o = true ->
      exists cols, triggerBoardColumnChangeEvent o = [boardColumnChange cols]).
Proof.
  unfold triggerBoardColumnChangeEvent. split; intros ->; eauto.
Qed.

(** X22.  The button [apply] changes the board only when two to
    [maxColumnVisible] anchors are selected: the selected columns are
    then the visible ones, the layout number is their count and the
    picker is closed; with fewer or more, the board, the selection and
    the picker stay as they are and a message is shown. *)
Theorem apply_keeps_the_count_within_bounds :
  forall (maxMsg minMsg : string) (p : picker) (o : board),
    picker_of o p ->
    let n := List.length (getSelected p) in
    let '(p', o', evs) := click_apply maxMsg minMsg p o in
    (2 <= n /\ (Z.of_nat n <= maxColumnVisible o)%Z ->
     map isVisible (states o') = map highlight (anchors p)
     /\ visible_count (states o') = n
     /\ showNumberOfColumns o' = Z.of_nat n
     /\ map frame (states o') = map frame (states o)
     /\ (mirrors (states o) -> mirrors (states o'))
     /\ cntrVisible p' = false
     /\ anchors p' = anchors p
     /\ (initDone o = false -> evs = [])
     /\ (initDone o = true -> exists cols, evs = [boardColumnChange cols]))
    /\ (n < 2 \/ (maxColumnVisible o < Z.of_nat n)%Z ->
        o' = o /\ evs = []
        /\ anchors p' = anchors p
        /\ cntrVisible p' = cntrVisible p
        /\ messages p'
           = messages p
             ++ [if (maxColumnVisible o <? Z.of_nat n)%Z
                 then maxMsg else minMsg]).
Proof.
  intros maxMsg minMsg p o [Hi Hn]. cbn zeta. unfold click_apply.
  destruct (maxColumnVisible o <? Z.of_nat (List.length (getSelected p)))%Z
    eqn:Emax.
  { apply Z.ltb_lt in Emax. split; [lia|]. intros _. cbn. auto. }
  apply Z.ltb_ge in Emax.
  destruct (Z.of_nat (List.length (getSelected p)) <? 2)%Z eqn:Emin.
  { apply Z.ltb_lt in Emin. split; [lia|]. intros _. cbn. auto. }
  apply Z.ltb_ge in Emin. split; [|lia]. intros _.
  unfold setVisibleColumns.
  set (sts' := visible_from (getSelected p) 0 (states o)).
  assert (Hst : states (setBoardColumnClass
                          (Z.of_nat (List.length (getSelected p)))
                          (set_states sts' o)) = sts')
    by apply VisibilityFacts.setBoardColumnClass_states.
  assert (Hv : map isVisible sts' = map highlight (anchors p))
    by (apply visible_from_filter; exact Hi).
  assert (Hinit : initDone (setBoardColumnClass
                              (Z.of_nat (List.length (getSelected p)))
                              (set_states sts' o)) = initDone o).
  { unfold setBoardColumnClass.
    match goal with
    | |- context [if ?c then _ else _] => destruct c
    end; reflexivity. }
  rewrite Hst. split; [exact Hv|]. split; [|split; [|split; [|split]]].
  - unfold visible_count, getSelected.
    rewrite (count_filter_map isVisible), (count_filter_map highlight).
    now rewrite Hv.
  - now apply setBoardColumnClass_number.
  - apply frame_visible_from.
  - apply mirrors_visible_from.
  - split; [reflexivity|]. split; [reflexivity|].
    destruct (trigger_shape
                (setBoardColumnClass
                   (Z.of_nat (List.length (getSelected p)))
                   (set_states sts' o))) as [H0 H1].
    rewrite Hinit in H0, H1. split; assumption.
Qed.

(** X22, on the status board, with the picker as it opens. *)
Lemma apply_button_witness :
  let p := setSelected Fixtures.statusBoard
                       (setupColumnPicker false Fixtures.statusBoard) in
  let '(p', o', evs) := click_apply "max" "min" p Fixtures.statusBoard in
  visible_count (states o') = 4.
Proof.
  assert (Hp : picker_of Fixtures.statusBoard
                 (setSelected Fixtures.statusBoard
                    (setupColumnPicker false Fixtures.statusBoard))).
  { split; vm_compute; reflexivity. }
  assert (H := @apply_keeps_the_count_within_bounds "max" "min" _ _ Hp).
  cbn zeta in *.
  destruct (click_apply "max" "min" _ Fixtures.statusBoard) as [[p' o'] evs].
  destruct H as [H _].
  assert (Hb : 2 <= List.length
                      (getSelected
                         (setSelected Fixtures.statusBoard
                            (setupColumnPicker false Fixtures.statusBoard)))
               /\ (Z.of_nat
                     (List.length
                        (getSelected
                           (setSelected Fixtures.statusBoard
                              (setupColumnPicker false
                                                 Fixtures.statusBoard))))
                   <= maxColumnVisible Fixtures.statusBoard)%Z).
  { split; vm_compute; [repeat constructor | discriminate]. }
  destruct (H Hb) as (_ & Hc & _). rewrite Hc. vm_compute. reflexivity.
Defined.

(** X23.  Opening the picker and pressing [apply] at once leaves the
    columns as they are, when two to [maxColumnVisible] of them are
    visible and the hidden class is where it belongs; the whole instance
    is unchanged when the layout number agreed with the board. *)
Theorem open_then_apply_changes_nothing :
  forall (maxMsg minMsg : string) (p : picker) (o : board),
    picker_of o p ->
    cntrVisible p = false ->
    mirrors (states o) ->
    2 <= visible_count (states o) ->
    (Z.of_nat (visible_count (states o)) <= maxColumnVisible o)%Z ->
    let '(p', o', evs) :=
      click_apply maxMsg minMsg (click_columns o p) o in
    states o' = states o
    /\ (layout_agrees o -> o' = o)
    /\ cntrVisible p' = false
    /\ messages p' = messages p.
Proof.
  intros maxMsg minMsg p o Hp Hclosed Hm Hlo Hhi.
  unfold click_columns. rewrite Hclosed.
  destruct (@setSelected_highlights o p Hp) as (Hh & Hc & Hmsg).
  set (p1 := set_cntrVisible true (setSelected o p)).
  assert (Hsel : List.length (getSelected p1) = visible_count (states o)).
  { unfold getSelected, p1. cbn [anchors set_cntrVisible]. unfold visible_count.
    rewrite (count_filter_map isVisible), (count_filter_map highlight).
    now rewrite Hh. }
  unfold click_apply. rewrite Hsel.
  assert (E1 : (maxColumnVisible o <? Z.of_nat (visible_count (states o)))%Z
               = false) by (apply Z.ltb_ge; lia).
  assert (E2 : (Z.of_nat (visible_count (states o)) <? 2)%Z = false)
    by (apply Z.ltb_ge; lia).
  rewrite E1, E2. unfold setVisibleColumns. rewrite Hsel.
  assert (Hsame : visible_from (getSelected p1) 0 (states o) = states o).
  { apply visible_from_same; [exact Hm|].
    unfold getSelected. rewrite visible_from_filter.
    - unfold p1. cbn [anchors set_cntrVisible]. exact Hh.
    - unfold p1. cbn [anchors set_cntrVisible]. exact Hc. }
  rewrite Hsame.
  assert (Ho : set_states (states o) o = o) by (destruct o; reflexivity).
  rewrite Ho. split; [apply VisibilityFacts.setBoardColumnClass_states|].
  split; [|split].
  - intros Hl. now apply setBoardColumnClass_same.
  - reflexivity.
  - unfold p1. cbn [messages set_cntrVisible]. exact Hmsg.
Qed.

(** X23, on the status board. *)
Lemma open_then_apply_witness :
  let '(p', o', evs) :=
    click_apply "max" "min"
                (click_columns Fixtures.statusBoard
                   (setupColumnPicker false Fixtures.statusBoard))
                Fixtures.statusBoard in
  states o' = states Fixtures.statusBoard.
Proof.
  assert (H := @open_then_apply_changes_nothing
                 "max" "min"
                 (setupColumnPicker false Fixtures.statusBoard)
                 Fixtures.statusBoard
                 (picker_of_setup false Fixtures.statusBoard) eq_refl).
  destruct (click_apply "max" "min" _ Fixtures.statusBoard) as [[p' o'] evs].
  apply H.
  - apply ReconcileMore.mirrors_check. vm_compute. reflexivity.
  - vm_compute. repeat constructor.
  - vm_compute. discriminate.
Defined.

(* ------------------------------------------------------------------- *)
(** *** The button [check] and the anchors *)

Lemma filter_all_true (A : Type) (f : A -> bool) (l : list A) :
  (forall a, In a l -> f a = true) -> filter f l = l.
Proof.
  induction l as [|a l IH]; intros H; [reflexivity|].
  cbn [filter]. rewrite (H a (or_introl eq_refl)).
  f_equal. apply IH. intros b Hb. apply H. now right.
Qed.

(** X24.  The button [check] clears the selection when there is one and
    selects every column when there is none; the total shown follows, and
    the anchors keep their index. *)
Theorem check_selects_all_or_none :
  forall (p : picker),
    let p' := click_check p in
    map board_col_index (anchors p') = map board_col_index (anchors p)
    /\ totalCntr p' = Some (List.length (getSelected p'))
    /\ (getSelected p <> [] -> getSelected p' = [])
    /\ (getSelected p = [] -> getSelected p' = anchors p').
Proof.
  intros p. cbn zeta.
  assert (Ha : anchors (click_check p)
               = map (fun a =>
                        if non_empty (getSelected p)
                        then if highlight a
                             then selectColumn1 (JS.VBool true) a else a
                        else selectColumn1 JS.VUndefined a)
                     (anchors p)).
  { unfold click_check, setTotalSelected, selectColumn.
    destruct (non_empty (getSelected p)); reflexivity. }
  assert (Ht : totalCntr (click_check p)
               = Some (List.length (getSelected (click_check p))))
    by reflexivity.
  split; [|split; [exact Ht|split]].
  - rewrite Ha, map_map. apply map_ext. intros a.
    destruct (non_empty (getSelected p)).
    + destruct (highlight a); [apply selectColumn1_keeps|reflexivity].
    + apply selectColumn1_keeps.
  - intros Hne. unfold getSelected at 1. rewrite Ha.
    destruct (getSelected p) as [|x xs] eqn:E; [contradiction|].
    cbn [non_empty].
    apply ReconcileFacts.filter_none. intros b Hb.
    apply in_map_iff in Hb. destruct Hb as (a0 & <- & _).
    destruct (highlight a0) eqn:Eh; [|exact Eh].
    apply (highlight_selectColumn1_bool true).
  - intros He. unfold getSelected at 1. rewrite Ha, He. cbn [non_empty].
    apply filter_all_true. intros b Hb.
    apply in_map_iff in Hb. destruct Hb as (a0 & <- & Ha0).
    rewrite highlight_selectColumn1_undefined.
    unfold getSelected in He.
    now rewrite (ReconcileFacts.filter_nil_none _ _ He a0 Ha0).
Qed.

(** X25.  A click on an anchor toggles the anchors of that index and no
    other, and the total shown follows; a second click restores the
    selection. *)
Theorem anchor_click_toggles :
  forall (i : nat) (p : picker),
    let p' := click_anchor i p in
    map highlight (anchors p')
    = map (fun a => if with_index i a then negb (highlight a)
                    else highlight a)
          (anchors p)
    /\ totalCntr p' = Some (List.length (getSelected p'))
    /\ map highlight (anchors (click_anchor i p'))
       = map highlight (anchors p).
Proof.
  intros i p. cbn zeta.
  assert (H : forall q,
             map highlight (anchors (click_anchor i q))
             = map (fun a => if with_index i a then negb (highlight a)
                             else highlight a)
                   (anchors q)
             /\ map board_col_index (anchors (click_anchor i q))
                = map board_col_index (anchors q)).
  { intros q. unfold click_anchor, setTotalSelected, selectColumn.
    cbn [fst anchors set_totalCntr set_anchors]. rewrite !map_map.
    split; apply map_ext; intros a; destruct (with_index i a);
      try reflexivity.
    - apply highlight_selectColumn1_undefined.
    - apply selectColumn1_keeps. }
  split; [apply H|]. split; [reflexivity|].
  destruct (H (click_anchor i p)) as [H2 _]. rewrite H2.
  destruct (H p) as [H1 Hidx].
  set (l' := anchors (click_anchor i p)) in *.
  clearbody l'. clear H H2.
  revert l' H1 Hidx.
  induction (anchors p) as [|a l IH]; intros [|a' l'] H1 Hidx;
    try discriminate; [reflexivity|].
  cbn [map] in *. injection H1 as Ha Hl. injection Hidx as Hia Hil.
  rewrite (IH l' Hl Hil). f_equal.
  unfold with_index in *. rewrite Hia, Ha.
  destruct (board_col_index a =? i)%nat; [apply negb_involutive|reflexivity].
Qed.

(* ------------------------------------------------------------------- *)
(** *** [Picker.setUserDefinedVisibleCol] *)

Lemma selector_loop_spec sts max :
  forall l count sel,
    (count < max)%Z ->
    selector_loop sts max l count sel
    = ((count + Z.of_nat
                  (List.length
                     (firstn (Z.to_nat (max - count)) (titled sts l))))%Z,
       sel ++ map name (firstn (Z.to_nat (max - count)) (titled sts l))).
Proof.
  induction l as [|nm l IH]; intros count sel Hlt;
    cbn [selector_loop titled flat_map].
  - rewrite firstn_nil. cbn. rewrite app_nil_r. f_equal. lia.
  - fold (titled sts l).
    destruct (find (fun st => String.eqb (title st) nm) sts) as [st|].
    + cbn [app]. destruct (max <=? count + 1)%Z eqn:E.
      * apply Z.leb_le in E.
        replace (Z.to_nat (max - count)) with 1 by lia.
        cbn. f_equal.
      * apply Z.leb_gt in E. rewrite IH by lia.
        replace (Z.to_nat (max - count))
          with (S (Z.to_nat (max - (count + 1)))) by lia.
        cbn [firstn map List.length]. rewrite <- app_assoc. cbn [app].
        f_equal. lia.
    + cbn [app].
      assert (E : (max <=? count)%Z = false) by (apply Z.leb_gt; lia).
      rewrite E. now apply IH.
Qed.

Lemma inArray_In x l : JS.inArray x l = true <-> In x l.
Proof.
  unfold JS.inArray. rewrite existsb_exists. split.
  - intros (y & Hy & He). apply String.eqb_eq in He. now subst.
  - intros H. exists x. split; [exact H|apply String.eqb_refl].
Qed.

Lemma NoDup_map_filter (A B : Type) (f : A -> B) (q : A -> bool) :
  forall l, NoDup (map f l) -> NoDup (map f (filter q l)).
Proof.
  induction l as [|a l IH]; intros Hnd; [constructor|].
  cbn [map] in Hnd. inversion Hnd as [|? ? Hnin Hnd']; subst.
  cbn [filter]. destruct (q a); [|now apply IH].
  cbn [map]. constructor; [|now apply IH].
  intros Hin. apply Hnin. apply in_map_iff in Hin.
  destruct Hin as (b & Hb & Hin). apply filter_In in Hin.
  rewrite <- Hb. apply in_map. apply Hin.
Qed.

Lemma run_list l p o :
  l <> [] ->
  (1 <= maxColumnVisible o)%Z ->
  setUserDefinedVisibleCol (ArgArray l) p o
  = if (2 <=? List.length (first_titled o l))%nat
    then let o' := setVisibleColumns
                     (Some (find_by_name (map name (first_titled o l)) p))
                     p o in
         (o', triggerBoardColumnChangeEvent o')
    else (o, []).
Proof.
  intros Hne Hmax. destruct l as [|a l]; [contradiction|].
  cbn [setUserDefinedVisibleCol].
  rewrite selector_loop_spec by lia.
  rewrite Z.sub_0_r. fold (first_titled o (a :: l)). cbn [app].
  rewrite Z.add_0_l.
  destruct (2 <=? List.length (first_titled o (a :: l)))%nat eqn:E.
  - apply Nat.leb_le in E.
    assert (E' : (2 <=? Z.of_nat (List.length (first_titled o (a :: l))))%Z
                 = true) by (apply Z.leb_le; lia).
    now rewrite E'.
  - apply Nat.leb_gt in E.
    assert (E' : (2 <=? Z.of_nat (List.length (first_titled o (a :: l))))%Z
                 = false) by (apply Z.leb_gt; lia).
    now rewrite E'.
Qed.

Lemma visible_by_name (N : list string) p o :
  picker_of o p ->
  map isVisible (visible_from (find_by_name N p) 0 (states o))
  = map (fun s => JS.inArray (name s) N) (states o).
Proof.
  intros [Hi Hn]. unfold find_by_name.
  rewrite visible_from_filter by exact Hi.
  rewrite <- (map_map board_col_name (fun n => JS.inArray n N)).
  rewrite Hn, map_map. reflexivity.
Qed.

(** X26.  The picker's own [setUserDefinedVisibleCol] takes the names of
    the list in the order given, keeps those that are the title of a
    column, stops at [maxColumnVisible] of them, and needs two: the
    columns of these titles are then the visible ones and the others are
    hidden; with fewer than two nothing changes and nothing is
    triggered.  When no two columns share a name, the number of visible
    columns is then at most [maxColumnVisible]. *)
Theorem picker_list_shows_the_first_titles :
  forall (l : list string) (p : picker) (o : board),
    picker_of o p ->
    l <> [] ->
    (1 <= maxColumnVisible o)%Z ->
    let hits := first_titled o l in
    let '(o', evs) := setUserDefinedVisibleCol (ArgArray l) p o in
    (2 <= List.length hits ->
     map isVisible (states o')
     = map (fun s => JS.inArray (name s) (map name hits)) (states o)
     /\ map frame (states o') = map frame (states o)
     /\ (NoDup (map name (states o)) ->
         visible_count (states o') <= List.length hits
         /\ (Z.of_nat (List.length hits) <= maxColumnVisible o)%Z))
    /\ (List.length hits < 2 -> o' = o /\ evs = []).
Proof.
  intros l p o [Hi Hn] Hne Hmax. cbn zeta.
  rewrite (@run_list l p o Hne Hmax).
  destruct (2 <=? List.length (first_titled o l))%nat eqn:E.
  - apply Nat.leb_le in E. cbn zeta. split; [|lia]. intros _.
    unfold setVisibleColumns.
    rewrite VisibilityFacts.setBoardColumnClass_states.
    cbn [states set_states]. unfold find_by_name.
    assert (Hv := @visible_by_name (map name (first_titled o l)) p o
                                   (conj Hi Hn)).
    unfold find_by_name in Hv.
    split; [exact Hv|]. split; [apply frame_visible_from|].
    intros Hnd. split.
    + unfold visible_count. rewrite (count_filter_map isVisible), Hv.
      rewrite <- count_filter_map.
      rewrite <- (length_map name (first_titled o l)).
      rewrite <- (length_map name (filter _ (states o))).
      apply NoDup_incl_length; [now apply NoDup_map_filter|].
      intros x Hx. apply in_map_iff in Hx. destruct Hx as (s0 & <- & Hs0).
      apply filter_In in Hs0. now apply inArray_In.
    + unfold first_titled. rewrite length_firstn. lia.
  - apply Nat.leb_gt in E. split; [lia|]. auto.
Qed.

(** X26, on the status board. *)
Lemma picker_list_witness :
  let '(o', evs) :=
    setUserDefinedVisibleCol
      (ArgArray ["Done"; "Open"; "Not Started"])
      (setupColumnPicker false Fixtures.statusBoard) Fixtures.statusBoard in
  map isVisible (states o') = [false; true; false; true].
Proof.
  assert (Hne : ["Done"; "Open"; "Not Started"] <> []) by discriminate.
  assert (Hmax : (1 <= maxColumnVisible Fixtures.statusBoard)%Z)
    by (vm_compute; discriminate).
  assert (H := @picker_list_shows_the_first_titles
                 ["Done"; "Open"; "Not Started"]
                 (setupColumnPicker false Fixtures.statusBoard)
                 Fixtures.statusBoard
                 (picker_of_setup false Fixtures.statusBoard) Hne Hmax).
  cbn zeta in H.
  destruct (setUserDefinedVisibleCol _ _ Fixtures.statusBoard) as [o' evs].
  destruct H as [H _].
  assert (Hlen : 2 <= List.length
                        (first_titled Fixtures.statusBoard
                                      ["Done"; "Open"; "Not Started"]))
    by (vm_compute; repeat constructor).
  destruct (H Hlen) as (Hv & _). rewrite Hv. vm_compute. reflexivity.
Defined.

Lemma find_title (l : list state) (a : state) :
  NoDup (map title l) -> In a l ->
  find (fun st => String.eqb (title st) (title a)) l = Some a.
Proof.
  induction l as [|x l IH]; intros Hnd Hin; [contradiction|].
  cbn [map] in Hnd. inversion Hnd as [|? ? Hnin Hnd']; subst.
  cbn [find]. destruct Hin as [->|Hin].
  - now rewrite String.eqb_refl.
  - destruct (String.eqb (title x) (title a)) eqn:E.
    + apply String.eqb_eq in E. exfalso. apply Hnin. rewrite E.
      now apply in_map.
    + now apply IH.
Qed.

Lemma titled_titles sts :
  NoDup (map title sts) ->
  forall l, incl l sts -> titled sts (map title l) = l.
Proof.
  intros Hnd. unfold titled.
  induction l as [|a l IH]; intros Hincl; [reflexivity|].
  cbn [map flat_map].
  rewrite (find_title sts a Hnd (Hincl a (or_introl eq_refl))).
  cbn [app]. f_equal. apply IH. intros x Hx. apply Hincl. now right.
Qed.

Lemma inArray_firstn :
  forall (sts : list state) (m : nat),
    NoDup (map name sts) ->
    map (fun s => JS.inArray (name s) (map name (firstn m sts))) sts
    = repeat true (Nat.min m (List.length sts))
      ++ repeat false (List.length sts - m).
Proof.
  induction sts as [|c sts IH]; intros m Hnd.
  - destruct m; reflexivity.
  - cbn [map] in Hnd. inversion Hnd as [|? ? Hnin Hnd']; subst.
    destruct m as [|m].
    + cbn [firstn map Nat.min repeat app List.length Nat.sub].
      f_equal. clear. induction sts as [|s sts IH]; [reflexivity|].
      cbn [map List.length repeat]. now rewrite IH.
    + cbn [firstn map Nat.min repeat app List.length Nat.sub].
      rewrite <- (IH m Hnd'). f_equal.
      * unfold JS.inArray. cbn [existsb]. now rewrite String.eqb_refl.
      * apply map_ext_in. intros s Hs. unfold JS.inArray. cbn [existsb].
        destruct (String.eqb (name s) (name c)) eqn:E; [|reflexivity].
        apply String.eqb_eq in E. exfalso. apply Hnin. rewrite <- E.
        now apply in_map.
Qed.

(** X27.  For the picker's own [setUserDefinedVisibleCol] the keyword
    ["all"], in any case of its letters, stands for the list of all the
    titles: on a board of two columns or more whose titles and names
    are all different, the first [maxColumnVisible] columns are made the
    visible ones. *)
Theorem picker_all_shows_the_first_columns :
  forall (s : string) (p : picker) (o : board),
    JS.toLowerCase s = "all" ->
    picker_of o p ->
    NoDup (map title (states o)) ->
    NoDup (map name (states o)) ->
    (2 <= maxColumnVisible o)%Z ->
    2 <= List.length (states o) ->
    let m := Z.to_nat (maxColumnVisible o) in
    let n := List.length (states o) in
    let '(o', evs) := setUserDefinedVisibleCol (ArgString s) p o in
    map isVisible (states o')
    = repeat true (Nat.min m n) ++ repeat false (n - m).
Proof.
  intros s p o Hall Hp Hti Hna Hmax Hlen. cbn zeta.
  assert (Heq : setUserDefinedVisibleCol (ArgString s) p o
                = setUserDefinedVisibleCol
                    (ArgArray (map title (states o))) p o).
  { cbn [setUserDefinedVisibleCol]. rewrite Hall. cbn [String.eqb negb].
    destruct (states o) as [|c sts]; [cbn in Hlen; lia|].
    cbn [map]. reflexivity. }
  rewrite Heq, run_list;
    [|destruct (states o); [cbn in Hlen; lia|discriminate]|lia].
  assert (Hhits : first_titled o (map title (states o))
                  = firstn (Z.to_nat (maxColumnVisible o)) (states o)).
  { unfold first_titled. rewrite titled_titles; auto. apply incl_refl. }
  rewrite Hhits.
  assert (Hl : (2 <=? List.length
                         (firstn (Z.to_nat (maxColumnVisible o)) (states o)))%nat
               = true).
  { apply Nat.leb_le. rewrite length_firstn. lia. }
  rewrite Hl. cbn zeta. unfold setVisibleColumns.
  rewrite VisibilityFacts.setBoardColumnClass_states.
  cbn [states set_states].
  rewrite (visible_by_name _ Hp). now apply inArray_firstn.
Qed.

(** X27, on the status board. *)
Lemma picker_all_witness :
  let '(o', evs) :=
    setUserDefinedVisibleCol
      (ArgString "ALL")
      (setupColumnPicker false Fixtures.statusBoard) Fixtures.statusBoard in
  map isVisible (states o') = [true; true; true; true].
Proof.
  assert (H := @picker_all_shows_the_first_columns
                 "ALL" (setupColumnPicker false Fixtures.statusBoard)
                 Fixtures.statusBoard eq_refl
                 (picker_of_setup false Fixtures.statusBoard)).
  cbn zeta in H.
  destruct (setUserDefinedVisibleCol _ _ Fixtures.statusBoard) as [o' evs].
  rewrite H.
  - vm_compute. reflexivity.
  - vm_compute. repeat constructor; cbn; intuition discriminate.
  - vm_compute. repeat constructor; cbn; intuition discriminate.
  - vm_compute. discriminate.
  - vm_compute. repeat constructor.
Defined.

End PickerFacts.


(* ===================================================================== *)
(** ** The urls of the list forms *)
(* ===================================================================== *)

Module FormFacts.
Import ListForms.

Lemma urls_get_set k k' v m :
  urls_get k (urls_set k' v m)
  = if String.eqb k k' then Some v else urls_get k m.
Proof.
  induction m as [|[k2 v2] m IH]; cbn [urls_set urls_get].
  - reflexivity.
  - destruct (String.eqb k' k2) eqn:E2; cbn [urls_get].
    + apply String.eqb_eq in E2. subst k2.
      destruct (String.eqb k k'); reflexivity.
    + destruct (String.eqb k k2) eqn:E; [|exact IH].
      apply String.eqb_eq in E. subst k2.
      rewrite String.eqb_sym in E2. now rewrite E2.
Qed.

Lemma urls_get_store k k' v m :
  urls_get k (store k' v m)
  = if String.eqb k k' && negb (String.eqb k' "__proto__") then Some v
    else urls_get k m.
Proof.
  unfold store. destruct (String.eqb k' "__proto__").
  - now rewrite andb_false_r.
  - now rewrite urls_get_set, andb_true_r.
Qed.

Lemma urls_get_load_other w k :
  forall response m,
    k = "__proto__" \/ (forall f, In f response -> form_key f <> k) ->
    urls_get k (loadFormCollection w response m) = urls_get k m.
Proof.
  unfold loadFormCollection.
  induction response as [|f response IH]; intros m Hno; [reflexivity|].
  cbn [fold_left].
  rewrite IH
    by (destruct Hno as [Hk|Hno];
        [now left|right; intros g Hg; apply Hno; now right]).
  rewrite urls_get_store.
  destruct (String.eqb k (form_key f)) eqn:E; [|reflexivity].
  apply String.eqb_eq in E. destruct Hno as [Hk|Hno].
  - rewrite <- E, Hk. reflexivity.
  - exfalso. now apply (Hno f (or_introl eq_refl)).
Qed.

Lemma urls_get_load_last w k pre f post m :
  form_key f = k ->
  k <> "__proto__" ->
  (forall g, In g post -> form_key g <> k) ->
  urls_get k (loadFormCollection w (pre ++ f :: post) m)
  = Some (form_url w f).
Proof.
  intros Hk Hp Hno. unfold loadFormCollection.
  rewrite fold_left_app. cbn [fold_left].
  fold (loadFormCollection w pre m).
  fold (loadFormCollection
          w post (store (form_key f) (form_url w f)
                        (loadFormCollection w pre m))).
  rewrite urls_get_load_other by (right; exact Hno).
  rewrite urls_get_store, Hk, String.eqb_refl.
  apply String.eqb_neq in Hp. now rewrite Hp.
Qed.

Lemma last_match k :
  forall response : list formNode,
    (exists f, In f response /\ form_key f = k) ->
    exists pre f post,
      response = pre ++ f :: post
      /\ form_key f = k
      /\ forall g, In g post -> form_key g <> k.
Proof.
  induction response as [|x l IH] using rev_ind; intros (f & Hin & Hk).
  - contradiction.
  - destruct (String.eqb (form_key x) k) eqn:E.
    + apply String.eqb_eq in E. exists l, x, []. repeat split; auto.
    + apply String.eqb_neq in E.
      apply in_app_or in Hin. destruct Hin as [Hin|[->|[]]];
        [|contradiction].
      destruct (IH (ex_intro _ f (conj Hin Hk)))
        as (pre & f0 & post & -> & Hk0 & Hno).
      exists pre, f0, (post ++ [x]). split; [|split; [exact Hk0|]].
      * now rewrite <- app_assoc.
      * intros g Hg. apply in_app_or in Hg.
        destruct Hg as [Hg|[<-|[]]]; auto.
Qed.

Lemma form_url_not_empty w f : form_url w f <> "".
Proof.
  unfold form_url. destruct w; discriminate.
Qed.

(** X29.  The first call of [getListFormUrl] asks the service once and
    keeps the urls; the answer is the url of the last [Form] node whose
    type is the asked one, letter case apart; when there is no such node
    it is the empty string, unless the asked type, in lower case, names a
    member that every object inherits from [Object.prototype]
    ([constructor], [__proto__]): the answer is then that member, also,
    for [__proto__], when a node has that type; for every other type the
    answer is the empty string exactly when no node has the type; every
    later call answers from what was kept, without asking again. *)
Theorem form_urls_are_fetched_once :
  forall (type : JS.value) (response : list formNode) (st : forms),
    formUrls st = None ->
    let k := JS.toLowerCase (JS.to_String type) in
    let '(st1, url, requested) := getListFormUrl type response st in
    requested = true
    /\ (JS.inherited k = false ->
        (url = Url "" <-> forall f, In f response -> form_key f <> k))
    /\ (forall pre f post,
           response = pre ++ f :: post ->
           form_key f = k ->
           k <> "__proto__" ->
           (forall g, In g post -> form_key g <> k) ->
           url = Url (form_url (webURL st) f))
    /\ (k = "__proto__" \/ (forall f, In f response -> form_key f <> k) ->
        url = if JS.inherited k then Inherited k else Url "")
    /\ (forall response',
           getListFormUrl type response' st1 = (st1, url, false)).
Proof.
  intros type response st Hnull. cbn zeta. unfold getListFormUrl.
  rewrite Hnull. cbn [formUrls webURL].
  set (k := JS.toLowerCase (JS.to_String type)).
  split; [reflexivity|].
  assert (Hlast : forall pre f post,
             response = pre ++ f :: post ->
             form_key f = k ->
             k <> "__proto__" ->
             (forall g, In g post -> form_key g <> k) ->
             match urls_get k (loadFormCollection (webURL st) response []) with
             | Some url => if String.eqb url "" then Url "" else Url url
             | None => if JS.inherited k then Inherited k else Url ""
             end = Url (form_url (webURL st) f)).
  { intros pre f post -> Hk Hp Hno.
    rewrite (urls_get_load_last (webURL st) pre f post [] Hk Hp Hno).
    assert (E : String.eqb (form_url (webURL st) f) "" = false)
      by (apply String.eqb_neq, form_url_not_empty).
    now rewrite E. }
  assert (Hnone : k = "__proto__"
                  \/ (forall f, In f response -> form_key f <> k) ->
                  match urls_get k (loadFormCollection (webURL st) response [])
                  with
                  | Some url => if String.eqb url "" then Url "" else Url url
                  | None => if JS.inherited k then Inherited k else Url ""
                  end = if JS.inherited k then Inherited k else Url "").
  { intros Hno. now rewrite urls_get_load_other. }
  split; [|split; [exact Hlast|split; [exact Hnone|reflexivity]]].
  intros Hplain. split.
  - intros Hurl f Hin Hk.
    assert (Hp : k <> "__proto__").
    { intros Hp. rewrite Hp in Hplain. discriminate. }
    destruct (@last_match k response (ex_intro _ f (conj Hin Hk)))
      as (pre & f0 & post & Hresp & Hk0 & Hno).
    rewrite (Hlast pre f0 post Hresp Hk0 Hp Hno) in Hurl.
    injection Hurl as Hurl.
    now apply form_url_not_empty in Hurl.
  - intros Hno. rewrite Hnone by (now right). now rewrite Hplain.
Qed.

(** X29, on a response of two forms. *)
Lemma form_urls_witness :
  let '(st1, url, requested) :=
    getListFormUrl
      (JS.VStr "EditForm")
      [{| attr_Type := JS.VStr "DisplayForm";
          attr_Url := JS.VStr "Lists/Tasks/DispForm.aspx" |};
       {| attr_Type := JS.VStr "EditForm";
          attr_Url := JS.VStr "Lists/Tasks/EditForm.aspx" |}]
      {| webURL := "/sites/a"; formUrls := None |} in
  requested = true
  /\ url = Url "/sites/a/Lists/Tasks/EditForm.aspx".
Proof.
  assert (H := @form_urls_are_fetched_once
                 (JS.VStr "EditForm")
                 [{| attr_Type := JS.VStr "DisplayForm";
                     attr_Url := JS.VStr "Lists/Tasks/DispForm.aspx" |};
                  {| attr_Type := JS.VStr "EditForm";
                     attr_Url := JS.VStr "Lists/Tasks/EditForm.aspx" |}]
                 {| webURL := "/sites/a"; formUrls := None |} eq_refl).
  cbn zeta in H.
  destruct (getListFormUrl _ _ _) as [[st1 url] requested].
  destruct H as (Hreq & _ & Hlast & _).
  split; [exact Hreq|].
  apply (Hlast [{| attr_Type := JS.VStr "DisplayForm";
                   attr_Url := JS.VStr "Lists/Tasks/DispForm.aspx" |}]
               {| attr_Type := JS.VStr "EditForm";
                  attr_Url := JS.VStr "Lists/Tasks/EditForm.aspx" |}
               []).
  - reflexivity.
  - reflexivity.
  - discriminate.
  - intros g [].
Defined.

End FormFacts.
